(** * NCERT Timer Study: the room state machine and the question supply

    A shallow embedding of [server.js]: the question selection policy
    ([selectQuestions] and its three tiers), the public views of a room and
    the Socket.IO handlers ([createRoom], [joinRoom], [startGame],
    [playerDone], [hostRevealAnswer], [hostNext], [disconnect]).

    Conventions of the embedding.
    - A handler runs to completion on the registry [rooms]; what it sends is
      returned as a list of [Emit]s, oldest first.
    - Everything the process reads from outside is a field of [World]:
      the clock, [Math.random], the Gemini collaborator, the file system
      test of [getDiagramUrl], float formatting and the public base URL.
      The handlers consume the clock, the random source and the Gemini
      answers through the counters of a [Cursor]; every statement below
      holds for every world.
    - A string is the line of bytes of its UTF-8 encoding.
    - A property access on [undefined] raises a [TypeError] in the source;
      the handlers return [None] there.
    - Objects used as maps ([rooms], [room.players], [finishTimes],
      [answers]) are read as maps. Their keys are connection ids, which the
      server makes, and room ids. A room id comes from the client, and for
      one that is the name of a property of [Object.prototype]
      ([inherited]), with no room under it, [rooms[roomId]] is what the
      prototype holds: every handler but [joinRoom] returns at its guard as
      for an unknown id, while [joinRoom] raises where the embedding
      answers "Room not found."; [guard_fails] tells the two apart. Where
      the names of the players are keys ([times_of], [playerAnswers_of]),
      the name [__proto__] is treated as the source treats it.
    - In a run ([run]) a handler is atomic. The handlers of the source are,
      but for the two that call [selectQuestions]: [createRoom], which
      touches the registry only after the call, and [hostNext], which moves
      the cursor before it and opens the round after it. The two parts of
      [hostNext] are [hostNext_begin] and [hostNext_resume]; in a run
      nothing is taken between them ([hostNext_two_parts]).
    - The start-up code ([loadDotEnv], [parseAllowedOrigins], the merge of
      the question packs) and [getQuestionCatalog] are embedded as functions
      of what they read: the environment, the text of [.env], the bank. The
      checks of [loadExternalQuestionPacks] on the parsed files (they rest
      on the coercions of arbitrary JSON values to numbers and strings) and
      the HTTP routes are not embedded. *)

From Stdlib Require Import ZArith String Ascii List.
From stdpp Require Import base option gmap sets list strings pretty sorting.

Local Open Scope string_scope.
Local Open Scope list_scope.
Local Open Scope stdpp_scope.
Set Warnings "-register-all,-clear-no-such-hyp".

(** ** JavaScript values *)

(** Plain objects whose own keys are enumerated ([Object.values],
    [Object.entries]): the keys in insertion order. Assigning to a present
    key keeps its position. (JavaScript lists the keys that are array
    indices first. A connection id is never one; the name of a player may be,
    so the order of the keys of [finishTimes] and [playerAnswers] in a
    payload is that of the source only up to this.) *)
Definition JsObj (V : Type) : Type := list (string * V).

Fixpoint obj_get {V} (k : string) (o : JsObj V) : option V :=
  match o with
  | [] => None
  | (k', v) :: o' => if String.eqb k k' then Some v else obj_get k o'
  end.

Fixpoint obj_set {V} (k : string) (v : V) (o : JsObj V) : JsObj V :=
  match o with
  | [] => [(k, v)]
  | (k', v') :: o' =>
      if String.eqb k k' then (k, v) :: o' else (k', v') :: obj_set k v o'
  end.

Fixpoint obj_delete {V} (k : string) (o : JsObj V) : JsObj V :=
  match o with
  | [] => []
  | (k', v') :: o' =>
      if String.eqb k k' then obj_delete k o' else (k', v') :: obj_delete k o'
  end.

Definition obj_keys {V} (o : JsObj V) : list string := map fst o.
Definition obj_values {V} (o : JsObj V) : list V := map snd o.

(** The names of the properties of [Object.prototype]. A plain object
    used as a map ([rooms], and [process.env] read by [loadDotEnv]) answers
    a lookup of such a name, when it has no entry of its own under it, not
    with [undefined] but with what the prototype holds. *)
Definition OBJECT_PROTOTYPE_NAMES : list string :=
  [ "constructor"; "__defineGetter__"; "__defineSetter__"; "hasOwnProperty";
    "__lookupGetter__"; "__lookupSetter__"; "isPrototypeOf";
    "propertyIsEnumerable"; "toString"; "valueOf"; "__proto__";
    "toLocaleString" ].

Definition inherited (name : string) : bool :=
  bool_decide (name ∈ OBJECT_PROTOTYPE_NAMES).

(** The values that travel in event payloads. *)
Inductive JSON : Type :=
| JUndefined
| JNull
| JBool (b : bool)
| JNum (n : Z)
| JStr (s : string)
| JArr (items : list JSON)
| JObj (fields : list (string * JSON)).

Definition json_eq_dec : forall a b : JSON, {a = b} + {a <> b}.
Proof.
  fix IH 1.
  assert (Hl : forall l1 l2 : list JSON, {l1 = l2} + {l1 <> l2}).
  { induction l1 as [|x l1 IHl]; destruct l2 as [|y l2];
      try (right; discriminate); [left; reflexivity|].
    destruct (IH x y); [|right; congruence].
    destruct (IHl l2); [left; congruence|right; congruence]. }
  assert (Hf : forall l1 l2 : list (string * JSON), {l1 = l2} + {l1 <> l2}).
  { induction l1 as [|[k x] l1 IHl]; destruct l2 as [|[k' y] l2];
      try (right; discriminate); [left; reflexivity|].
    destruct (string_dec k k'); [|right; congruence].
    destruct (IH x y); [|right; congruence].
    destruct (IHl l2); [left; congruence|right; congruence]. }
  intros [| |b|n|s|l|l] [| |b'|n'|s'|l'|l'];
    try (right; discriminate); try (left; reflexivity).
  - destruct (Bool.bool_dec b b'); [left; congruence|right; congruence].
  - destruct (Z.eq_dec n n'); [left; congruence|right; congruence].
  - destruct (string_dec s s'); [left; congruence|right; congruence].
  - destruct (Hl l l'); [left; congruence|right; congruence].
  - destruct (Hf l l'); [left; congruence|right; congruence].
Defined.

#[global] Instance JSON_eq_dec : EqDecision JSON := json_eq_dec.

(** [x || null] and friends on optional fields. *)
Definition json_str_or_null (o : option string) : JSON :=
  match o with Some s => JStr s | None => JNull end.

Definition json_strs (l : list string) : JSON := JArr (map JStr l).

(** Does a payload carry a property named [k], at any depth? *)
Fixpoint has_key (k : string) (j : JSON) : bool :=
  match j with
  | JArr items => existsb (has_key k) items
  | JObj fields =>
      existsb (fun kv => String.eqb k (fst kv) || has_key k (snd kv)) fields
  | _ => false
  end.

(** ** Strings

    A string is the line of bytes of its UTF-8 encoding. *)

(** The white space that [String.prototype.trim] removes, the WhiteSpace
    and LineTerminator code points of ECMAScript: U+0009 to U+000D and
    U+0020, of one byte each; U+00A0, of two bytes; U+1680, U+2000 to
    U+200A, U+2028, U+2029, U+202F, U+205F, U+3000 and U+FEFF, of three. *)
Definition is_space (a : ascii) : bool :=
  let n := nat_of_ascii a in ((9 <=? n) && (n <=? 13))%nat || (n =? 32)%nat.

Definition is_space2 (a b : ascii) : bool :=
  ((nat_of_ascii a =? 194) && (nat_of_ascii b =? 160))%nat.

Definition is_space3 (a b c : ascii) : bool :=
  let x := nat_of_ascii a in
  let y := nat_of_ascii b in
  let z := nat_of_ascii c in
  ((x =? 225) && (y =? 154) && (z =? 128)
   || (x =? 226) && (y =? 128)
      && ((128 <=? z) && (z <=? 138) || (z =? 168) || (z =? 169) || (z =? 175))
   || (x =? 226) && (y =? 129) && (z =? 159)
   || (x =? 227) && (y =? 128) && (z =? 128)
   || (x =? 239) && (y =? 187) && (z =? 191))%nat.

Fixpoint trim_start (s : string) : string :=
  match s with
  | String a s1 =>
      if is_space a then trim_start s1
      else
        match s1 with
        | String b s2 =>
            if is_space2 a b then trim_start s2
            else
              match s2 with
              | String c s3 => if is_space3 a b c then trim_start s3 else s
              | EmptyString => s
              end
        | EmptyString => s
        end
  | EmptyString => EmptyString
  end.

Definition string_rev (s : string) : string :=
  string_of_list_ascii (rev (list_ascii_of_string s)).

(** [trim_start] on the bytes read from the end: [s] is the string
    reversed, so a white space of several bytes shows its last byte
    first. *)
Fixpoint trim_end_rev (s : string) : string :=
  match s with
  | String c s1 =>
      if is_space c then trim_end_rev s1
      else
        match s1 with
        | String b s2 =>
            if is_space2 b c then trim_end_rev s2
            else
              match s2 with
              | String a s3 => if is_space3 a b c then trim_end_rev s3 else s
              | EmptyString => s
              end
        | EmptyString => s
        end
  | EmptyString => EmptyString
  end.

(** [String.prototype.trim]. *)
Definition trim (s : string) : string :=
  string_rev (trim_end_rev (string_rev (trim_start s))).

Definition lower_ascii (a : ascii) : ascii :=
  let n := nat_of_ascii a in
  if ((65 <=? n) && (n <=? 90))%nat then ascii_of_nat (n + 32) else a.

(** [String.prototype.toLowerCase], on the ASCII letters. The source
    lowers a chapter name only to compare it with, or to search it for,
    words in lower-case ASCII letters ([includes], [===]), and what
    [toLowerCase] makes of the other characters never adds an occurrence
    of one of these words: the tests come out the same. *)
Fixpoint toLowerCase (s : string) : string :=
  match s with
  | String a s' => String (lower_ascii a) (toLowerCase s')
  | EmptyString => EmptyString
  end.

Fixpoint includes_from (fuel : nat) (needle hay : string) : bool :=
  String.prefix needle hay ||
  match fuel, hay with
  | S fuel', String _ hay' => includes_from fuel' needle hay'
  | _, _ => false
  end.

(** [hay.includes(needle)]. *)
Definition includes (hay needle : string) : bool :=
  includes_from (String.length hay) needle hay.

Definition digit36 (d : N) : ascii :=
  if (d <? 10)%N then ascii_of_N (48 + d) else ascii_of_N (87 + d).

Fixpoint toString36_aux (fuel : nat) (n : N) (acc : string) : string :=
  match fuel with
  | O => acc
  | S fuel' =>
      let acc' := String (digit36 (n mod 36)) acc in
      if (n / 36 =? 0)%N then acc' else toString36_aux fuel' (n / 36) acc'
  end.

(** [n.toString(36)] for a non-negative integer. *)
Definition toString36 (n : N) : string := toString36_aux (S (N.size_nat n)) n "".

(** [`${n}`] for an integer. *)
Definition showZ (n : Z) : string := pretty n.

(** The double quote character, for the templates that quote a chapter. *)
Definition dq : string := String "034"%char "".

(** ** Data model *)

(** [QUESTION_TYPES]. *)
Module QUESTION_TYPES.
Definition LONG : string := "long".
Definition SHORT : string := "short".
Definition MCQ : string := "mcq".
Definition NUMERICAL : string := "numerical".
End QUESTION_TYPES.

(** A question record; [None] is an absent ([undefined]) property. *)
Record Question := mkQuestion {
  q_id : string;
  q_grade : Z;
  q_subject : string;
  q_chapter : string;
  q_type : string;
  q_source : string;
  q_tags : list string;
  q_question : string;
  q_answer : string;
  q_keywords : list string;
  q_options : option (list string);
  q_correctOption : option Z;
  q_diagram : option string;
  q_image_search_query : option string
}.

Record Player := mkPlayer { p_id : string; p_name : string }.

Inductive RoomState := waiting | in_question | showing_answer | finished.

#[global] Instance RoomState_eq_dec : EqDecision RoomState.
Proof. solve_decision. Defined.

(** [room.totalRounds]: a number, or the string ['Unlimited']. *)
Inductive Rounds := RoundsNum (n : nat) | RoundsUnlimited.

(** [room.filterParams]: the filters as the host sent them. [grade] is a
    number or absent, [subject] and [chapter] strings or absent. *)
Record FilterParams := mkFilterParams {
  f_grade : option Z;
  f_subject : option string;
  f_chapter : option string;
  f_useAi : bool
}.

Record Room := mkRoom {
  roomId : string;
  hostId : string;
  hostName : string;
  players : JsObj Player;
  questions : list Question;
  questionIndex : nat;
  totalRounds : Rounds;
  isUnlimited : bool;
  filterParams : FilterParams;
  done : gset string;
  finishTimes : gmap string Z;
  answers : gmap string JSON;
  state : RoomState;
  startTime : option Z
}.

(** Who receives an emit: one connection ([socket.emit], [io.to(socketId)])
    or everyone who joined a room ([io.to(roomId)]). *)
Inductive Target := ToSocket (socketId : string) | ToRoom (room : string).

Record Emit := mkEmit { e_to : Target; e_event : string; e_payload : JSON }.

(** ** The world outside the process *)

(** What one call of the Gemini collaborator does: it is switched off
    ([isGeminiEnabled] false), it throws or times out, or it returns
    candidates, where [None] is a candidate that is not an object. *)
Inductive GeminiOutcome :=
| GeminiDisabled
| GeminiThrows
| GeminiReturns (generated : list (option Question)).

Record World := mkWorld {
  w_now : nat -> Z;                  (* the k-th reading of Date.now() *)
  w_random : nat -> N;               (* the k-th Math.random() *)
  w_gemini : nat -> GeminiOutcome;   (* the k-th call of the collaborator *)
  w_diagram_exists : string -> bool; (* fs.existsSync of a diagram file *)
  w_toFixed2 : Z -> Z -> string;     (* (a / b).toFixed(2) *)
  w_baseUrl : option string          (* PUBLIC_URL || RENDER_EXTERNAL_URL *)
}.

(** How much of the clock, the random source and the collaborator has
    been consumed. *)
Record Cursor := mkCursor { k_clock : nat; k_rand : nat; k_ai : nat }.

Definition Gen (A : Type) : Type := Cursor -> A * Cursor.

#[global] Instance Gen_ret : MRet Gen := fun A a c => (a, c).
#[global] Instance Gen_bind : MBind Gen :=
  fun A B f m c => let (a, c') := m c in f a c'.

Section Sources.

Context (W : World).

(** [Date.now()]. *)
Definition now : Gen Z :=
  fun c => (w_now W (k_clock c), mkCursor (S (k_clock c)) (k_rand c) (k_ai c)).

(** [Math.random()]: the draw itself. A call site reads it either scaled
    and floored ([randomBelow]) or as base-36 digits ([randomSuffix]). *)
Definition random : Gen N :=
  fun c => (w_random W (k_rand c), mkCursor (k_clock c) (S (k_rand c)) (k_ai c)).

Definition gemini : Gen GeminiOutcome :=
  fun c => (w_gemini W (k_ai c), mkCursor (k_clock c) (k_rand c) (S (k_ai c))).

(** [Math.floor(Math.random() * n)]: some integer below [n]. *)
Definition randomBelow (n : nat) : Gen nat :=
  r ← random; mret (N.to_nat (r mod N.of_nat n)%N).

(** [Math.random().toString(36).slice(2, 8)]: the first digits of the
    fraction as it prints in base 36, six of them, or fewer when the print
    is shorter. The draw gives the digits one by one and ends the print
    where it gives 36, so that every line of at most six digits comes out
    of some draw. *)
Fixpoint fraction36 (n : nat) (r : N) : string :=
  match n with
  | O => ""
  | S n' =>
      let d := (r mod 37)%N in
      if (d =? 36)%N then "" else String (digit36 d) (fraction36 n' (r / 37)%N)
  end.

Definition randomSuffix (r : N) : string := fraction36 6 r.

Definition swap {A} (i j : nat) (arr : list A) : list A :=
  match arr !! i, arr !! j with
  | Some x, Some y => <[j:=x]> (<[i:=y]> arr)
  | _, _ => arr
  end.

Fixpoint shuffle_from {A} (i : nat) (arr : list A) : Gen (list A) :=
  match i with
  | O => mret arr
  | S i' => j ← randomBelow (i + 1); shuffle_from i' (swap i j arr)
  end.

Definition shuffleArray {A} (arr : list A) : Gen (list A) :=
  shuffle_from (length arr - 1) arr.

Definition randInt (min max : Z) : Gen Z :=
  r ← randomBelow (Z.to_nat (max - min + 1)); mret (Z.of_nat r + min)%Z.

Definition pickOne {A} (first : A) (rest : list A) : Gen A :=
  i ← randInt 0 (Z.of_nat (length rest)); mret (nth (Z.to_nat i) (first :: rest) first).

Definition makeId (prefix : string) : Gen string :=
  t ← now; r ← random;
  mret (prefix +:+ "-" +:+ toString36 (Z.to_N t) +:+ "-" +:+ randomSuffix r).


(** ** The synthetic template generator *)

(** A generated practice question: no diagram, no image query. *)
Definition practice (id : string) (grade : Z) (subject chapter type : string)
    (tags : list string) (question answer : string) (keywords : list string)
    (options : option (list string)) (correctOption : option Z) : Question :=
  mkQuestion id grade subject chapter type "practice" tags question answer
    keywords options correctOption None None.

Definition generateMathQuestion (grade : Z) (chapter : string) : Gen Question :=
  let lc := toLowerCase chapter in
  if includes lc "quadratic" then
    r1 ← randInt (-6) 9;
    r2 ← randInt (-6) 9;
    let r2 := if (r2 =? r1)%Z then (r2 + 1)%Z else r2 in
    let sum := (r1 + r2)%Z in
    let prod := (r1 * r2)%Z in
    let qText :=
      "Solve: x² " +:+
      (if (0 <=? sum)%Z then "- " +:+ showZ sum else "+ " +:+ showZ (Z.abs sum)) +:+
      "x " +:+
      (if (0 <=? prod)%Z then "+ " +:+ showZ prod else "- " +:+ showZ (Z.abs prod)) +:+
      " = 0" in
    id ← makeId ("live-g" +:+ showZ grade +:+ "-m-qe");
    mret (practice id grade "Mathematics" chapter QUESTION_TYPES.SHORT
            ["live"; "practice"] qText
            ("Factor: (x - " +:+ showZ r1 +:+ ") (x - " +:+ showZ r2 +:+
             ") = 0 ⇒ x = " +:+ showZ r1 +:+ " or x = " +:+ showZ r2 +:+ ".")
            ["factor"; "roots"; "x ="; "x = " +:+ showZ r1; "x = " +:+ showZ r2]
            None None)
  else if includes lc "coordinate" then
    x1 ← randInt (-6) 6;
    y1 ← randInt (-6) 6;
    dx ← randInt (-6) 6;
    dy ← randInt (-6) 6;
    let x2 := (x1 + (if (dx =? 0)%Z then 3 else dx))%Z in
    let y2 := (y1 + (if (dy =? 0)%Z then 4 else dy))%Z in
    let a := (x2 - x1)%Z in
    let b := (y2 - y1)%Z in
    id ← makeId ("live-g" +:+ showZ grade +:+ "-m-cg");
    mret (practice id grade "Mathematics" chapter QUESTION_TYPES.SHORT
            ["live"; "practice"]
            ("Find the distance between points (" +:+ showZ x1 +:+ ", " +:+
             showZ y1 +:+ ") and (" +:+ showZ x2 +:+ ", " +:+ showZ y2 +:+ ").")
            ("Distance = √[(" +:+ showZ x2 +:+ " - " +:+ showZ x1 +:+ ")² + (" +:+
             showZ y2 +:+ " - " +:+ showZ y1 +:+ ")²] = √[(" +:+ showZ a +:+
             ")² + (" +:+ showZ b +:+ ")²] = √(" +:+ showZ (a * a + b * b) +:+ ")")
            ["distance"; "√"; "(x₂-x₁)²"; "(y₂-y₁)²"]
            None None)
  else if includes lc "arithmetic progression"
          || String.eqb chapter "Arithmetic Progressions" then
    a ← randInt (-10) 15;
    d ← randInt 1 9;
    n ← randInt 8 18;
    let an := (a + (n - 1) * d)%Z in
    id ← makeId ("live-g" +:+ showZ grade +:+ "-m-ap");
    mret (practice id grade "Mathematics" chapter QUESTION_TYPES.MCQ
            ["live"; "practice"]
            ("In the AP with first term a = " +:+ showZ a +:+
             " and common difference d = " +:+ showZ d +:+ ", find the " +:+
             showZ n +:+ "th term.")
            ("aₙ = a + (n-1)d = " +:+ showZ a +:+ " + (" +:+ showZ n +:+ "-1)×" +:+
             showZ d +:+ " = " +:+ showZ an +:+ ".")
            ["AP"; "aₙ = a + (n-1)d"; "aₙ = " +:+ showZ an]
            (Some [showZ an; showZ (an + d); showZ (an - d); showZ (an + 2 * d)])
            (Some 1%Z))
  else if includes lc "number system" then
    p ← pickOne 2%Z [3; 5; 6; 7; 10]%Z;
    k ← pickOne 2%Z [3; 4; 5]%Z;
    let rad := (p * k * k)%Z in
    id ← makeId ("live-g" +:+ showZ grade +:+ "-m-ns");
    mret (practice id grade "Mathematics" chapter QUESTION_TYPES.SHORT
            ["live"; "practice"]
            ("Simplify: √" +:+ showZ rad)
            ("√" +:+ showZ rad +:+ " = √(" +:+ showZ (k * k) +:+ "×" +:+ showZ p +:+
             ") = " +:+ showZ k +:+ "√" +:+ showZ p +:+ ".")
            ["simplify"; "√" +:+ showZ rad; showZ k +:+ "√" +:+ showZ p]
            None None)
  else if includes lc "probability" then
    target ← pickOne "even" ["odd"; "prime"];
    let favorable := 3%Z in
    let answer := "P(" +:+ target +:+ ") = " +:+ showZ favorable +:+ "/6 = 1/2." in
    id ← makeId ("live-g" +:+ showZ grade +:+ "-m-prob");
    mret (practice id grade "Mathematics" chapter QUESTION_TYPES.MCQ
            ["live"; "practice"]
            ("A fair dice is thrown once. Find the probability of getting a " +:+
             target +:+ " number.")
            answer
            ["probability"; "favourable outcomes"; "sample space"; "1/2"]
            (Some ["1/6"; "1/3"; "1/2"; "2/3"])
            (Some 3%Z))
  else
    id ← makeId ("live-g" +:+ showZ grade +:+ "-m");
    mret (practice id grade "Mathematics" chapter QUESTION_TYPES.SHORT
            ["live"]
            (trim ("Write the key definition / formula used in the chapter " +:+
                   dq +:+ chapter +:+ dq +:+ " and one worked example."))
            "This is an open-ended practice prompt. Write the main definition/formula and a solved example from the chapter."
            ["definition"; "formula"; "example"]
            None None).

Definition generateScienceQuestion (grade : Z) (chapter : string) : Gen Question :=
  let ch := toLowerCase chapter in
  if String.eqb ch "motion" then
    d ← randInt 200 1200;
    t ← randInt 20 180;
    let v := w_toFixed2 W d t in
    id ← makeId ("live-g" +:+ showZ grade +:+ "-s-motion");
    mret (practice id grade "Science" chapter QUESTION_TYPES.NUMERICAL
            ["live"; "numerical"]
            ("A body covers " +:+ showZ d +:+ " m in " +:+ showZ t +:+
             " s. Find its speed in m/s.")
            ("Speed = distance/time = " +:+ showZ d +:+ "/" +:+ showZ t +:+ " = " +:+
             v +:+ " m/s.")
            ["speed"; "distance/time"; v +:+ " m/s"]
            None None)
  else if String.eqb ch "electricity" then
    v ← randInt 6 24;
    r ← randInt 2 12;
    let i := w_toFixed2 W v r in
    id ← makeId ("live-g" +:+ showZ grade +:+ "-s-elec");
    mret (practice id grade "Science" chapter QUESTION_TYPES.NUMERICAL
            ["live"; "numerical"]
            ("A resistor of " +:+ showZ r +:+ " Ω is connected across a " +:+
             showZ v +:+ " V battery. Find the current.")
            ("By Ohm's law: I = V/R = " +:+ showZ v +:+ "/" +:+ showZ r +:+ " = " +:+
             i +:+ " A.")
            ["Ohm's law"; "I = V/R"; i +:+ " A"]
            None None)
  else
    id ← makeId ("live-g" +:+ showZ grade +:+ "-s");
    mret (practice id grade "Science" chapter QUESTION_TYPES.SHORT
            ["live"]
            ("Write a concise explanation (5-7 lines) for a key concept from " +:+
             dq +:+ chapter +:+ dq +:+ ".")
            "This is an open-ended practice prompt. Answer with a short, structured explanation (definition → key points → example)."
            ["definition"; "key points"; "example"]
            None None).

Definition generateSocialScienceQuestion (grade : Z) (chapter : string)
    : Gen Question :=
  let ch := toLowerCase chapter in
  if includes ch "nationalism" || includes ch "revolution" || includes ch "world" then
    id ← makeId ("live-g" +:+ showZ grade +:+ "-ss-hist");
    mret (practice id grade "Social Science" chapter QUESTION_TYPES.SHORT
            ["live"; "history"]
            ("Describe the significance of a major event or figure from " +:+
             dq +:+ chapter +:+ dq +:+ ".")
            "This is an open-ended practice prompt. Identify a key event/figure (e.g., year, location, impact) and explain its importance in 3-4 sentences."
            ["significance"; "impact"; "date"; "event"]
            None None)
  else if includes ch "resource" || includes ch "agriculture"
          || includes ch "industry" || includes ch "india" then
    id ← makeId ("live-g" +:+ showZ grade +:+ "-ss-geo");
    mret (practice id grade "Social Science" chapter QUESTION_TYPES.SHORT
            ["live"; "geography"]
            ("Explain the geographical conditions required for a specific crop or industry discussed in " +:+
             dq +:+ chapter +:+ dq +:+ ".")
            "This is an open-ended practice prompt. Mention climate (temperature, rainfall), soil type, and major producing regions."
            ["climate"; "soil"; "region"; "temperature"; "rainfall"]
            None None)
  else if includes ch "democracy" || includes ch "power"
          || includes ch "federalism" || includes ch "party" then
    id ← makeId ("live-g" +:+ showZ grade +:+ "-ss-civ");
    mret (practice id grade "Social Science" chapter QUESTION_TYPES.MCQ
            ["live"; "civics"]
            ("Which of the following is a key feature of the political system discussed in " +:+
             dq +:+ chapter +:+ dq +:+ "?")
            "Identify the correct feature based on the chapter content (e.g., power sharing arrangement, federal provision, or democratic right)."
            ["feature"; "democracy"; "right"; "provision"]
            (Some ["Feature A"; "Feature B"; "Feature C"; "Feature D"])
            (Some 1%Z))
  else if includes ch "development" || includes ch "sector"
          || includes ch "economy" || includes ch "credit" then
    id ← makeId ("live-g" +:+ showZ grade +:+ "-ss-eco");
    mret (practice id grade "Social Science" chapter QUESTION_TYPES.SHORT
            ["live"; "economics"]
            ("Define a key economic term from " +:+ dq +:+ chapter +:+ dq +:+
             " and give an example.")
            "This is an open-ended practice prompt. Define the term (e.g., GDP, formal sector, collateral) and provide a relevant example from daily life."
            ["definition"; "example"; "economic term"]
            None None)
  else
    id ← makeId ("live-g" +:+ showZ grade +:+ "-ss");
    mret (practice id grade "Social Science" chapter QUESTION_TYPES.SHORT
            ["live"]
            ("Write a short note on a central theme of " +:+ dq +:+ chapter +:+
             dq +:+ ".")
            "This is an open-ended practice prompt. Summarize the main idea or theme of the chapter in 4-5 lines."
            ["summary"; "theme"; "key points"]
            None None).

(** ** The question bank *)

Definition ids (qs : list Question) : list string := q_id <$> qs.

(** The ids of the questions written out in [QUESTION_BANK], in order. *)
Definition QUESTION_BANK_ids : list string :=
  [ "g9-m-ns-1"; "g9-m-ns-2"; "g9-m-ns-3"; "g9-m-ns-4"; "g9-m-poly-1";
    "g9-m-poly-2"; "g9-m-poly-3"; "g9-m-poly-4"; "g9-m-cg-1"; "g9-m-cg-2";
    "g9-m-le-1"; "g9-m-le-2"; "g9-m-tri-1"; "g9-m-tri-2"; "g9-m-quad-1";
    "g9-m-quad-2"; "g9-m-circ-1"; "g9-m-circ-2"; "g9-m-heron-1";
    "g9-m-heron-2"; "g9-m-sav-1"; "g9-m-sav-2"; "g9-m-stat-1"; "g9-m-stat-2";
    "g9-s-mat-1"; "g9-s-mat-2"; "g9-s-pure-1"; "g9-s-pure-2"; "g9-s-atom-1";
    "g9-s-atom-2"; "g9-s-struct-1"; "g9-s-struct-2"; "g9-s-cell-1";
    "g9-s-cell-2"; "g9-s-tiss-1"; "g9-s-mot-1"; "g9-s-mot-2"; "g9-s-force-1";
    "g9-s-force-2"; "g9-s-grav-1"; "g9-s-work-1"; "g9-s-work-2";
    "g9-s-sound-1"; "g10-m-rn-1"; "g10-m-rn-2"; "g10-m-poly-1"; "g10-m-poly-2";
    "g10-m-ple-1"; "g10-m-ple-2"; "g10-m-qe-1"; "g10-m-qe-2"; "g10-m-ap-1";
    "g10-m-ap-2"; "g10-m-tri-1"; "g10-m-tri-2"; "g10-m-cg-1"; "g10-m-cg-2";
    "g10-m-trig-1"; "g10-m-trig-2"; "g10-m-apptrig-1"; "g10-m-circ-1";
    "g10-m-circ-2"; "g10-m-acirc-1"; "g10-m-sav-1"; "g10-m-stat-1";
    "g10-m-prob-1"; "g10-m-prob-2"; "g10-s-chem-1"; "g10-s-chem-2";
    "g10-s-abs-1"; "g10-s-abs-2"; "g10-s-lp-1"; "g10-s-cc-1"; "g10-s-he-1";
    "g10-s-light-1"; "g10-s-light-2"; "g10-s-elec-1"; "g10-s-elec-2";
    "g10-s-mag-1"; "g11-m-sets-1"; "g11-m-trig-1"; "g11-m-pc-1"; "g12-m-rf-1";
    "g12-m-diff-1"; "g12-m-int-1"; "g12-m-prob-1" ].

(** The merge of the question packs into the bank at start-up: a question
    of a pack is pushed unless its id is already there. [extra] is what
    [loadExternalQuestionPacks] kept of the files. *)
Definition merge_packs (bank extra : list Question) : list Question :=
  (fold_left
     (fun '(bank, existingIds) q =>
        if bool_decide (q_id q ∈ existingIds) then (bank, existingIds)
        else (bank ++ [q], {[q_id q]} ∪ existingIds))
     extra (bank, (list_to_set (ids bank) : gset string))).1.

(** ** The question selection policy *)

(** The bank after the merge. The statements below take it as it comes. *)
Context (QUESTION_BANK : list Question).

(** One pass of the [while] loop of [generateQuestionsFallback]. *)
Definition generateOne (g : Z) (s c : string) : Gen Question :=
  if String.eqb s "Mathematics" then generateMathQuestion g c
  else if String.eqb s "Science" then generateScienceQuestion g c
  else if String.eqb s "Social Science" then generateSocialScienceQuestion g c
  else
    id ← makeId ("live-g" +:+ showZ g);
    mret (practice id g s (if String.eqb c "" then "General" else c)
            QUESTION_TYPES.SHORT ["live"]
            ("Write a short answer practice response for: " +:+
             (if String.eqb c "" then s else c) +:+ ".")
            "This is an open-ended practice prompt."
            [] None None).

(** The loop, by the attempts that are left: [budget = count * 12 - attempts].
    It returns [out] and the exclusion set, which the source mutates. *)
Fixpoint fallback_loop (budget : nat) (g : Z) (s c : string) (count : nat)
    (out : list Question) (excludeIds : gset string)
    : Gen (list Question * gset string) :=
  match budget with
  | O => mret (out, excludeIds)
  | S budget' =>
      if decide (length out < count) then
        q ← generateOne g s c;
        if decide (q_id q ∈ excludeIds)
        then fallback_loop budget' g s c count out excludeIds
        else fallback_loop budget' g s c count (out ++ [q]) ({[q_id q]} ∪ excludeIds)
      else mret (out, excludeIds)
  end.

Definition generateQuestionsFallback (grade : Z) (subject chapter : string)
    (count : nat) (excludeIds : gset string)
    : Gen (list Question * gset string) :=
  fallback_loop (count * 12) grade subject chapter count [] excludeIds.

(** The [for] loop of [generateQuestionsAI] over the candidates. *)
Fixpoint ai_filter (generated : list (option Question))
    (out : list Question) (excludeIds : gset string)
    : list Question * gset string :=
  match generated with
  | [] => (out, excludeIds)
  | None :: rest => ai_filter rest out excludeIds
  | Some q :: rest =>
      if String.eqb (q_id q) "" || bool_decide (q_id q ∈ excludeIds)
      then ai_filter rest out excludeIds
      else ai_filter rest (out ++ [q]) ({[q_id q]} ∪ excludeIds)
  end.

Definition generateQuestionsAI (excludeIds : gset string)
    : Gen (list Question * gset string) :=
  o ← gemini;
  match o with
  | GeminiDisabled => mret ([], excludeIds)
  | GeminiThrows => mret ([], excludeIds)
  | GeminiReturns generated => mret (ai_filter generated [] excludeIds)
  end.

Definition truthy_num (o : option Z) : bool :=
  match o with Some n => negb (n =? 0)%Z | None => false end.

Definition truthy_str (o : option string) : bool :=
  match o with Some s => negb (String.eqb s "") | None => false end.

(** [x || d] on a number and on a string. *)
Definition num_or (o : option Z) (d : Z) : Z :=
  match o with Some n => if (n =? 0)%Z then d else n | None => d end.

Definition str_or (o : option string) (d : string) : string :=
  match o with Some s => if String.eqb s "" then d else s | None => d end.

(** The four optional filters of tier 2, then the exclusion filter. *)
Definition bank_filter (grade : option Z) (subject chapter questionType : option string)
    (excludeIds : gset string) : list Question :=
  let filtered := QUESTION_BANK in
  let filtered :=
    if truthy_num grade
    then filter (fun q => q_grade q = default 0%Z grade) filtered
    else filtered in
  let filtered :=
    if truthy_str subject
    then filter (fun q => q_subject q = default "" subject) filtered
    else filtered in
  let filtered :=
    if truthy_str chapter
    then filter (fun q => q_chapter q = default "" chapter) filtered
    else filtered in
  let filtered :=
    if truthy_str questionType
    then filter (fun q => q_type q = default "" questionType) filtered
    else filtered in
  filter (fun q => q_id q ∉ excludeIds) filtered.

(** [Math.max(1, parseInt(rounds, 10) || 5)]. *)
Definition requested_of (rounds : Z) : nat :=
  Z.to_nat (Z.max 1 (if (rounds =? 0)%Z then 5 else rounds)).

(** Tier 1 of [selectQuestions]: the collaborator first, when asked for. *)
Definition tier_ai (useAi : bool) (selected : list Question) (excludeIds : gset string)
    : Gen (list Question * gset string) :=
  if useAi then
    '(generated, excludeIds) ← generateQuestionsAI excludeIds;
    mret (selected ++ generated, list_to_set (ids generated) ∪ excludeIds)
  else mret (selected, excludeIds).

(** Tier 2: the static question bank, filtered, shuffled, cut. *)
Definition tier_bank (grade : option Z) (subject chapter questionType : option string)
    (requested : nat) (selected : list Question) (excludeIds : gset string)
    : Gen (list Question * gset string) :=
  if decide (length selected < requested) then
    filtered ← shuffleArray (bank_filter grade subject chapter questionType excludeIds);
    let needed := requested - length selected in
    let fromBank := take needed filtered in
    mret (selected ++ fromBank, list_to_set (ids fromBank) ∪ excludeIds)
  else mret (selected, excludeIds).

(** Tier 3: the fallback generator for what is still missing. *)
Definition tier_fallback (g : Z) (s c : string) (requested : nat)
    (selected : list Question) (excludeIds : gset string) : Gen (list Question) :=
  if decide (length selected < requested) then
    let needed := requested - length selected in
    '(fallback, _) ← generateQuestionsFallback g s c needed excludeIds;
    mret (selected ++ fallback)
  else mret selected.

(** [selectQuestions]; the result is its [questions], of which [rounds]
    and [available] are the length. The function has no parameter for an
    exclusion set: [excludeIds] is a local that starts empty. The arguments
    passed to the collaborator do not matter to the model, whose world
    answers as it likes. *)
Definition selectQuestions (grade : option Z) (subject chapter : option string)
    (rounds : Z) (questionType : option string) (useAi : bool)
    : Gen (list Question) :=
  let requested := requested_of rounds in
  let g := num_or grade 10 in
  let s := str_or subject "Mathematics" in
  let c := str_or chapter "" in
  '(selected, excludeIds) ← tier_ai useAi [] ∅;
  '(selected, excludeIds) ←
    tier_bank grade subject chapter questionType requested selected excludeIds;
  tier_fallback g s c requested selected excludeIds.

(** ** Public views and payloads *)

Definition safe_char (a : ascii) : bool :=
  let n := nat_of_ascii a in
  ((48 <=? n) && (n <=? 57))%nat || ((65 <=? n) && (n <=? 90))%nat
  || ((97 <=? n) && (n <=? 122))%nat || (n =? 95)%nat || (n =? 45)%nat.

Definition getDiagramUrl (diagramId : option string) : JSON :=
  match diagramId with
  | None => JNull
  | Some d =>
      if String.eqb d "" then JNull else
      let safe := string_of_list_ascii (List.filter safe_char (list_ascii_of_string d)) in
      if String.eqb safe "" then JNull
      else if w_diagram_exists W safe then JStr ("/diagrams/" +:+ safe +:+ ".svg")
      else JNull
  end.

Definition trusted (name : string) (url : option string) (icon : string) : JSON :=
  JObj [("name", JStr name); ("url", json_str_or_null url); ("icon", JStr icon)].

Definition TRUSTED_SOURCES : JsObj JSON :=
  [ ("practice", trusted "Practice" None "🧩");
    ("ai", trusted "AI (Gemini)" (Some "https://ai.google.dev") "🤖");
    ("ncert", trusted "NCERT" (Some "https://ncert.nic.in") "📚");
    ("vedantu", trusted "Vedantu" (Some "https://vedantu.com") "🎓");
    ("byjus", trusted "Byjus" (Some "https://byjus.com") "📖");
    ("pw", trusted "Physics Wallah" (Some "https://physicswallah.live") "⚡");
    ("exemplar", trusted "NCERT Exemplar" (Some "https://ncert.nic.in/exemplar.php") "⭐");
    ("rdSharma", trusted "RD Sharma" (Some "#") "📐");
    ("rsAggarwal", trusted "RS Aggarwal" (Some "#") "📊");
    ("pyq", trusted "CBSE PYQ" (Some "https://cbse.gov.in") "📝");
    ("hots", trusted "HOTS" (Some "#") "🧠") ].

(** [TRUSTED_SOURCES[q.source] || { name: q.source }]. *)
Definition source_view (q : Question) : JSON :=
  match obj_get (q_source q) TRUSTED_SOURCES with
  | Some t => t
  | None => JObj [("name", JStr (q_source q))]
  end.

Definition json_options (q : Question) : JSON :=
  match q_options q with Some l => json_strs l | None => JUndefined end.

Definition json_correctOption (q : Question) : JSON :=
  match q_correctOption q with Some n => JNum n | None => JUndefined end.

(** [q.image_search_query || null]. *)
Definition json_imageSearchQuery (q : Question) : JSON :=
  match q_image_search_query q with
  | Some s => if String.eqb s "" then JNull else JStr s
  | None => JNull
  end.

Definition json_rounds (t : Rounds) : JSON :=
  match t with RoundsNum n => JNum (Z.of_nat n) | RoundsUnlimited => JStr "Unlimited" end.

Definition json_state (s : RoomState) : JSON :=
  JStr match s with
       | waiting => "waiting"
       | in_question => "in_question"
       | showing_answer => "showing_answer"
       | finished => "finished"
       end.

Definition json_player (p : Player) : JSON :=
  JObj [("id", JStr (p_id p)); ("name", JStr (p_name p))].

(** [Object.values(room.players)]. *)
Definition json_players (room : Room) : JSON :=
  JArr (map json_player (obj_values (players room))).

Definition json_time (o : option Z) : JSON :=
  match o with Some t => JNum t | None => JNull end.

(** The payload of [questionStarted], sent by [startGame] and [hostNext]. *)
Definition questionStarted_payload (room : Room) (q : Question) : JSON :=
  JObj [ ("questionIndex", JNum (Z.of_nat (questionIndex room) + 1));
         ("totalRounds", json_rounds (totalRounds room));
         ("question", JStr (q_question q));
         ("type", JStr (q_type q));
         ("options", json_options q);
         ("diagramUrl", getDiagramUrl (q_diagram q));
         ("imageSearchQuery", json_imageSearchQuery q);
         ("source", source_view q);
         ("startTime", json_time (startTime room)) ].

(** [getPublicRoomState]. The question under the cursor is read only while
    a round is open; reading it when there is none raises. *)
Definition getPublicRoomState (room : Room) : option JSON :=
  let q := questions room !! questionIndex room in
  currentQuestion ←
    (if bool_decide (state room = in_question) || bool_decide (state room = showing_answer)
     then q ← q;
          Some (JObj [ ("question", JStr (q_question q));
                       ("type", JStr (q_type q));
                       ("options", json_options q);
                       ("diagramUrl", getDiagramUrl (q_diagram q));
                       ("imageSearchQuery", json_imageSearchQuery q);
                       ("source", source_view q) ])
     else Some JNull);
  Some (JObj [ ("questionIndex", JNum (Z.of_nat (questionIndex room)));
               ("totalRounds", json_rounds (totalRounds room));
               ("state", json_state (state room));
               ("players", json_players room);
               ("currentQuestion", currentQuestion) ]).

(** [answer === q.correctOption] for a stored (so defined) answer. *)
Definition strict_eq_option (answer : JSON) (correctOption : option Z) : bool :=
  match answer, correctOption with
  | JNum a, Some c => (a =? c)%Z
  | _, _ => false
  end.

(** [o[name] = v] on an object written [{}], as [playerDone] fills [times]
    and [playerAnswers] under the names of the players. The name
    [__proto__] is the accessor of [Object.prototype]: assigning to it adds
    no entry; assigning [null] takes the prototype of the object away, and
    from then on [__proto__] is a name like any other. The flag tells
    whether the object still has its prototype. *)
Definition obj_assign (name : string) (v : JSON) (st : JsObj JSON * bool)
    : JsObj JSON * bool :=
  if String.eqb name "__proto__" && st.2
  then (st.1, match v with JNull => false | _ => true end)
  else (obj_set name v st.1, st.2).

(** [times] of [playerDone]: [finishTimes[id] || null] under the player's
    name, in the order of [Object.entries(room.players)]. *)
Definition times_of (room : Room) : JsObj JSON :=
  (fold_left
     (fun times '(id, player) =>
        obj_assign (p_name player)
          (match finishTimes room !! id with
           | Some t => if (t =? 0)%Z then JNull else JNum t
           | None => JNull
           end) times)
     (players room) ([], true)).1.

Definition playerAnswers_of (room : Room) (q : Question) : JsObj JSON :=
  (fold_left
     (fun playerAnswers '(id, player) =>
        match answers room !! id with
        | Some a =>
            obj_assign (p_name player)
              (JObj [ ("answer", a);
                      ("correct",
                       if String.eqb (q_type q) QUESTION_TYPES.MCQ
                       then JBool (strict_eq_option a (q_correctOption q))
                       else JNull) ]) playerAnswers
        | None => playerAnswers
        end)
     (players room) ([], true)).1.

(** The payload of [showAnswer]. *)
Definition showAnswer_payload (room : Room) (q : Question)
    (times playerAnswers : JsObj JSON) : JSON :=
  JObj [ ("questionIndex", JNum (Z.of_nat (questionIndex room) + 1));
         ("totalRounds", json_rounds (totalRounds room));
         ("question", JStr (q_question q));
         ("type", JStr (q_type q));
         ("options", json_options q);
         ("correctOption", json_correctOption q);
         ("answer", JStr (q_answer q));
         ("keywords", json_strs (q_keywords q));
         ("diagramUrl", getDiagramUrl (q_diagram q));
         ("imageSearchQuery", json_imageSearchQuery q);
         ("source", source_view q);
         ("finishTimes", JObj times);
         ("playerAnswers", JObj playerAnswers) ].

(** ** The registry and the handlers *)

(** [rooms], with what the handlers have consumed of the world. *)
Record Server := mkServer { rooms : gmap string Room; cursor : Cursor }.

(** A handler run to completion: the registry after it and what it sent,
    or [None] when it raises. *)
Definition Handler : Type := Server -> option (Server * list Emit).

Definition set_players (ps : JsObj Player) (r : Room) : Room :=
  mkRoom (roomId r) (hostId r) (hostName r) ps (questions r) (questionIndex r)
    (totalRounds r) (isUnlimited r) (filterParams r) (done r) (finishTimes r)
    (answers r) (state r) (startTime r).

Definition set_questions (qs : list Question) (r : Room) : Room :=
  mkRoom (roomId r) (hostId r) (hostName r) (players r) qs (questionIndex r)
    (totalRounds r) (isUnlimited r) (filterParams r) (done r) (finishTimes r)
    (answers r) (state r) (startTime r).

Definition set_questionIndex (i : nat) (r : Room) : Room :=
  mkRoom (roomId r) (hostId r) (hostName r) (players r) (questions r) i
    (totalRounds r) (isUnlimited r) (filterParams r) (done r) (finishTimes r)
    (answers r) (state r) (startTime r).

Definition set_state (s : RoomState) (r : Room) : Room :=
  mkRoom (roomId r) (hostId r) (hostName r) (players r) (questions r)
    (questionIndex r) (totalRounds r) (isUnlimited r) (filterParams r) (done r)
    (finishTimes r) (answers r) s (startTime r).

Definition set_tracking (d : gset string) (ft : gmap string Z)
    (ans : gmap string JSON) (r : Room) : Room :=
  mkRoom (roomId r) (hostId r) (hostName r) (players r) (questions r)
    (questionIndex r) (totalRounds r) (isUnlimited r) (filterParams r) d ft ans
    (state r) (startTime r).

Definition set_startTime (t : Z) (r : Room) : Room :=
  mkRoom (roomId r) (hostId r) (hostName r) (players r) (questions r)
    (questionIndex r) (totalRounds r) (isUnlimited r) (filterParams r) (done r)
    (finishTimes r) (answers r) (state r) (Some t).

(** The reset that opens a round in [startGame] and [hostNext]:
    [state = 'in_question'], empty [done], [finishTimes] and [answers],
    [startTime = Date.now()]. *)
Definition open_round (t : Z) (r : Room) : Room :=
  set_startTime t (set_tracking ∅ ∅ ∅ (set_state in_question r)).

Definition ROOM_ID_CHARS : string := "ABCDEFGHJKMNPQRSTUVWXYZ23456789".

Fixpoint createRoomId_from (n : nat) : Gen string :=
  match n with
  | O => mret ""
  | S n' =>
      i ← randomBelow (String.length ROOM_ID_CHARS);
      rest ← createRoomId_from n';
      mret (String (default "A"%char (String.get i ROOM_ID_CHARS)) rest)
  end.

Definition createRoomId : Gen string := createRoomId_from 5.

(** The payload of [createRoom]; [totalRounds] is what [parseInt] made of
    the field, [None] for [NaN]. *)
Record CreateRoomReq := mkCreateRoomReq {
  c_hostName : option string;
  c_totalRounds : option Z;
  c_grade : option Z;
  c_subject : option string;
  c_chapter : option string;
  c_useAi : bool;
  c_playAsHost : bool
}.

(** [name?.trim() || d]. *)
Definition trimmed_or (name : option string) (d : string) : string :=
  match name with
  | Some n => if String.eqb (trim n) "" then d else trim n
  | None => d
  end.

Definition joinUrl_of (roomId : string) : JSON :=
  match w_baseUrl W with
  | Some baseUrl =>
      if String.eqb baseUrl "" then JNull else JStr (baseUrl +:+ "/join/" +:+ roomId)
  | None => JNull
  end.

Definition createRoom (sock : string) (req : CreateRoomReq) : Handler := fun sv =>
  let '(roomId, k) := createRoomId (cursor sv) in
  let requestedRounds := num_or (c_totalRounds req) 5 in
  let isUnlimited := (requestedRounds =? -1)%Z in
  let requestedRounds := if isUnlimited then 5%Z else requestedRounds in
  let '(questions, k) :=
    selectQuestions (c_grade req) (c_subject req) (c_chapter req)
      requestedRounds None (c_useAi req) k in
  let rounds := length questions in
  if bool_decide (questions = []) then
    Some (mkServer (rooms sv) k,
          [mkEmit (ToSocket sock) "errorMessage"
             (JStr "No questions found for selected filters.")])
  else
    let room :=
      mkRoom roomId sock (trimmed_or (c_hostName req) "Host") [] questions 0
        (if isUnlimited then RoundsUnlimited else RoundsNum rounds) isUnlimited
        (mkFilterParams (c_grade req) (c_subject req) (c_chapter req) (c_useAi req))
        ∅ ∅ ∅ waiting None in
    let room :=
      if c_playAsHost req
      then set_players
             (obj_set sock
                (mkPlayer sock (trimmed_or (c_hostName req) "Host" +:+ " (Host)"))
                (players room)) room
      else room in
    Some (mkServer (<[roomId := room]> (rooms sv)) k,
          [mkEmit (ToSocket sock) "roomCreated"
             (JObj [ ("roomId", JStr roomId);
                     ("joinUrl", joinUrl_of roomId);
                     ("totalRounds", JNum (Z.of_nat rounds));
                     ("hostName", JStr (hostName room)) ])]).

Definition playerListUpdate (room : Room) : Emit :=
  mkEmit (ToSocket (hostId room)) "playerListUpdate"
    (JObj [("players", json_players room)]).

(** [joinRoom], for a room id that is not [inherited] or has a room under
    it. (For an [inherited] id without a room the source passes both
    guards and raises at [room.players[socket.id] = ...], having sent
    nothing.) *)
Definition joinRoom (sock roomId : string) (name : option string) : Handler := fun sv =>
  match rooms sv !! roomId with
  | None => Some (sv, [mkEmit (ToSocket sock) "errorMessage" (JStr "Room not found.")])
  | Some room =>
      if String.eqb (hostId room) sock
      then Some (sv, [mkEmit (ToSocket sock) "errorMessage" (JStr "You are the host.")])
      else
        let playerName := trimmed_or name "Player" in
        let room := set_players (obj_set sock (mkPlayer sock playerName) (players room)) room in
        view ← getPublicRoomState room;
        Some (mkServer (<[roomId := room]> (rooms sv)) (cursor sv),
              [ playerListUpdate room;
                mkEmit (ToSocket sock) "joinedRoom"
                  (JObj [ ("roomId", JStr roomId);
                          ("playerName", JStr playerName);
                          ("state", view) ]) ])
  end.

Definition startGame (sock roomId : string) : Handler := fun sv =>
  match rooms sv !! roomId with
  | None => Some (sv, [])
  | Some room =>
      if negb (String.eqb (hostId room) sock) then Some (sv, []) else
      let '(t, k) := now (cursor sv) in
      let room := open_round t (set_questionIndex 0 room) in
      q ← questions room !! questionIndex room;
      Some (mkServer (<[roomId := room]> (rooms sv)) k,
            [mkEmit (ToRoom roomId) "questionStarted" (questionStarted_payload room q)])
  end.

Definition playerDone (sock roomId : string) (answer : JSON) : Handler := fun sv =>
  match rooms sv !! roomId with
  | None => Some (sv, [])
  | Some room =>
      if negb (bool_decide (state room = in_question))
         || negb (bool_decide (is_Some (obj_get sock (players room))))
      then Some (sv, []) else
      if bool_decide (sock ∈ done room) then Some (sv, []) else
      let '(t, k) := now (cursor sv) in
      let room :=
        set_tracking ({[sock]} ∪ done room)
          (<[sock := (t - default 0 (startTime room))%Z]> (finishTimes room))
          (if bool_decide (answer = JUndefined) then answers room
           else <[sock := answer]> (answers room))
          room in
      (* all players done? *)
      if decide (length (obj_keys (players room)) <= size (done room)) then
        q ← questions room !! questionIndex room;
        let room := set_state showing_answer room in
        Some (mkServer (<[roomId := room]> (rooms sv)) k,
              [mkEmit (ToRoom roomId) "showAnswer"
                 (showAnswer_payload room q (times_of room) (playerAnswers_of room q))])
      else Some (mkServer (<[roomId := room]> (rooms sv)) k, [])
  end.

(** Solo mode: with no players the host reveals the answer. *)
Definition hostRevealAnswer (sock roomId : string) : Handler := fun sv =>
  match rooms sv !! roomId with
  | None => Some (sv, [])
  | Some room =>
      if negb (String.eqb (hostId room) sock)
         || negb (bool_decide (state room = in_question))
      then Some (sv, []) else
      if decide (0 < length (obj_keys (players room))) then Some (sv, []) else
      q ← questions room !! questionIndex room;
      let room := set_state showing_answer room in
      Some (mkServer (<[roomId := room]> (rooms sv)) (cursor sv),
            [mkEmit (ToRoom roomId) "showAnswer" (showAnswer_payload room q [] [])])
  end.

(** [room.questionIndex >= room.totalRounds]; against ['Unlimited'] the
    comparison is false. *)
Definition reached (i : nat) (t : Rounds) : bool :=
  match t with RoundsNum n => bool_decide (n <= i) | RoundsUnlimited => false end.

(** The [for] loop of [hostNext] that appends the fetched questions whose
    id is not in [existingIds], the ids of the queue before the loop. *)
Definition append_new (existingIds : gset string) (queue newQuestions : list Question)
    : list Question :=
  fold_left
    (fun queue nq => if bool_decide (q_id nq ∈ existingIds) then queue else queue ++ [nq])
    newQuestions queue.

Definition gameOver (roomId : string) (total : JSON) : Emit :=
  mkEmit (ToRoom roomId) "gameOver" (JObj [("totalRounds", total)]).

(** [hostNext], with no event taken while it waits for [selectQuestions]
    (its two parts follow). *)
Definition hostNext (sock roomId : string) : Handler := fun sv =>
  match rooms sv !! roomId with
  | None => Some (sv, [])
  | Some room =>
      if negb (String.eqb (hostId room) sock)
         || negb (bool_decide (state room = showing_answer))
      then Some (sv, []) else
      let room := set_questionIndex (questionIndex room + 1) room in
      (* a fixed target that is reached ends the game *)
      if negb (isUnlimited room) && reached (questionIndex room) (totalRounds room) then
        let room := set_state finished room in
        Some (mkServer (<[roomId := room]> (rooms sv)) (cursor sv),
              [gameOver roomId (json_rounds (totalRounds room))])
      else
        (* unlimited: near the end of the buffer, fetch five more *)
        let '(room, k, exhausted) :=
          if isUnlimited room
             && bool_decide (length (questions room) <= questionIndex room + 2)
          then
            let p := filterParams room in
            let '(newQuestions, k) :=
              selectQuestions (f_grade p) (f_subject p) (f_chapter p) 5 None
                (f_useAi p) (cursor sv) in
            let existingIds : gset string := list_to_set (ids (questions room)) in
            let room :=
              set_questions (append_new existingIds (questions room) newQuestions) room in
            (room, k, bool_decide (length (questions room) <= questionIndex room))
          else (room, cursor sv, false) in
        if exhausted then
          let room := set_state finished room in
          Some (mkServer (<[roomId := room]> (rooms sv)) k,
                [gameOver roomId (JNum (Z.of_nat (questionIndex room)))])
        else
          let '(t, k) := now k in
          let room := open_round t room in
          q ← questions room !! questionIndex room;
          Some (mkServer (<[roomId := room]> (rooms sv)) k,
                [mkEmit (ToRoom roomId) "questionStarted" (questionStarted_payload room q)])
  end.

(** [hostNext] is an [async] handler: where it fetches, it stops at
    [await selectQuestions(...)] and goes on when the answer is there, on
    the room object as the events taken meanwhile have left it. *)

(** The argument of a call of [selectQuestions]. *)
Record SelectArgs := mkSelectArgs {
  s_grade : option Z;
  s_subject : option string;
  s_chapter : option string;
  s_rounds : Z;
  s_questionType : option string;
  s_useAi : bool
}.


(** How far the first part gets: the handler has returned, or it waits for
    the answer to a call of [selectQuestions]. *)
Inductive Begun :=
| Returned (sv : Server) (out : list Emit)
| Awaiting (sv : Server) (call : SelectArgs).

(** The handler up to its [await]: the guard, the cursor moved, the end
    of a game with a target, and the next question when nothing is to be
    fetched. *)
Definition hostNext_begin (sock roomId : string) (sv : Server) : option Begun :=
  match rooms sv !! roomId with
  | None => Some (Returned sv [])
  | Some room =>
      if negb (String.eqb (hostId room) sock)
         || negb (bool_decide (state room = showing_answer))
      then Some (Returned sv []) else
      let room := set_questionIndex (questionIndex room + 1) room in
      if negb (isUnlimited room) && reached (questionIndex room) (totalRounds room) then
        let room := set_state finished room in
        Some (Returned (mkServer (<[roomId := room]> (rooms sv)) (cursor sv))
                [gameOver roomId (json_rounds (totalRounds room))])
      else if isUnlimited room
              && bool_decide (length (questions room) <= questionIndex room + 2)
      then
        let p := filterParams room in
        Some (Awaiting (mkServer (<[roomId := room]> (rooms sv)) (cursor sv))
                (mkSelectArgs (f_grade p) (f_subject p) (f_chapter p) 5 None (f_useAi p)))
      else
        let '(t, k) := now (cursor sv) in
        let room := open_round t room in
        q ← questions room !! questionIndex room;
        Some (Returned (mkServer (<[roomId := room]> (rooms sv)) k)
                [mkEmit (ToRoom roomId) "questionStarted" (questionStarted_payload room q)])
  end.

(** The handler from its [await] on, with the answer [newQuestions], on
    the room object [room] as it is by then: the room it leaves, the clock
    read and what it broadcasts to [roomId]. *)
Definition hostNext_resume (roomId : string) (newQuestions : list Question)
    (room : Room) (k : Cursor) : option (Room * Cursor * list Emit) :=
  let existingIds : gset string := list_to_set (ids (questions room)) in
  let room := set_questions (append_new existingIds (questions room) newQuestions) room in
  if bool_decide (length (questions room) <= questionIndex room) then
    let room := set_state finished room in
    Some (room, k, [gameOver roomId (JNum (Z.of_nat (questionIndex room)))])
  else
    let '(t, k) := now k in
    let room := open_round t room in
    q ← questions room !! questionIndex room;
    Some (room, k,
          [mkEmit (ToRoom roomId) "questionStarted" (questionStarted_payload room q)]).


(** What [disconnect] does to one room of the registry: the room that is
    left ([None] when it is deleted) and what is sent. *)
Definition disconnect_room (sock : string) (roomId : string) (room : Room)
    : option Room * list Emit :=
  if String.eqb (hostId room) sock then
    (None, [mkEmit (ToRoom roomId) "errorMessage" (JStr "Host disconnected.")])
  else if bool_decide (is_Some (obj_get sock (players room))) then
    let room :=
      set_tracking (done room ∖ {[sock]}) (delete sock (finishTimes room))
        (delete sock (answers room))
        (set_players (obj_delete sock (players room)) room) in
    (Some room, if String.eqb (hostId room) "" then [] else [playerListUpdate room])
  else (Some room, []).

(** [disconnect] visits every room; the order in which the rooms are
    visited, so the order of what is sent to different rooms, is that of
    the map. *)
Definition disconnect (sock : string) : Handler := fun sv =>
  Some (mkServer (omap (fun room => fst (disconnect_room sock (roomId room) room)) (rooms sv))
          (cursor sv),
        flat_map (fun '(roomId, room) => snd (disconnect_room sock roomId room))
          (map_to_list (rooms sv))).

(** ** Events *)

Inductive Event :=
| CreateRoom (req : CreateRoomReq)
| JoinRoom (roomId : string) (name : option string)
| StartGame (roomId : string)
| PlayerDone (roomId : string) (answer : JSON)
| HostRevealAnswer (roomId : string)
| HostNext (roomId : string)
| Disconnect.

(** The event [ev] arriving on the connection [sock]. *)
Definition handle (sock : string) (ev : Event) : Handler :=
  match ev with
  | CreateRoom req => createRoom sock req
  | JoinRoom roomId name => joinRoom sock roomId name
  | StartGame roomId => startGame sock roomId
  | PlayerDone roomId answer => playerDone sock roomId answer
  | HostRevealAnswer roomId => hostRevealAnswer sock roomId
  | HostNext roomId => hostNext sock roomId
  | Disconnect => disconnect sock
  end.

(** A run: the events in order, the emits accumulated oldest first. *)
Fixpoint run (evs : list (string * Event)) (sv : Server) : option (Server * list Emit) :=
  match evs with
  | [] => Some (sv, [])
  | (sock, ev) :: evs' =>
      '(sv', out) ← handle sock ev sv;
      '(sv'', out') ← run evs' sv';
      Some (sv'', out ++ out')
  end.

Definition init : Server := mkServer ∅ (mkCursor 0 0 0).

End Sources.

(** * Start-up: the environment, the allowed origins, the catalog *)

(** ** Splitting and slicing *)

(** [s.split(sep)] for a separator of one character. *)
Fixpoint split_go (sep : ascii) (cur : list ascii) (s : string) : list string :=
  match s with
  | EmptyString => [string_of_list_ascii (rev cur)]
  | String a s' =>
      if Ascii.eqb a sep then string_of_list_ascii (rev cur) :: split_go sep [] s'
      else split_go sep (a :: cur) s'
  end.

Definition split_on (sep : ascii) (s : string) : list string := split_go sep [] s.

(** [raw.split(/\r?\n/)]: the pieces between line feeds, each piece that a
    line feed ends without the carriage return before it, if there is one.
    [cur] is the piece read so far, last character first. *)
Fixpoint split_lines_go (cur : list ascii) (s : string) : list string :=
  match s with
  | EmptyString => [string_of_list_ascii (rev cur)]
  | String a s' =>
      if Ascii.eqb a "010"%char then
        string_of_list_ascii
          (rev match cur with
               | c :: cur' => if Ascii.eqb c "013"%char then cur' else cur
               | [] => cur
               end)
        :: split_lines_go [] s'
      else split_lines_go (a :: cur) s'
  end.

Definition split_lines (raw : string) : list string := split_lines_go [] raw.

(** [s.indexOf(c)], [None] for -1. *)
Fixpoint indexOf (c : ascii) (s : string) : option nat :=
  match s with
  | EmptyString => None
  | String a s' => if Ascii.eqb a c then Some 0 else S <$> indexOf c s'
  end.

(** [s.slice(0, n)] and [s.slice(n)] for [0 <= n]. *)
Fixpoint slice_to (n : nat) (s : string) : string :=
  match n, s with
  | S n', String a s' => String a (slice_to n' s')
  | _, _ => EmptyString
  end.

Fixpoint slice_from (n : nat) (s : string) : string :=
  match n, s with
  | S n', String _ s' => slice_from n' s'
  | _, _ => s
  end.

Definition first_char (s : string) : option ascii :=
  match s with String a _ => Some a | EmptyString => None end.

Definition last_char (s : string) : option ascii :=
  last (list_ascii_of_string s).

(** [s.startsWith(c) && s.endsWith(c)] for a character [c]. *)
Definition wrapped_in (c : ascii) (s : string) : bool :=
  bool_decide (first_char s = Some c) && bool_decide (last_char s = Some c).

(** [s.slice(1, -1)]. *)
Definition slice_inner (s : string) : string :=
  match list_ascii_of_string s with
  | _ :: rest => string_of_list_ascii (removelast rest)
  | [] => EmptyString
  end.

(** ** [loadDotEnv] *)

(** What one line of [.env] assigns, if it assigns anything: the body of
    the [forEach] of [loadDotEnv] up to the assignment. *)
Definition parse_env_line (line : string) : option (string * string) :=
  let trimmed := trim line in
  if String.eqb trimmed "" || bool_decide (first_char trimmed = Some "#"%char) then None
  else
    match indexOf "="%char trimmed with
    | None => None
    | Some eq =>
        let key := trim (slice_to eq trimmed) in
        let value := trim (slice_from (eq + 1) trimmed) in
        if String.eqb key "" then None
        else
          let value :=
            if wrapped_in "034"%char value || wrapped_in "039"%char value
            then slice_inner value else value in
          Some (key, value)
    end.

(** [loadDotEnv], on [process.env] as a map. [file] is the text of [.env],
    [None] when there is no such file or it cannot be read: then nothing is
    set. A key is assigned when [process.env[key] === undefined]: when it
    is not set and is not [inherited]. *)
Definition loadDotEnv (file : option string) (env : gmap string string)
    : gmap string string :=
  match file with
  | None => env
  | Some raw =>
      fold_left
        (fun env line =>
           match parse_env_line line with
           | Some (key, value) =>
               match env !! key with
               | None => if inherited key then env else <[key := value]> env
               | Some _ => env
               end
           | None => env
           end)
        (split_lines raw) env
  end.

(** ** [parseAllowedOrigins] *)

(** [set.add(x)] on a [Set] read in insertion order. *)
Definition set_add (x : string) (allowed : list string) : list string :=
  if bool_decide (x ∈ allowed) then allowed else allowed ++ [x].

(** [if (process.env.NAME) allowed.add(process.env.NAME)]. *)
Definition add_env (env : gmap string string) (name : string) (allowed : list string)
    : list string :=
  match env !! name with
  | Some v => if String.eqb v "" then allowed else set_add v allowed
  | None => allowed
  end.

Definition parseAllowedOrigins (env : gmap string string) : list string :=
  let allowed := [] in
  let allowed := add_env env "PUBLIC_URL" allowed in
  let allowed := add_env env "RENDER_EXTERNAL_URL" allowed in
  match env !! "ALLOWED_ORIGINS" with
  | Some v =>
      if String.eqb v "" then allowed
      else
        fold_left
          (fun allowed v =>
             let trimmed := trim v in
             if String.eqb trimmed "" then allowed else set_add trimmed allowed)
          (split_on ","%char v) allowed
  | None => allowed
  end.

(** ** The curriculum map and [getQuestionCatalog] *)











(** * Observations on runs *)

(** Is the emit a broadcast to the room [rid]? *)
Definition is_to_room (rid : string) (e : Emit) : bool :=
  match e_to e with
  | ToRoom r => String.eqb r rid
  | ToSocket _ => false
  end.

(** The broadcasts to the room [rid], oldest first. *)
Definition to_room (rid : string) (out : list Emit) : list Emit :=
  List.filter (is_to_room rid) out.

Definition is_event (rid name : string) (e : Emit) : bool :=
  is_to_room rid e && String.eqb (e_event e) name.

(** How many times was [name] broadcast to the room [rid]? *)
Definition count_event (rid name : string) (out : list Emit) : nat :=
  length (List.filter (is_event rid name) out).

(** The payloads of the broadcasts [name] to the room [rid]. *)
Definition payloads (rid name : string) (out : list Emit) : list JSON :=
  map e_payload (List.filter (is_event rid name) out).

(** How many [showAnswer] were broadcast to [rid] in its current round,
    that is since the last [questionStarted] broadcast to [rid]: the count
    [n] so far, after one more emit. *)
Definition round_step (rid : string) (n : nat) (e : Emit) : nat :=
  if is_event rid "questionStarted" e then 0
  else if is_event rid "showAnswer" e then S n
  else n.

Definition reveals_in_round (rid : string) (out : list Emit) : nat :=
  fold_left (round_step rid) out 0.

(** Does the emit open a game of the room [rid]: a [questionStarted] for
    its first question, which is what [startGame] broadcasts? *)
Definition is_start (rid : string) (e : Emit) : bool :=
  is_event rid "questionStarted" e &&
  match e_payload e with
  | JObj fields => bool_decide (obj_get "questionIndex" fields = Some (JNum 1))
  | _ => false
  end.

(** The tally of a game of the room [rid]: how many [questionStarted] were
    broadcast to it since its game was started, the opening one included,
    and the payloads of the [gameOver] broadcast since. *)
Definition tally_step (rid : string) (acc : nat * list JSON) (e : Emit)
    : nat * list JSON :=
  if is_start rid e then (1, [])
  else if is_event rid "questionStarted" e then (S acc.1, acc.2)
  else if is_event rid "gameOver" e then (acc.1, acc.2 ++ [e_payload e])
  else acc.

Definition game_tally (rid : string) (out : list Emit) : nat * list JSON :=
  fold_left (tally_step rid) out (0, []).

Section Effects.

Context (W : World).

(** What [playerDone] records for the connection [sock] at time [t]. *)
Definition recorded (sock : string) (t : Z) (answer : JSON) (r : Room) : Room :=
  set_tracking ({[sock]} ∪ done r)
    (<[sock := (t - default 0 (startTime r))%Z]> (finishTimes r))
    (if bool_decide (answer = JUndefined) then answers r
     else <[sock := answer]> (answers r))
    r.

(** What [disconnect] leaves of a room a player has left. *)
Definition without_player (sock : string) (r : Room) : Room :=
  set_tracking (done r ∖ {[sock]}) (delete sock (finishTimes r))
    (delete sock (answers r))
    (set_players (obj_delete sock (players r)) r).

(** The effect of one event, arriving on [sock], on what the registry
    holds under [rid], with the broadcasts to [rid]. *)
Inductive Effect (sock rid : string)
    : Event → option Room → option Room → list Emit → Prop :=
| Eff_none ev o :
    Effect sock rid ev o o []
| Eff_create req o r :
    hostId r = sock → state r = waiting → questionIndex r = 0 → done r = ∅ →
    questions r ≠ [] →
    totalRounds r =
      (if isUnlimited r then RoundsUnlimited else RoundsNum (length (questions r))) →
    (∀ c, is_Some (obj_get c (players r)) → c = sock) →
    Effect sock rid (CreateRoom req) o (Some r) []
| Eff_join name r p :
    hostId r ≠ sock →
    Effect sock rid (JoinRoom rid name) (Some r)
      (Some (set_players (obj_set sock p (players r)) r)) []
| Eff_start r t q :
    hostId r = sock →
    questions r !! 0 = Some q →
    Effect sock rid (StartGame rid) (Some r) (Some (open_round t (set_questionIndex 0 r)))
      [mkEmit (ToRoom rid) "questionStarted"
         (questionStarted_payload W (open_round t (set_questionIndex 0 r)) q)]
| Eff_done r t answer :
    state r = in_question → is_Some (obj_get sock (players r)) → sock ∉ done r →
    ¬ (length (obj_keys (players r)) <= size ({[sock]} ∪ done r))%nat →
    Effect sock rid (PlayerDone rid answer) (Some r) (Some (recorded sock t answer r)) []
| Eff_done_reveal r t answer q :
    state r = in_question → is_Some (obj_get sock (players r)) → sock ∉ done r →
    (length (obj_keys (players r)) <= size ({[sock]} ∪ done r))%nat →
    questions r !! questionIndex r = Some q →
    Effect sock rid (PlayerDone rid answer) (Some r)
      (Some (set_state showing_answer (recorded sock t answer r)))
      [mkEmit (ToRoom rid) "showAnswer"
         (showAnswer_payload W (set_state showing_answer (recorded sock t answer r)) q
            (times_of (set_state showing_answer (recorded sock t answer r)))
            (playerAnswers_of (set_state showing_answer (recorded sock t answer r)) q))]
| Eff_reveal r q :
    hostId r = sock → state r = in_question → players r = [] →
    questions r !! questionIndex r = Some q →
    Effect sock rid (HostRevealAnswer rid) (Some r) (Some (set_state showing_answer r))
      [mkEmit (ToRoom rid) "showAnswer"
         (showAnswer_payload W (set_state showing_answer r) q [] [])]
| Eff_next_over r :
    hostId r = sock → state r = showing_answer →
    isUnlimited r = false → reached (questionIndex r + 1) (totalRounds r) = true →
    Effect sock rid (HostNext rid) (Some r)
      (Some (set_state finished (set_questionIndex (questionIndex r + 1) r)))
      [gameOver rid (json_rounds (totalRounds r))]
| Eff_next_exhausted r newQuestions :
    hostId r = sock → state r = showing_answer → isUnlimited r = true →
    (length (questions r) <= questionIndex r + 1 + 2)%nat →
    (length (append_new (list_to_set (ids (questions r))) (questions r) newQuestions)
      <= questionIndex r + 1)%nat →
    Effect sock rid (HostNext rid) (Some r)
      (Some (set_state finished
               (set_questions
                  (append_new (list_to_set (ids (questions r))) (questions r) newQuestions)
                  (set_questionIndex (questionIndex r + 1) r))))
      [gameOver rid (JNum (Z.of_nat (questionIndex r + 1)))]
| Eff_next_question r qs t q :
    hostId r = sock → state r = showing_answer →
    (isUnlimited r = false → reached (questionIndex r + 1) (totalRounds r) = false) →
    (qs = questions r ∨
     isUnlimited r = true ∧
     ∃ newQuestions,
       qs = append_new (list_to_set (ids (questions r))) (questions r) newQuestions) →
    qs !! (questionIndex r + 1) = Some q →
    Effect sock rid (HostNext rid) (Some r)
      (Some (open_round t (set_questions qs (set_questionIndex (questionIndex r + 1) r))))
      [mkEmit (ToRoom rid) "questionStarted"
         (questionStarted_payload W
            (open_round t (set_questions qs (set_questionIndex (questionIndex r + 1) r))) q)]
| Eff_host_left r :
    hostId r = sock →
    Effect sock rid Disconnect (Some r) None
      [mkEmit (ToRoom rid) "errorMessage" (JStr "Host disconnected.")]
| Eff_player_left r :
    hostId r ≠ sock → is_Some (obj_get sock (players r)) →
    Effect sock rid Disconnect (Some r) (Some (without_player sock r)) [].

End Effects.

(** The connections registered as players of a room. *)
Definition player_ids (r : Room) : gset string := list_to_set (obj_keys (players r)).

(** Does a payload carry one of the three fields of a question that are
    kept back until the reveal? *)
Definition carries_solution (j : JSON) : bool :=
  has_key "answer" j || has_key "keywords" j || has_key "correctOption" j.

(** A question with its solution blanked. *)
Definition redact (q : Question) : Question :=
  mkQuestion (q_id q) (q_grade q) (q_subject q) (q_chapter q) (q_type q)
    (q_source q) (q_tags q) (q_question q) "" [] (q_options q) None
    (q_diagram q) (q_image_search_query q).

(** The guards the handlers have, read off their first lines: does the
    event [ev], arriving on [sock], fail the guard of its handler? For a
    room id that is [inherited], and no room under it, [rooms[roomId]] is
    what the prototype holds, a value without [hostId], [state] or
    [players]. It fails every guard that compares its [hostId] or its
    [state]; it passes the two guards of [joinRoom], [!room] and
    [room.hostId === socket.id], and the handler then raises at
    [room.players[socket.id] = ...]. *)
Definition guard_fails (sock : string) (ev : Event) (sv : Server) : bool :=
  match ev with
  | CreateRoom _ => false
  | JoinRoom rid _ =>
      match rooms sv !! rid with
      | None => negb (inherited rid)
      | Some room => String.eqb (hostId room) sock
      end
  | StartGame rid =>
      match rooms sv !! rid with
      | None => true
      | Some room => negb (String.eqb (hostId room) sock)
      end
  | PlayerDone rid _ =>
      match rooms sv !! rid with
      | None => true
      | Some room =>
          negb (bool_decide (state room = in_question))
          || negb (bool_decide (is_Some (obj_get sock (players room))))
          || bool_decide (sock ∈ done room)
      end
  | HostRevealAnswer rid =>
      match rooms sv !! rid with
      | None => true
      | Some room =>
          negb (String.eqb (hostId room) sock)
          || negb (bool_decide (state room = in_question))
          || negb (bool_decide (players room = []))
      end
  | HostNext rid =>
      match rooms sv !! rid with
      | None => true
      | Some room =>
          negb (String.eqb (hostId room) sock)
          || negb (bool_decide (state room = showing_answer))
      end
  | Disconnect =>
      bool_decide
        (map_Forall
           (fun _ room => hostId room ≠ sock ∧ obj_get sock (players room) = None)
           (rooms sv))
  end.

(** What a failed guard answers: [joinRoom] reports to the caller, the
    other handlers say nothing. *)
Definition refusal (sock : string) (ev : Event) (sv : Server) : list Emit :=
  match ev with
  | JoinRoom rid _ =>
      match rooms sv !! rid with
      | None => [mkEmit (ToSocket sock) "errorMessage" (JStr "Room not found.")]
      | Some _ => [mkEmit (ToSocket sock) "errorMessage" (JStr "You are the host.")]
      end
  | _ => []
  end.

(** Does the event [ev], arriving on [sock], complete the open round of the
    room [rid]: a [playerDone] of a registered player, not done yet, after
    which [done] is as large as [players]; or a [hostRevealAnswer] of the
    host when there is no player. *)
Definition completes (sock rid : string) (ev : Event) (sv : Server) : bool :=
  match rooms sv !! rid with
  | None => false
  | Some room =>
      bool_decide (state room = in_question) &&
      match ev with
      | PlayerDone rid' _ =>
          String.eqb rid' rid
          && bool_decide (is_Some (obj_get sock (players room)))
          && negb (bool_decide (sock ∈ done room))
          && bool_decide (length (obj_keys (players room)) <= size ({[sock]} ∪ done room))
      | HostRevealAnswer rid' =>
          String.eqb rid' rid && String.eqb (hostId room) sock
          && bool_decide (players room = [])
      | _ => false
      end
  end.


(** ** Invariants *)

(** What a tier hands on: the questions chosen so far carry distinct ids,
    and the exclusion set is exactly the set of those ids. *)
Definition chosen (selected : list Question) (excludeIds : gset string) : Prop :=
  NoDup (ids selected) ∧ excludeIds = list_to_set (ids selected).

(** Every connection in [done] is a registered player. *)
Definition done_registered (r : Room) : Prop :=
  ∀ c, c ∈ done r → is_Some (obj_get c (players r)).

(** The count of reveals in the open round against the state of the room. *)
Definition round_inv (o : option Room) (n : nat) : Prop :=
  n <= 1 ∧
  ∀ r, o = Some r →
    (state r = in_question → n = 0) ∧ (state r = showing_answer → n = 1).

(** What [createRoom] fixes once and for all: the queue is not empty and,
    unless the room is unlimited, [totalRounds] is its length. *)
Definition room_wf (r : Room) : Prop :=
  questions r ≠ [] ∧
  totalRounds r =
    (if isUnlimited r then RoundsUnlimited else RoundsNum (length (questions r))).

(** The cursor of an open round is in range. *)
Definition cursor_valid (r : Room) : Prop :=
  state r = in_question ∨ state r = showing_answer →
  questionIndex r < length (questions r).

Definition room_ok (r : Room) : Prop := room_wf r ∧ cursor_valid r.

Definition gameOver_payload (T : nat) : JSON :=
  JObj [("totalRounds", JNum (Z.of_nat T))].

(** The tally of the game of a room with a round target against its
    cursor. *)
Definition game_inv (o : option Room) (acc : nat * list JSON) : Prop :=
  ∀ r, o = Some r → isUnlimited r = false →
    (state r = finished →
     acc = (length (questions r), [gameOver_payload (length (questions r))])) ∧
    (state r = in_question ∨ state r = showing_answer →
     acc = (questionIndex r + 1, []) ∧ questionIndex r < length (questions r)).

(** ** A concrete session *)

Module Scenario.

(** The four questions of the bank on "Number Systems", class 9. *)
Definition bank : list Question :=
  [ mkQuestion "g9-m-ns-1" 9 "Mathematics" "Number Systems" QUESTION_TYPES.MCQ
      "exemplar" ["important"; "conceptual"]
      "Which of the following is an irrational number?"
      "√7 is irrational because 7 is not a perfect square. √16 = 4, √(4/9) = 2/3, and 0.3333... = 1/3 are all rational."
      ["irrational"; "√7"; "perfect square"; "rational"]
      (Some ["√16"; "√(4/9)"; "√7"; "0.3333..."]) (Some 3%Z) None None;
    mkQuestion "g9-m-ns-2" 9 "Mathematics" "Number Systems" QUESTION_TYPES.LONG
      "ncert" ["important"]
      "Represent √3 on the number line."
      "To represent √3 on number line: (1) Draw a number line and mark O at 0, A at 1. (2) Draw AB ⊥ OA with AB = 1 unit. (3) By Pythagoras, OB = √(1² + 1²) = √2. (4) With O as center and OB as radius, draw arc to cut number line at C. OC = √2. (5) Draw CD ⊥ OC with CD = 1 unit. (6) OD = √(2 + 1) = √3. (7) With O as center and OD as radius, draw arc to cut number line at E. OE = √3."
      ["number line"; "Pythagoras"; "√2"; "√3"; "perpendicular"; "compass"; "arc"]
      None None (Some "number-line-sqrt3") None;
    mkQuestion "g9-m-ns-3" 9 "Mathematics" "Number Systems" QUESTION_TYPES.MCQ
      "pyq" ["pyq"; "cbse-2023"]
      "The decimal expansion of √2 is:"
      "√2 is irrational, so its decimal expansion is non-terminating and non-repeating."
      ["non-terminating"; "non-repeating"; "irrational"; "decimal expansion"]
      (Some ["Terminating"; "Non-terminating repeating";
             "Non-terminating non-repeating"; "None of these"])
      (Some 3%Z) None None;
    mkQuestion "g9-m-ns-4" 9 "Mathematics" "Number Systems" QUESTION_TYPES.SHORT
      "rdSharma" ["practice"]
      "Simplify: (√5 + √3)²"
      "(√5 + √3)² = (√5)² + 2(√5)(√3) + (√3)² = 5 + 2√15 + 3 = 8 + 2√15"
      ["simplify"; "algebraic identity"; "(a+b)²"; "√15"]
      None None None None ].

(** A world: a clock that advances a second per reading, a random source,
    no collaborator, no diagram files, no public URL. *)
Definition world : World :=
  mkWorld (fun k => 1700000000000 + 1000 * Z.of_nat k)%Z
          (fun k => N.of_nat (7 * k + 3))
          (fun _ => GeminiDisabled)
          (fun _ => false)
          (fun _ _ => "0.00")
          None.

(** The host asks for class 9, Mathematics, "Number Systems". *)
Definition request (totalRounds : Z) : CreateRoomReq :=
  mkCreateRoomReq (Some "Asha") (Some totalRounds) (Some 9%Z) (Some "Mathematics")
    (Some "Number Systems") false false.

(** The room code the world deals out first. *)
Definition code : string := "DMU3A".

(** A room of three rounds, two players, the first round open. *)
Definition lobby : list (string * Event) :=
  [ ("host", CreateRoom (request 3));
    ("ravi", JoinRoom code (Some "Ravi"));
    ("mira", JoinRoom code (Some "Mira"));
    ("host", StartGame code) ].

(** Both players finish the first round and the host moves on. *)
Definition first_round : list (string * Event) :=
  lobby ++
  [ ("ravi", PlayerDone code (JNum 3));
    ("mira", PlayerDone code (JNum 1));
    ("host", HostNext code) ].

(** A solo game of three rounds played to its end. *)
Definition solo_game : list (string * Event) :=
  [ ("host", CreateRoom (request 3));
    ("host", StartGame code);
    ("host", HostRevealAnswer code); ("host", HostNext code);
    ("host", HostRevealAnswer code); ("host", HostNext code);
    ("host", HostRevealAnswer code); ("host", HostNext code) ].

(** A solo game without a round target, at the reveal of its third
    question: two questions of the first batch are left. *)
Definition unlimited_game : list (string * Event) :=
  [ ("host", CreateRoom (request (-1)));
    ("host", StartGame code);
    ("host", HostRevealAnswer code); ("host", HostNext code);
    ("host", HostRevealAnswer code); ("host", HostNext code);
    ("host", HostRevealAnswer code) ].

Definition after (evs : list (string * Event)) : Server :=
  match run world bank evs init with
  | Some (sv, _) => sv
  | None => init
  end.

Definition room_after (evs : list (string * Event)) : option Room :=
  rooms (after evs) !! code.

End Scenario.

(** ** More concrete worlds *)

Module Examples.

(** A world as [Scenario.world], with a collaborator that answers every
    call with the first two questions of [Scenario.bank]. *)
Definition ai_world : World :=
  mkWorld (w_now Scenario.world) (w_random Scenario.world)
          (fun _ => GeminiReturns (Some <$> take 2 Scenario.bank))
          (w_diagram_exists Scenario.world) (w_toFixed2 Scenario.world)
          (w_baseUrl Scenario.world).

(** A room of four questions in its first round: Ravi is done, Mira is
    not. *)
Definition mid_round : Room :=
  mkRoom "DMU3A" "host" "Asha"
    [("ravi", mkPlayer "ravi" "Ravi"); ("mira", mkPlayer "mira" "Mira")]
    Scenario.bank 0 (RoundsNum 4) false
    (mkFilterParams (Some 9%Z) (Some "Mathematics") (Some "Number Systems") false)
    {["ravi"]} {["ravi" := 4000%Z]} {["ravi" := JNum 3]} in_question
    (Some 1700000000000%Z).

Definition mid_round_server : Server :=
  mkServer {["DMU3A" := mid_round]} (mkCursor 3 5 0).

End Examples.

(** A name with a no-break space (U+00A0) before it and a space after. *)
Definition padded_name : string := String "194"%char (String "160"%char "Tara ").

(** ** More invariants *)

(** A room as [createRoom] stores it, for the host [sock] under the key
    [rid]. *)
Definition fresh (sock rid : string) (r : Room) : Prop :=
  roomId r = rid ∧ hostId r = sock ∧ state r = waiting ∧ questionIndex r = 0 ∧
  done r = ∅ ∧ finishTimes r = ∅ ∧ answers r = ∅ ∧ startTime r = None ∧
  questions r ≠ [] ∧
  totalRounds r =
    (if isUnlimited r then RoundsUnlimited else RoundsNum (length (questions r))) ∧
  (players r = [] ∨ ∃ name, players r = [(sock, mkPlayer sock name)]).

(** What the handlers keep of the bookkeeping of a round. *)
Definition room_sound (r : Room) : Prop :=
  NoDup (obj_keys (players r)) ∧
  dom (finishTimes r) = done r ∧ dom (answers r) ⊆ done r ∧
  (state r = waiting → questionIndex r = 0 ∧ done r = ∅ ∧ startTime r = None) ∧
  (state r ≠ waiting → is_Some (startTime r)) ∧
  questionIndex r <= length (questions r) ∧
  (state r = finished → questionIndex r = length (questions r)).

(** The room an event names, if it names one. *)
Definition event_room (ev : Event) : option string :=
  match ev with
  | JoinRoom rid _ | StartGame rid | PlayerDone rid _ | HostRevealAnswer rid
  | HostNext rid => Some rid
  | CreateRoom _ | Disconnect => None
  end.

(** ** White space at the ends of a string *)

(** What follows the white space [s] starts with, if it starts with one. *)
Definition leading (s : string) : option string :=
  match s with
  | String a s1 =>
      if is_space a then Some s1
      else
        match s1 with
        | String b s2 =>
            if is_space2 a b then Some s2
            else
              match s2 with
              | String c s3 => if is_space3 a b c then Some s3 else None
              | EmptyString => None
              end
        | EmptyString => None
        end
  | EmptyString => None
  end.

(** The same for a string read from its end: what precedes the white
    space it ends with, [s] and the result being reversed. *)
Definition trailing (s : string) : option string :=
  match s with
  | String c s1 =>
      if is_space c then Some s1
      else
        match s1 with
        | String b s2 =>
            if is_space2 b c then Some s2
            else
              match s2 with
              | String a s3 => if is_space3 a b c then Some s3 else None
              | EmptyString => None
              end
        | EmptyString => None
        end
  | EmptyString => None
  end.

(** ** Reading the catalog *)





(** * Proofs *)

(** ** The selection policy *)

(** The ids of the bank are distinct: those of the questions written out
    in the source are, and the merge of the packs keeps them so. *)
Lemma QUESTION_BANK_ids_NoDup : NoDup QUESTION_BANK_ids.
Proof. apply (bool_decide_unpack _). by vm_compute. Qed.

Lemma merge_packs_NoDup bank extra :
  NoDup (ids bank) → NoDup (ids (merge_packs bank extra)).
Proof.
  unfold merge_packs. intros Hnd.
  assert (Hinv : NoDup (ids (bank, (list_to_set (ids bank) : gset string)).1) ∧
                 (bank, (list_to_set (ids bank) : gset string)).2
                 = list_to_set (ids (bank, (list_to_set (ids bank) : gset string)).1))
    by done.
  revert Hinv. generalize (bank, (list_to_set (ids bank) : gset string)).
  induction extra as [|q extra IH]; intros [acc existing] Hinv; cbn [fold_left].
  { apply Hinv. }
  apply IH. destruct Hinv as [Hacc Hex]. cbn [fst snd] in *.
  destruct (bool_decide (q_id q ∈ existing)) eqn:E; [done|].
  apply bool_decide_eq_false in E. cbn [fst snd]. subst existing.
  unfold ids in *. rewrite fmap_app. split.
  - apply NoDup_app. split; [done|]. split; [|apply NoDup_singleton].
    intros i Hi [->|[]%elem_of_nil]%elem_of_cons. apply E. by apply elem_of_list_to_set.
  - rewrite list_to_set_app_L. cbn. set_solver.
Qed.

Lemma merged_bank_NoDup static extra :
  ids static = QUESTION_BANK_ids → NoDup (ids (merge_packs static extra)).
Proof. intros H. apply merge_packs_NoDup. rewrite H. apply QUESTION_BANK_ids_NoDup. Qed.

Section SelectionFacts.

Context (W : World).

Lemma swap_Permutation {A} (i j : nat) (arr : list A) : swap i j arr ≡ₚ arr.
Proof.
  unfold swap. destruct (arr !! i) as [x|] eqn:Hi; [|done].
  destruct (arr !! j) as [y|] eqn:Hj; [|done].
  by apply Permutation_insert_swap.
Qed.

Lemma shuffle_from_Permutation {A} (i : nat) (arr : list A) (c : Cursor) :
  (shuffle_from W i arr c).1 ≡ₚ arr.
Proof.
  revert arr c. induction i as [|i IH]; intros arr c; [done|].
  cbn [shuffle_from]. unfold mbind, Gen_bind.
  destruct (randomBelow W (S i + 1) c) as [j c'].
  rewrite IH. apply swap_Permutation.
Qed.

Lemma shuffleArray_Permutation {A} (arr : list A) (c : Cursor) :
  (shuffleArray W arr c).1 ≡ₚ arr.
Proof. apply shuffle_from_Permutation. Qed.

Context (QUESTION_BANK : list Question).

Lemma chosen_nil : chosen [] ∅.
Proof. split; [constructor|done]. Qed.

Lemma chosen_snoc selected excludeIds q :
  chosen selected excludeIds → q_id q ∉ excludeIds →
  chosen (selected ++ [q]) ({[q_id q]} ∪ excludeIds).
Proof.
  intros [Hnd ->] Hq. unfold chosen, ids in *. rewrite fmap_app. split.
  - apply NoDup_app. split; [done|]. split; [|apply NoDup_singleton].
    intros i Hi [->|[]%elem_of_nil]%elem_of_cons.
    apply Hq. by apply elem_of_list_to_set.
  - rewrite list_to_set_app_L. simpl. set_solver.
Qed.

Lemma chosen_app selected excludeIds extra :
  chosen selected excludeIds → NoDup (ids extra) →
  (∀ i, i ∈ ids extra → i ∉ excludeIds) →
  chosen (selected ++ extra) (list_to_set (ids extra) ∪ excludeIds).
Proof.
  intros [Hnd ->] Hex Hdisj. unfold chosen, ids in *. rewrite fmap_app. split.
  - apply NoDup_app. split; [done|]. split; [|done].
    intros i Hi Hi'. apply (Hdisj i Hi'). by apply elem_of_list_to_set.
  - rewrite list_to_set_app_L. set_solver.
Qed.

Lemma ai_filter_chosen generated out excludeIds :
  chosen out excludeIds →
  chosen (ai_filter generated out excludeIds).1 (ai_filter generated out excludeIds).2.
Proof.
  revert out excludeIds.
  induction generated as [|[q|] rest IH]; intros out excludeIds Hc; cbn [ai_filter];
    [done| |by apply IH].
  destruct (String.eqb (q_id q) "" || bool_decide (q_id q ∈ excludeIds)) eqn:E;
    [by apply IH|].
  apply IH, chosen_snoc; [done|].
  apply orb_false_iff in E as [_ E]. by apply bool_decide_eq_false in E.
Qed.

Lemma generateQuestionsAI_chosen (c : Cursor) :
  let r := (generateQuestionsAI W ∅ c).1 in chosen r.1 r.2.
Proof.
  unfold generateQuestionsAI, mbind, Gen_bind, gemini.
  destruct (w_gemini W (k_ai c)); cbn; try apply chosen_nil.
  apply ai_filter_chosen, chosen_nil.
Qed.

Lemma bank_filter_sublist grade subject chapter questionType excludeIds :
  bank_filter QUESTION_BANK grade subject chapter questionType excludeIds
    `sublist_of` QUESTION_BANK.
Proof.
  unfold bank_filter.
  repeat match goal with
         | |- context [if ?b then _ else _] => destruct b
         end;
    repeat (etrans; [apply sublist_filter|]); done.
Qed.

Lemma bank_filter_excluded grade subject chapter questionType excludeIds q :
  q ∈ bank_filter QUESTION_BANK grade subject chapter questionType excludeIds →
  q_id q ∉ excludeIds.
Proof. unfold bank_filter. by intros [? _]%list_elem_of_filter. Qed.

(** The fallback loop only appends, and what it appends is fresh. *)
Lemma fallback_loop_spec budget g s c count out excludeIds k :
  ∃ extra,
    (fallback_loop W budget g s c count out excludeIds k).1.1 = out ++ extra ∧
    NoDup (ids extra) ∧ (∀ i, i ∈ ids extra → i ∉ excludeIds).
Proof.
  revert out excludeIds k.
  induction budget as [|budget IH]; intros out excludeIds k; cbn [fallback_loop].
  { exists []. rewrite app_nil_r. repeat split; [constructor|set_solver]. }
  destruct (decide (length out < count)); cycle 1.
  { exists []. rewrite app_nil_r. repeat split; [constructor|set_solver]. }
  unfold mbind, Gen_bind. destruct (generateOne W g s c k) as [q k'].
  destruct (decide (q_id q ∈ excludeIds)) as [Hin|Hout]; [apply IH|].
  destruct (IH (out ++ [q]) ({[q_id q]} ∪ excludeIds) k') as (extra & -> & Hnd & Hfresh).
  exists (q :: extra). rewrite <-app_assoc. split; [done|]. split.
  - cbn. constructor; [|done]. intros Hq. apply (Hfresh _ Hq). set_solver.
  - intros i [->|Hi]%elem_of_cons; [done|]. specialize (Hfresh i Hi). set_solver.
Qed.

(** With an empty exclusion set the first attempt always succeeds. *)
Lemma generateQuestionsFallback_nonempty g s c count k :
  0 < count → (generateQuestionsFallback W g s c count ∅ k).1.1 ≠ [].
Proof.
  intros Hc. unfold generateQuestionsFallback.
  destruct (count * 12) as [|budget] eqn:Hb; [lia|]. cbn [fallback_loop].
  destruct (decide (length [] < count)) as [_|Hn]; [|cbn in Hn; lia].
  unfold mbind, Gen_bind. destruct (generateOne W g s c k) as [q k'].
  destruct (decide (q_id q ∈ ∅)) as [Hin|_]; [set_solver|].
  destruct (fallback_loop_spec budget g s c count ([] ++ [q]) ({[q_id q]} ∪ ∅) k')
    as (extra & -> & _).
  done.
Qed.

Lemma tier_ai_chosen useAi k :
  let r := (tier_ai W useAi [] ∅ k).1 in chosen r.1 r.2.
Proof.
  unfold tier_ai. destruct useAi; [|apply chosen_nil].
  unfold mbind, Gen_bind.
  pose proof (generateQuestionsAI_chosen k) as Hc.
  destruct (generateQuestionsAI W ∅ k) as [[generated excl] k']. cbn in *.
  destruct Hc as [Hnd ->]. split; [done|set_solver].
Qed.

Lemma tier_bank_chosen grade subject chapter questionType requested selected excl k :
  NoDup (ids QUESTION_BANK) → chosen selected excl →
  let r := (tier_bank W QUESTION_BANK grade subject chapter questionType requested
              selected excl k).1 in
  chosen r.1 r.2.
Proof.
  intros Hbank Hc. unfold tier_bank.
  destruct (decide (length selected < requested)); [|done].
  unfold mbind, Gen_bind.
  pose proof (shuffleArray_Permutation
    (bank_filter QUESTION_BANK grade subject chapter questionType excl) k) as Hp.
  destruct (shuffleArray W _ k) as [filtered k']. cbn in *.
  apply chosen_app; [done| |].
  - eapply sublist_NoDup; [|apply fmap_sublist, sublist_take].
    unfold ids. rewrite Hp.
    eapply sublist_NoDup; [exact Hbank|apply fmap_sublist, bank_filter_sublist].
  - intros i (q & -> & Hq)%list_elem_of_fmap.
    apply (bank_filter_excluded grade subject chapter questionType).
    rewrite <-Hp. apply elem_of_take in Hq as (j & Hj & _).
    by eapply list_elem_of_lookup_2.
Qed.

Lemma tier_fallback_NoDup g s c requested selected excl k :
  chosen selected excl →
  NoDup (ids (tier_fallback W g s c requested selected excl k).1).
Proof.
  intros [Hnd ->]. unfold tier_fallback.
  destruct (decide (length selected < requested)); [|done].
  unfold mbind, Gen_bind, generateQuestionsFallback.
  destruct (fallback_loop_spec (( requested - length selected) * 12) g s c
              (requested - length selected) [] (list_to_set (ids selected)) k)
    as (extra & Hextra & Hnd' & Hfresh).
  destruct (fallback_loop W _ g s c _ [] _ k) as [[fallback excl'] k']. cbn in *.
  subst fallback. unfold ids in *. rewrite fmap_app. apply NoDup_app.
  split; [done|]. split; [|done].
  intros i Hi Hi'. apply (Hfresh i Hi'). by apply elem_of_list_to_set.
Qed.

Lemma tier_fallback_nonempty g s c requested selected excl k :
  0 < requested → excl = list_to_set (ids selected) →
  (tier_fallback W g s c requested selected excl k).1 ≠ [].
Proof.
  intros Hr ->. unfold tier_fallback.
  destruct (decide (length selected < requested)) as [Hlt|Hge]; cycle 1.
  { destruct selected; [cbn in Hge; lia|done]. }
  destruct selected as [|q selected]; cycle 1.
  { unfold mbind, Gen_bind.
    destruct (generateQuestionsFallback W g s c _ _ k) as [[fallback excl'] k']. done. }
  unfold mbind, Gen_bind. cbn [ids fmap list_fmap list_to_set foldr].
  pose proof (generateQuestionsFallback_nonempty g s c (requested - length (@nil Question)) k)
    as Hne.
  destruct (generateQuestionsFallback W g s c _ ∅ k) as [[fallback excl'] k'].
  cbn in *. apply Hne. lia.
Qed.

Lemma requested_of_pos rounds : 0 < requested_of rounds.
Proof. unfold requested_of. lia. Qed.

Lemma selectQuestions_NoDup grade subject chapter rounds questionType useAi k :
  NoDup (ids QUESTION_BANK) →
  NoDup (ids (selectQuestions W QUESTION_BANK grade subject chapter rounds
                questionType useAi k).1).
Proof.
  intros Hbank. unfold selectQuestions, mbind, Gen_bind.
  pose proof (tier_ai_chosen useAi k) as H1.
  destruct (tier_ai W useAi [] ∅ k) as [[selected excl] k1]. cbn in H1.
  pose proof (tier_bank_chosen grade subject chapter questionType
                (requested_of rounds) selected excl k1 Hbank H1) as H2.
  destruct (tier_bank W QUESTION_BANK _ _ _ _ _ selected excl k1)
    as [[selected' excl'] k2]. cbn in H2.
  by apply tier_fallback_NoDup.
Qed.

Lemma tier_ai_chosen_any useAi k :
  ∃ selected, (tier_ai W useAi [] ∅ k).1 = (selected, list_to_set (ids selected)).
Proof.
  pose proof (tier_ai_chosen useAi k) as H1.
  destruct (tier_ai W useAi [] ∅ k) as [[selected excl] k1]. cbn in *.
  destruct H1 as [_ ->]. by eexists.
Qed.

Lemma tier_bank_chosen_any grade subject chapter questionType requested selected k :
  ∃ selected',
    (tier_bank W QUESTION_BANK grade subject chapter questionType requested selected
       (list_to_set (ids selected)) k).1 = (selected', list_to_set (ids selected')).
Proof.
  unfold tier_bank. destruct (decide (length selected < requested)); [|by eexists].
  unfold mbind, Gen_bind. destruct (shuffleArray W _ k) as [filtered k']. cbn.
  eexists. f_equal. unfold ids. rewrite fmap_app, list_to_set_app_L. set_solver.
Qed.

Lemma selectQuestions_nonempty grade subject chapter rounds questionType useAi k :
  (selectQuestions W QUESTION_BANK grade subject chapter rounds questionType useAi k).1 ≠ [].
Proof.
  unfold selectQuestions, mbind, Gen_bind.
  destruct (tier_ai_chosen_any useAi k) as [selected H1].
  destruct (tier_ai W useAi [] ∅ k) as [[? ?] k1]. cbn in H1. simplify_eq.
  destruct (tier_bank_chosen_any grade subject chapter questionType
              (requested_of rounds) selected k1) as [selected' H2].
  destruct (tier_bank W QUESTION_BANK _ _ _ _ _ selected _ k1) as [[? ?] k2].
  cbn in H2. simplify_eq.
  apply tier_fallback_nonempty; [apply requested_of_pos|done].
Qed.

End SelectionFacts.

(** ** Objects and setters *)

Lemma obj_get_set {V} k k' (v : V) o :
  obj_get k (obj_set k' v o) = if String.eqb k k' then Some v else obj_get k o.
Proof.
  induction o as [|[k0 v0] o IH]; cbn.
  - by destruct (String.eqb k k').
  - destruct (String.eqb k' k0) eqn:E0; cbn.
    + apply String.eqb_eq in E0 as ->. by destruct (String.eqb k k0).
    + destruct (String.eqb k k0) eqn:E1; [|done].
      apply String.eqb_eq in E1 as ->. rewrite String.eqb_sym in E0. by rewrite E0.
Qed.

Lemma obj_get_delete {V} k k' (o : JsObj V) :
  obj_get k (obj_delete k' o) = if String.eqb k k' then None else obj_get k o.
Proof.
  induction o as [|[k0 v0] o IH]; cbn.
  - by destruct (String.eqb k k').
  - destruct (String.eqb k' k0) eqn:E0; cbn.
    + apply String.eqb_eq in E0 as ->. rewrite IH. by destruct (String.eqb k k0).
    + rewrite IH. destruct (String.eqb k k0) eqn:E1; [|done].
      apply String.eqb_eq in E1 as ->. rewrite String.eqb_sym in E0. by rewrite E0.
Qed.

Lemma obj_get_None_keys {V} k (o : JsObj V) : obj_get k o = None ↔ k ∉ obj_keys o.
Proof.
  unfold obj_keys. induction o as [|[k0 v0] o IH]; cbn.
  - split; [intros _; apply not_elem_of_nil|done].
  - rewrite not_elem_of_cons, <-IH. destruct (String.eqb k k0) eqn:E.
    + apply String.eqb_eq in E. split; [done|]. by intros [? _].
    + apply String.eqb_neq in E. tauto.
Qed.

(** The keys of an object stay distinct under assignment and deletion. *)
Lemma obj_set_NoDup {V} k (v : V) o : NoDup (obj_keys o) → NoDup (obj_keys (obj_set k v o)).
Proof.
  unfold obj_keys. induction o as [|[k0 v0] o IH]; cbn; intros Hnd.
  - apply NoDup_singleton.
  - apply NoDup_cons in Hnd as [Hk0 Hnd]. destruct (String.eqb k k0) eqn:E; cbn.
    + apply String.eqb_eq in E as ->. by constructor.
    + constructor; [|by apply IH]. apply String.eqb_neq in E.
      apply (obj_get_None_keys k0 (obj_set k v o)). rewrite obj_get_set.
      rewrite (proj2 (String.eqb_neq k0 k)) by done.
      by apply obj_get_None_keys.
Qed.

Lemma set_questions_same r : set_questions (questions r) r = r.
Proof. by destruct r. Qed.

Lemma server_eta sv : mkServer (rooms sv) (cursor sv) = sv.
Proof. by destruct sv. Qed.

(** ** Broadcasts *)

Lemma to_room_app rid out out' : to_room rid (out ++ out') = to_room rid out ++ to_room rid out'.
Proof. apply List.filter_app. Qed.

Lemma to_room_self rid name payload :
  to_room rid [mkEmit (ToRoom rid) name payload] = [mkEmit (ToRoom rid) name payload].
Proof. unfold to_room, is_to_room. cbn. by rewrite String.eqb_refl. Qed.

Lemma to_room_other rid rid' name payload :
  rid' ≠ rid → to_room rid [mkEmit (ToRoom rid') name payload] = [].
Proof.
  intros Hne. unfold to_room, is_to_room. cbn.
  by rewrite (proj2 (String.eqb_neq rid' rid)).
Qed.

Lemma count_event_to_room rid name out :
  count_event rid name (to_room rid out) = count_event rid name out.
Proof.
  unfold count_event, to_room. induction out as [|e out IH]; [done|]. cbn.
  unfold is_event at 2. destruct (is_to_room rid e) eqn:E; cbn.
  - unfold is_event at 1. rewrite E. cbn. destruct (String.eqb (e_event e) name); cbn; by rewrite IH.
  - done.
Qed.

Lemma count_event_app rid name out out' :
  count_event rid name (out ++ out') = count_event rid name out + count_event rid name out'.
Proof. unfold count_event. by rewrite List.filter_app, length_app. Qed.

(** ** Every handler acts on one room at a time *)

Section Locality.

Context (W : World) (QUESTION_BANK : list Question).

Local Abbreviation Effect := (Effect W).

Local Arguments to_room : simpl never.
Local Arguments gameOver : simpl never.

Lemma createRoom_Effect sock req sv sv' out rid :
  createRoom W QUESTION_BANK sock req sv = Some (sv', out) →
  Effect sock rid (CreateRoom req) (rooms sv !! rid) (rooms sv' !! rid) (to_room rid out).
Proof.
  unfold createRoom. intros H.
  destruct (createRoomId W (cursor sv)) as [rid' k].
  destruct (selectQuestions W QUESTION_BANK _ _ _ _ _ _ k) as [qs k'].
  destruct (bool_decide (qs = [])) eqn:Hqs; simplify_eq; cbn; [apply Eff_none|].
  apply bool_decide_eq_false in Hqs.
  destruct (decide (rid' = rid)) as [->|Hne]; [|by rewrite lookup_insert_ne; [apply Eff_none|]].
  rewrite lookup_insert_eq. apply Eff_create.
  all: destruct (c_playAsHost req); cbn; try done.
  all: try by destruct (num_or (c_totalRounds req) 5 =? -1)%Z.
  intros c. destruct (String.eqb c sock) eqn:E; [by apply String.eqb_eq in E|].
  by intros [? ?].
Qed.

Lemma joinRoom_Effect sock rid0 name sv sv' out rid :
  joinRoom W sock rid0 name sv = Some (sv', out) →
  Effect sock rid (JoinRoom rid0 name) (rooms sv !! rid) (rooms sv' !! rid) (to_room rid out).
Proof.
  unfold joinRoom. intros H.
  destruct (rooms sv !! rid0) as [room|] eqn:Hroom; simplify_eq; [|apply Eff_none].
  destruct (String.eqb (hostId room) sock) eqn:Hhost; simplify_eq; [apply Eff_none|].
  apply String.eqb_neq in Hhost.
  destruct (getPublicRoomState W _) as [view|]; simplify_eq/=.
  destruct (decide (rid0 = rid)) as [->|Hne]; [|by rewrite lookup_insert_ne; [apply Eff_none|]].
  rewrite lookup_insert_eq, Hroom. by apply Eff_join.
Qed.

Lemma startGame_Effect sock rid0 sv sv' out rid :
  startGame W sock rid0 sv = Some (sv', out) →
  Effect sock rid (StartGame rid0) (rooms sv !! rid) (rooms sv' !! rid) (to_room rid out).
Proof.
  unfold startGame. intros H.
  destruct (rooms sv !! rid0) as [room|] eqn:Hroom; simplify_eq; [|apply Eff_none].
  destruct (String.eqb (hostId room) sock) eqn:Hhost; simplify_eq/=; [|apply Eff_none].
  apply String.eqb_eq in Hhost.
  destruct (questions room !! 0) as [q|] eqn:Hq; simplify_eq/=.
  destruct (decide (rid0 = rid)) as [->|Hne].
  - rewrite lookup_insert_eq, Hroom, to_room_self. by apply Eff_start.
  - rewrite lookup_insert_ne, to_room_other by done. apply Eff_none.
Qed.

Lemma playerDone_Effect sock rid0 answer sv sv' out rid :
  playerDone W sock rid0 answer sv = Some (sv', out) →
  Effect sock rid (PlayerDone rid0 answer) (rooms sv !! rid) (rooms sv' !! rid) (to_room rid out).
Proof.
  unfold playerDone. intros H.
  destruct (rooms sv !! rid0) as [room|] eqn:Hroom; simplify_eq; [|apply Eff_none].
  destruct (bool_decide (state room = in_question)) eqn:Hst; simplify_eq/=; [|apply Eff_none].
  destruct (bool_decide (is_Some (obj_get sock (players room)))) eqn:Hpl;
    simplify_eq/=; [|apply Eff_none].
  destruct (bool_decide (sock ∈ done room)) eqn:Hdone; simplify_eq/=; [apply Eff_none|].
  apply bool_decide_eq_true in Hst, Hpl. apply bool_decide_eq_false in Hdone.
  fold (recorded sock (w_now W (k_clock (cursor sv))) answer room) in H.
  destruct (decide (_ <= _)) as [Hall|Hnot] in H.
  - destruct (questions room !! questionIndex room) as [q|] eqn:Hq; simplify_eq/=.
    destruct (decide (rid0 = rid)) as [->|Hne].
    + rewrite lookup_insert_eq, Hroom, to_room_self. by apply Eff_done_reveal.
    + rewrite lookup_insert_ne, to_room_other by done. apply Eff_none.
  - simplify_eq/=. destruct (decide (rid0 = rid)) as [->|Hne].
    + rewrite lookup_insert_eq, Hroom. by apply Eff_done.
    + rewrite lookup_insert_ne by done. apply Eff_none.
Qed.

Lemma hostRevealAnswer_Effect sock rid0 sv sv' out rid :
  hostRevealAnswer W sock rid0 sv = Some (sv', out) →
  Effect sock rid (HostRevealAnswer rid0) (rooms sv !! rid) (rooms sv' !! rid) (to_room rid out).
Proof.
  unfold hostRevealAnswer. intros H.
  destruct (rooms sv !! rid0) as [room|] eqn:Hroom; simplify_eq; [|apply Eff_none].
  destruct (String.eqb (hostId room) sock) eqn:Hhost; simplify_eq/=; [|apply Eff_none].
  destruct (bool_decide (state room = in_question)) eqn:Hst; simplify_eq/=; [|apply Eff_none].
  apply String.eqb_eq in Hhost. apply bool_decide_eq_true in Hst.
  destruct (decide (0 < _)) as [Hsome|Hnone] in H; simplify_eq/=; [apply Eff_none|].
  destruct (questions room !! questionIndex room) as [q|] eqn:Hq; simplify_eq/=.
  destruct (decide (rid0 = rid)) as [->|Hne].
  - rewrite lookup_insert_eq, Hroom, to_room_self. apply Eff_reveal; try done.
    unfold obj_keys in Hnone. destruct (players room); [done|cbn in Hnone; lia].
  - rewrite lookup_insert_ne, to_room_other by done. apply Eff_none.
Qed.

Lemma hostNext_Effect sock rid0 sv sv' out rid :
  hostNext W QUESTION_BANK sock rid0 sv = Some (sv', out) →
  Effect sock rid (HostNext rid0) (rooms sv !! rid) (rooms sv' !! rid) (to_room rid out).
Proof.
  unfold hostNext. intros H.
  destruct (rooms sv !! rid0) as [room|] eqn:Hroom; simplify_eq; [|apply Eff_none].
  destruct (String.eqb (hostId room) sock) eqn:Hhost; simplify_eq/=; [|apply Eff_none].
  destruct (bool_decide (state room = showing_answer)) eqn:Hst; simplify_eq/=; [|apply Eff_none].
  apply String.eqb_eq in Hhost. apply bool_decide_eq_true in Hst.
  destruct (isUnlimited room) eqn:Hunl; cbn [negb andb] in H.
  - (* unlimited *)
    destruct (bool_decide (length (questions room) <= questionIndex room + 1 + 2)) eqn:Hlow;
      cbn [andb] in H.
    + apply bool_decide_eq_true in Hlow.
      destruct (selectQuestions W QUESTION_BANK _ _ _ _ _ _ (cursor sv)) as [new k].
      cbn in H.
      destruct (bool_decide (length (append_new _ (questions room) new) <= _)) eqn:Hex.
      * apply bool_decide_eq_true in Hex. simplify_eq/=.
        destruct (decide (rid0 = rid)) as [->|Hne].
        -- unfold gameOver. rewrite lookup_insert_eq, Hroom, to_room_self.
           by apply Eff_next_exhausted.
        -- unfold gameOver. rewrite lookup_insert_ne, to_room_other by done.
           apply Eff_none.
      * cbn in H.
        destruct (append_new _ (questions room) new !! (questionIndex room + 1))
          as [q|] eqn:Hq; simplify_eq/=.
        destruct (decide (rid0 = rid)) as [->|Hne].
        -- rewrite lookup_insert_eq, Hroom, to_room_self.
           apply (Eff_next_question W (hostId room) rid room
                    (append_new (list_to_set (ids (questions room))) (questions room) new));
             try done.
           ++ intros ?; congruence.
           ++ right. split; [done|]. by eexists.
        -- rewrite lookup_insert_ne, to_room_other by done. apply Eff_none.
    + cbn in H.
      destruct (questions room !! (questionIndex room + 1)) as [q|] eqn:Hq; simplify_eq/=.
      destruct (decide (rid0 = rid)) as [->|Hne].
      * rewrite lookup_insert_eq, Hroom, to_room_self.
        rewrite <-(set_questions_same (set_questionIndex (questionIndex room + 1) room)).
        apply Eff_next_question; try done; [intros ?; congruence|by left].
      * rewrite lookup_insert_ne, to_room_other by done. apply Eff_none.
  - (* a fixed target *)
    destruct (reached (questionIndex room + 1) (totalRounds room)) eqn:Hreach; cbn in H.
    + simplify_eq/=. destruct (decide (rid0 = rid)) as [->|Hne].
      * unfold gameOver. rewrite lookup_insert_eq, Hroom, to_room_self.
        by apply Eff_next_over.
      * unfold gameOver. rewrite lookup_insert_ne, to_room_other by done. apply Eff_none.
    + destruct (questions room !! (questionIndex room + 1)) as [q|] eqn:Hq; simplify_eq/=.
      destruct (decide (rid0 = rid)) as [->|Hne].
      * rewrite lookup_insert_eq, Hroom, to_room_self.
        rewrite <-(set_questions_same (set_questionIndex (questionIndex room + 1) room)).
        apply Eff_next_question; try done. by left.
      * rewrite lookup_insert_ne, to_room_other by done. apply Eff_none.
Qed.

(** [hostNext] sends nothing but broadcasts to its room. *)
Lemma hostNext_broadcasts sock rid sv sv' out :
  hostNext W QUESTION_BANK sock rid sv = Some (sv', out) → to_room rid out = out.
Proof.
  unfold hostNext. intros Hh.
  destruct (rooms sv !! rid) as [room|]; simplify_eq; [|done].
  destruct (negb _ || negb _); simplify_eq; [done|].
  destruct (negb _ && reached _ _); simplify_eq.
  { unfold gameOver. by rewrite to_room_self. }
  destruct (isUnlimited _ && bool_decide _).
  - destruct (selectQuestions W QUESTION_BANK _ _ _ _ _ _ _) as [new k].
    destruct (bool_decide (_ <= _)); simplify_eq.
    { unfold gameOver. by rewrite to_room_self. }
    cbn in Hh. destruct (_ !! _) as [q|]; simplify_eq/=. by rewrite to_room_self.
  - cbn in Hh. destruct (_ !! _) as [q|]; simplify_eq/=. by rewrite to_room_self.
Qed.

Lemma disconnect_room_fst sock rid rid' room :
  (disconnect_room sock rid room).1 = (disconnect_room sock rid' room).1.
Proof.
  unfold disconnect_room. destruct (String.eqb (hostId room) sock); [done|].
  by destruct (bool_decide _).
Qed.

Lemma disconnect_room_other sock rid rid' room :
  rid' ≠ rid → to_room rid (disconnect_room sock rid' room).2 = [].
Proof.
  intros Hne. unfold disconnect_room.
  destruct (String.eqb (hostId room) sock); cbn; [by apply to_room_other|].
  destruct (bool_decide _); cbn; [|done].
  by destruct (String.eqb (hostId room) "").
Qed.

(** Of what [disconnect] sends, a room hears only what concerns itself. *)
Lemma disconnect_to_room sock rid (l : list (string * Room)) :
  NoDup l.*1 →
  to_room rid (flat_map (fun '(roomId, room) => (disconnect_room sock roomId room).2) l) =
  match (list_to_map l : gmap string Room) !! rid with
  | Some room => to_room rid (disconnect_room sock rid room).2
  | None => []
  end.
Proof.
  induction l as [|[rid' room] l IH]; intros Hnd; [done|].
  apply NoDup_cons in Hnd as [Hfresh Hnd]. cbn [flat_map list_to_map foldr].
  rewrite to_room_app, IH by done. cbn [uncurry].
  destruct (decide (rid' = rid)) as [->|Hne].
  - rewrite lookup_insert_eq.
    rewrite (not_elem_of_list_to_map_1 (M := gmap string) l rid Hfresh).
    by rewrite app_nil_r.
  - by rewrite lookup_insert_ne, disconnect_room_other.
Qed.

Lemma disconnect_Effect sock sv sv' out rid :
  disconnect sock sv = Some (sv', out) →
  Effect sock rid Disconnect (rooms sv !! rid) (rooms sv' !! rid) (to_room rid out).
Proof.
  unfold disconnect. intros H. simplify_eq. cbn [rooms].
  rewrite lookup_omap, disconnect_to_room by apply NoDup_fst_map_to_list.
  rewrite list_to_map_to_list.
  destruct (rooms sv !! rid) as [room|] eqn:Hroom; cbn; [|apply Eff_none].
  rewrite (disconnect_room_fst sock (roomId room) rid). unfold disconnect_room.
  destruct (String.eqb (hostId room) sock) eqn:Hhost; cbn [fst snd].
  { apply String.eqb_eq in Hhost. rewrite to_room_self. by apply Eff_host_left. }
  apply String.eqb_neq in Hhost.
  destruct (bool_decide (is_Some (obj_get sock (players room)))) eqn:Hpl; cbn [fst snd];
    [|apply Eff_none].
  apply bool_decide_eq_true in Hpl.
  replace (to_room rid _) with (@nil Emit); [by apply Eff_player_left|].
  by destruct (String.eqb _ "").
Qed.

Lemma handle_Effect sock ev sv sv' out rid :
  handle W QUESTION_BANK sock ev sv = Some (sv', out) →
  Effect sock rid ev (rooms sv !! rid) (rooms sv' !! rid) (to_room rid out).
Proof.
  destruct ev; cbn [handle].
  - apply createRoom_Effect.
  - apply joinRoom_Effect.
  - apply startGame_Effect.
  - apply playerDone_Effect.
  - apply hostRevealAnswer_Effect.
  - apply hostNext_Effect.
  - apply disconnect_Effect.
Qed.

End Locality.

(** ** Invariants of the rooms over a run *)

Section Runs.

Context (W : World) (QUESTION_BANK : list Question).

Local Abbreviation handle := (handle W QUESTION_BANK).
Local Abbreviation run := (run W QUESTION_BANK).
Local Abbreviation Effect := (Effect W).

Lemma run_app evs evs' sv :
  run (evs ++ evs') sv =
  '(sv', out) ← run evs sv; '(sv'', out') ← run evs' sv'; Some (sv'', out ++ out').
Proof.
  revert sv. induction evs as [|[sock ev] evs IH]; intros sv; cbn.
  - destruct (run evs' sv) as [[sv' out']|]; [done|done].
  - destruct (handle sock ev sv) as [[sv1 out1]|]; cbn; [|done].
    rewrite IH. destruct (run evs sv1) as [[sv2 out2]|]; cbn; [|done].
    destruct (run evs' sv2) as [[sv3 out3]|]; cbn; [|done].
    by rewrite app_assoc.
Qed.

(** A property of rooms that every effect keeps holds in every room of
    every registry a run reaches. *)
Lemma run_rooms_ind (P : Room → Prop) :
  (∀ sock rid ev o r' out, Effect sock rid ev o (Some r') out →
     (∀ r, o = Some r → P r) → P r') →
  ∀ evs sv sv' out,
    (∀ rid r, rooms sv !! rid = Some r → P r) →
    run evs sv = Some (sv', out) →
    ∀ rid r, rooms sv' !! rid = Some r → P r.
Proof.
  intros Hstep evs. induction evs as [|[sock ev] evs IH]; intros sv sv' out HP Hrun.
  { cbn in Hrun. by simplify_eq. }
  cbn in Hrun.
  destruct (handle sock ev sv) as [[sv1 out1]|] eqn:Hh; cbn in Hrun; [|done].
  destruct (run evs sv1) as [[sv2 out2]|] eqn:Hr; cbn in Hrun; [|done].
  simplify_eq. apply (IH sv1 sv' out2); [|done].
  intros rid r Hr1. pose proof (handle_Effect W QUESTION_BANK _ _ _ _ _ rid Hh) as He.
  rewrite Hr1 in He. eapply Hstep; [exact He|]. intros r0 Hr0. by apply (HP rid).
Qed.

Lemma Effect_done_registered sock rid ev o r' out :
  Effect sock rid ev o (Some r') out →
  (∀ r, o = Some r → done_registered r) → done_registered r'.
Proof.
  unfold done_registered.
  inversion 1; subst; intros Hinv c Hc; cbn in Hc |- *.
  all: try (by eapply Hinv).
  all: try (by apply elem_of_empty in Hc).
  - (* create *) set_solver.
  - (* join *)
    rewrite obj_get_set. destruct (String.eqb c sock); [done|]. by eapply Hinv.
  - (* done *)
    apply elem_of_union in Hc as [->%elem_of_singleton|Hc]; [done|]. by eapply Hinv.
  - (* done, and reveal *)
    apply elem_of_union in Hc as [->%elem_of_singleton|Hc]; [done|]. by eapply Hinv.
  - (* a player left *)
    apply elem_of_difference in Hc as [Hc Hne]. rewrite obj_get_delete.
    destruct (String.eqb c sock) eqn:E; [|by eapply Hinv].
    apply String.eqb_eq in E. set_solver.
Qed.

Lemma player_ids_spec r c : c ∈ player_ids r ↔ is_Some (obj_get c (players r)).
Proof.
  unfold player_ids. rewrite elem_of_list_to_set.
  destruct (obj_get c (players r)) as [p|] eqn:E.
  - split; [by eexists|]. intros _.
    destruct (decide (c ∈ obj_keys (players r))) as [|Hn]; [done|].
    apply obj_get_None_keys in Hn. congruence.
  - split; [|by intros [? ?]]. intros Hin. by apply obj_get_None_keys in E.
Qed.

End Runs.

(** ** What the payloads carry *)

Section Payloads.

Context (W : World).

Local Arguments json_players : simpl never.
Local Arguments json_rounds : simpl never.
Local Arguments json_options : simpl never.
Local Arguments getDiagramUrl : simpl never.
Local Arguments json_imageSearchQuery : simpl never.
Local Arguments source_view : simpl never.
Local Arguments json_time : simpl never.
Local Arguments json_state : simpl never.

Lemma has_key_strs k l : has_key k (json_strs l) = false.
Proof. unfold json_strs. cbn. by induction l. Qed.

Lemma has_key_options k q : has_key k (json_options q) = false.
Proof. unfold json_options. destruct (q_options q); [apply has_key_strs|done]. Qed.

Lemma has_key_diagram k d : has_key k (getDiagramUrl W d) = false.
Proof.
  unfold getDiagramUrl. destruct d as [d|]; [|done].
  destruct (String.eqb d ""); [done|].
  destruct (String.eqb _ ""); [done|]. by destruct (w_diagram_exists W _).
Qed.

Lemma has_key_imageSearchQuery k q : has_key k (json_imageSearchQuery q) = false.
Proof.
  unfold json_imageSearchQuery. destruct (q_image_search_query q) as [s|]; [|done].
  by destruct (String.eqb s "").
Qed.

Lemma carries_solution_source q : carries_solution (source_view q) = false.
Proof.
  unfold source_view, TRUSTED_SOURCES, trusted. cbn [obj_get].
  repeat (destruct (String.eqb (q_source q) _); [by vm_compute|]). by vm_compute.
Qed.

Lemma has_key_source k q :
  k = "answer" ∨ k = "keywords" ∨ k = "correctOption" → has_key k (source_view q) = false.
Proof.
  pose proof (carries_solution_source q) as H. unfold carries_solution in H.
  apply orb_false_iff in H as [[H1 H2]%orb_false_iff H3]. by intros [->|[->| ->]].
Qed.

Lemma has_key_rounds k t : has_key k (json_rounds t) = false.
Proof. by destruct t. Qed.

Lemma has_key_time k t : has_key k (json_time t) = false.
Proof. by destruct t. Qed.

Lemma has_key_players k r :
  k = "answer" ∨ k = "keywords" ∨ k = "correctOption" → has_key k (json_players r) = false.
Proof.
  intros Hk. unfold json_players. cbn. induction (obj_values (players r)) as [|p l IH]; [done|].
  cbn. rewrite IH. by destruct Hk as [->|[->| ->]].
Qed.

Lemma carries_solution_questionStarted r q :
  carries_solution (questionStarted_payload W r q) = false.
Proof.
  unfold carries_solution, questionStarted_payload. cbn.
  rewrite !has_key_rounds, !has_key_options, !has_key_diagram, !has_key_imageSearchQuery,
    !has_key_time, !has_key_source by tauto.
  done.
Qed.

Lemma carries_solution_state s : carries_solution (json_state s) = false.
Proof. by destruct s. Qed.

Lemma carries_solution_public r view :
  getPublicRoomState W r = Some view → carries_solution view = false.
Proof.
  unfold getPublicRoomState. intros H.
  destruct (bool_decide (state r = in_question) || bool_decide (state r = showing_answer)).
  - destruct (questions r !! questionIndex r) as [q|]; cbn in H; [|done]. simplify_eq.
    unfold carries_solution. cbn.
    rewrite !has_key_rounds, !has_key_options, !has_key_diagram, !has_key_imageSearchQuery,
      !has_key_source, !has_key_players by tauto.
    pose proof (carries_solution_state (state r)) as Hs. unfold carries_solution in Hs.
    by apply orb_false_iff in Hs as [[-> ->]%orb_false_iff ->].
  - cbn in H. simplify_eq. unfold carries_solution. cbn.
    rewrite !has_key_rounds, !has_key_players by tauto.
    pose proof (carries_solution_state (state r)) as Hs. unfold carries_solution in Hs.
    by apply orb_false_iff in Hs as [[-> ->]%orb_false_iff ->].
Qed.

Lemma carries_solution_playerListUpdate r :
  carries_solution (e_payload (playerListUpdate r)) = false.
Proof. unfold carries_solution. cbn. by rewrite !has_key_players by tauto. Qed.

Lemma carries_solution_joinedRoom rid name view :
  carries_solution view = false →
  carries_solution (JObj [("roomId", JStr rid); ("playerName", JStr name); ("state", view)])
  = false.
Proof.
  unfold carries_solution. cbn.
  by intros [[-> ->]%orb_false_iff ->]%orb_false_iff.
Qed.

Lemma carries_solution_gameOver rid t : carries_solution (e_payload (gameOver rid t)) = carries_solution t.
Proof. unfold carries_solution. cbn. by rewrite !orb_false_r. Qed.

Lemma carries_solution_rounds t : carries_solution (json_rounds t) = false.
Proof. unfold carries_solution. by rewrite !has_key_rounds. Qed.

Lemma questionStarted_redact r q :
  questionStarted_payload W r (redact q) = questionStarted_payload W r q.
Proof. done. Qed.

Lemma getPublicRoomState_redact r :
  getPublicRoomState W (set_questions (redact <$> questions r) r) = getPublicRoomState W r.
Proof.
  unfold getPublicRoomState. cbn. rewrite list_lookup_fmap.
  destruct (bool_decide (state r = in_question) || bool_decide (state r = showing_answer));
    [|done].
  by destruct (questions r !! questionIndex r).
Qed.

End Payloads.

(** ** Replenishing the queue *)

Lemma append_new_spec (existingIds : gset string) queue newQuestions :
  append_new existingIds queue newQuestions
  = queue ++ filter (fun q => q_id q ∉ existingIds) newQuestions.
Proof.
  unfold append_new. revert queue.
  induction newQuestions as [|nq new IH]; intros queue; cbn [fold_left].
  { by rewrite app_nil_r. }
  rewrite IH. destruct (decide (q_id nq ∈ existingIds)) as [Hin|Hout].
  - rewrite bool_decide_eq_true_2 by done.
    by rewrite filter_cons_False by (by intros ?).
  - rewrite bool_decide_eq_false_2 by done.
    by rewrite filter_cons_True, <-app_assoc by done.
Qed.


(** ** Guards *)

Lemma omap_Some_id {A} (m : gmap string A) (f : A → option A) :
  (∀ i x, m !! i = Some x → f x = Some x) → omap f m = m.
Proof.
  intros Hf. apply map_eq. intros i. rewrite lookup_omap.
  destruct (m !! i) as [x|] eqn:E; cbn; [by apply Hf in E|done].
Qed.

(** ** Rounds *)

Section Rounds.

Context (W : World) (QUESTION_BANK : list Question).

Local Abbreviation Effect := (Effect W).

Lemma round_step_other rid n e : is_to_room rid e = false → round_step rid n e = n.
Proof. unfold round_step, is_event. by intros ->. Qed.

Lemma fold_round_to_room rid out n :
  fold_left (round_step rid) out n = fold_left (round_step rid) (to_room rid out) n.
Proof.
  revert n. induction out as [|e out IH]; intros n; [done|].
  unfold to_room. cbn [fold_left List.filter].
  destruct (is_to_room rid e) eqn:E; cbn [fold_left]; [apply IH|].
  rewrite round_step_other by done. apply IH.
Qed.

Lemma reveals_in_round_app rid out out' :
  reveals_in_round rid (out ++ out')
  = fold_left (round_step rid) (to_room rid out') (reveals_in_round rid out).
Proof. unfold reveals_in_round. by rewrite fold_left_app, <-fold_round_to_room. Qed.

Lemma round_step_questionStarted rid n payload :
  round_step rid n (mkEmit (ToRoom rid) "questionStarted" payload) = 0.
Proof. unfold round_step, is_event, is_to_room. cbn. by rewrite String.eqb_refl. Qed.

Lemma round_step_showAnswer rid n payload :
  round_step rid n (mkEmit (ToRoom rid) "showAnswer" payload) = S n.
Proof. unfold round_step, is_event, is_to_room. cbn. by rewrite String.eqb_refl. Qed.

Lemma round_step_gameOver rid n t : round_step rid n (gameOver rid t) = n.
Proof. unfold round_step, is_event, is_to_room. cbn. by rewrite String.eqb_refl. Qed.

Lemma round_step_errorMessage rid n payload :
  round_step rid n (mkEmit (ToRoom rid) "errorMessage" payload) = n.
Proof. unfold round_step, is_event, is_to_room. cbn. by rewrite String.eqb_refl. Qed.

Lemma Effect_round_inv sock rid ev o o' out n :
  Effect sock rid ev o o' out →
  round_inv o n → round_inv o' (fold_left (round_step rid) out n).
Proof.
  unfold round_inv.
  inversion 1; subst; intros [Hle Hinv]; cbn [fold_left];
    rewrite ?round_step_questionStarted, ?round_step_showAnswer, ?round_step_gameOver,
      ?round_step_errorMessage.
  all: try (split; [lia|]; intros r' [= <-]; cbn; split; intros; done || lia).
  all: try done.
  - (* create *) split; [done|]. intros r' [= <-]. split; congruence.
  - (* join *) split; [done|]. intros r' [= <-]. cbn. by apply Hinv.
  - (* done *) split; [done|]. intros r' [= <-]. cbn. by apply Hinv.
  - (* done, and reveal *)
    destruct (Hinv r eq_refl) as [Hzero _]. rewrite (Hzero ltac:(done)).
    split; [done|]. intros r' [= <-]. cbn. split; [done|done].
  - (* reveal *)
    destruct (Hinv r eq_refl) as [Hzero _]. rewrite (Hzero ltac:(done)).
    split; [done|]. intros r' [= <-]. cbn. split; [done|done].
  - (* a player left *) split; [done|]. intros r' [= <-]. cbn. by apply Hinv.
Qed.

Lemma run_round_inv evs sv sv' out0 out :
  (∀ rid, round_inv (rooms sv !! rid) (reveals_in_round rid out0)) →
  run W QUESTION_BANK evs sv = Some (sv', out) →
  ∀ rid, round_inv (rooms sv' !! rid) (reveals_in_round rid (out0 ++ out)).
Proof.
  revert sv out0 out. induction evs as [|[sock ev] evs IH]; intros sv out0 out Hinv Hrun.
  { cbn in Hrun. simplify_eq. by rewrite app_nil_r. }
  cbn in Hrun.
  destruct (handle W QUESTION_BANK sock ev sv) as [[sv1 out1]|] eqn:Hh; cbn in Hrun; [|done].
  destruct (run W QUESTION_BANK evs sv1) as [[sv2 out2]|] eqn:Hr; cbn in Hrun; [|done].
  simplify_eq. rewrite app_assoc. apply (IH sv1); [|done].
  intros rid. rewrite reveals_in_round_app.
  eapply Effect_round_inv; [exact (handle_Effect W QUESTION_BANK _ _ _ _ _ rid Hh)|apply Hinv].
Qed.

Lemma count_event_self rid name payload :
  count_event rid name [mkEmit (ToRoom rid) name payload] = 1.
Proof. unfold count_event, is_event, is_to_room. cbn. by rewrite !String.eqb_refl. Qed.

Lemma count_event_not rid name e :
  String.eqb (e_event e) name = false → count_event rid name [e] = 0.
Proof. unfold count_event, is_event. cbn. intros ->. by rewrite andb_false_r. Qed.

Ltac no_reveal :=
  first [ done | by apply count_event_not ].

Lemma completes_other sock rid ev sv :
  (∀ rid' answer, ev ≠ PlayerDone rid' answer) → (∀ rid', ev ≠ HostRevealAnswer rid') →
  completes sock rid ev sv = false.
Proof.
  intros H1 H2. unfold completes. destruct (rooms sv !! rid) as [room|]; [|done].
  destruct ev; try apply andb_false_r; [by destruct (H1 roomId0 answer)|by destruct (H2 roomId0)].
Qed.

(** Which events broadcast [showAnswer] to a room, and what they leave. *)
Lemma handle_reveals sock ev sv sv' out rid :
  handle W QUESTION_BANK sock ev sv = Some (sv', out) →
  count_event rid "showAnswer" out = (if completes sock rid ev sv then 1 else 0) ∧
  (completes sock rid ev sv = true → state <$> rooms sv' !! rid = Some showing_answer).
Proof.
  intros Hh.
  assert (Hother : (∀ rid' answer, ev ≠ PlayerDone rid' answer) →
                   (∀ rid', ev ≠ HostRevealAnswer rid') →
                   count_event rid "showAnswer" out = 0).
  { intros H1 H2. pose proof (handle_Effect W QUESTION_BANK _ _ _ _ _ rid Hh) as He.
    rewrite <-count_event_to_room.
    inversion He; subst; try no_reveal; try (by destruct (H1 rid answer));
      by destruct (H2 rid). }
  destruct ev as [req|rid' name|rid'|rid' answer|rid'|rid'|];
    try (rewrite completes_other by done; split; [by apply Hother|done]).
  - (* playerDone *)
    destruct (decide (rid' = rid)) as [->|Hne]; cycle 1.
    { assert (Hc : completes sock rid (PlayerDone rid' answer) sv = false).
      { unfold completes. destruct (rooms sv !! rid); [|done].
        rewrite (proj2 (String.eqb_neq _ _) Hne). cbn. apply andb_false_r. }
      rewrite Hc. split; [|done].
      pose proof (handle_Effect W QUESTION_BANK _ _ _ _ _ rid Hh) as He.
      rewrite <-count_event_to_room. inversion He; subst; no_reveal. }
    cbn [handle] in Hh. unfold playerDone in Hh. unfold completes.
    rewrite String.eqb_refl.
    destruct (rooms sv !! rid) as [room|] eqn:Hroom; [|by simplify_eq].
    destruct (bool_decide (state room = in_question)); cbn [negb orb andb] in *;
      [|by simplify_eq].
    destruct (bool_decide (is_Some (obj_get sock (players room)))); cbn [negb orb andb] in *;
      [|by simplify_eq].
    destruct (bool_decide (sock ∈ done room)); cbn [negb orb andb] in *; [by simplify_eq|].
    cbn [now set_tracking players done] in Hh.
    destruct (decide (length (obj_keys (players room)) <= size ({[sock]} ∪ done room)))
      as [Hall|Hnot].
    + rewrite bool_decide_eq_true_2 by done.
      destruct (questions _ !! questionIndex _) as [q|]; [|done]. cbn in Hh. simplify_eq.
      split; [apply count_event_self|]. intros _. cbn [rooms]. by rewrite lookup_insert_eq.
    + rewrite bool_decide_eq_false_2 by done. by simplify_eq.
  - (* hostRevealAnswer *)
    destruct (decide (rid' = rid)) as [->|Hne]; cycle 1.
    { assert (Hc : completes sock rid (HostRevealAnswer rid') sv = false).
      { unfold completes. destruct (rooms sv !! rid); [|done].
        rewrite (proj2 (String.eqb_neq _ _) Hne). cbn. apply andb_false_r. }
      rewrite Hc. split; [|done].
      pose proof (handle_Effect W QUESTION_BANK _ _ _ _ _ rid Hh) as He.
      rewrite <-count_event_to_room. inversion He; subst; no_reveal. }
    cbn [handle] in Hh. unfold hostRevealAnswer in Hh. unfold completes.
    rewrite String.eqb_refl.
    destruct (rooms sv !! rid) as [room|] eqn:Hroom; [|by simplify_eq].
    destruct (String.eqb (hostId room) sock); cbn [negb orb andb] in *;
      [|rewrite andb_false_r; by simplify_eq].
    destruct (bool_decide (state room = in_question)); cbn [negb orb andb] in *;
      [|by simplify_eq].
    destruct (decide (0 < length (obj_keys (players room)))) as [Hsome|Hnone].
    + rewrite bool_decide_eq_false_2; [by simplify_eq|].
      intros Hnil. rewrite Hnil in Hsome. cbn in Hsome. lia.
    + rewrite bool_decide_eq_true_2; cycle 1.
      { unfold obj_keys in Hnone. destruct (players room); [done|cbn in Hnone; lia]. }
      destruct (questions _ !! questionIndex _) as [q|]; [|done]. cbn in Hh. simplify_eq.
      split; [apply count_event_self|]. intros _. cbn [rooms]. by rewrite lookup_insert_eq.
Qed.

Lemma hostNext_accepted sock rid sv sv' out :
  hostNext W QUESTION_BANK sock rid sv = Some (sv', out) → out ≠ [] →
  ∃ room, rooms sv !! rid = Some room ∧ hostId room = sock ∧ state room = showing_answer.
Proof.
  unfold hostNext. intros Hh Hout.
  destruct (rooms sv !! rid) as [room|]; [|by simplify_eq].
  destruct (String.eqb (hostId room) sock) eqn:Hhost; cbn [negb orb] in Hh; [|by simplify_eq].
  destruct (bool_decide (state room = showing_answer)) eqn:Hst; cbn [negb] in Hh;
    [|by simplify_eq].
  exists room. apply String.eqb_eq in Hhost. by apply bool_decide_eq_true in Hst.
Qed.

End Rounds.

(** ** A game with a round target *)

Section Tally.

Context (W : World) (QUESTION_BANK : list Question).

Local Abbreviation Effect := (Effect W).

Lemma Effect_room_wf sock rid ev o r' out :
  Effect sock rid ev o (Some r') out → (∀ r, o = Some r → room_wf r) → room_wf r'.
Proof.
  unfold room_wf.
  inversion 1; subst; intros Hinv; cbn; try (by apply Hinv); try done.
  - (* exhausted *)
    destruct (Hinv r eq_refl) as [Hne Htot]. rewrite append_new_spec. split.
    + by destruct (questions r).
    + rewrite Htot. by destruct (isUnlimited r).
  - (* the next question *)
    destruct (Hinv r eq_refl) as [Hne Htot].
    match goal with H : _ ∨ _ |- _ => destruct H as [->|[Hunl [new ->]]] end; [done|].
    rewrite append_new_spec. split; [by destruct (questions r)|].
    rewrite Htot. by rewrite Hunl.
Qed.

Lemma run_room_wf evs sv out :
  run W QUESTION_BANK evs init = Some (sv, out) →
  ∀ rid r, rooms sv !! rid = Some r → room_wf r.
Proof.
  intros Hrun. eapply (run_rooms_ind W QUESTION_BANK room_wf); [| |exact Hrun].
  - intros sock rid ev o r' out'. apply Effect_room_wf.
  - intros rid r. cbn. by rewrite lookup_empty.
Qed.

Lemma is_start_event rid e : is_start rid e = true → is_event rid "questionStarted" e = true.
Proof. unfold is_start. by intros [? _]%andb_true_iff. Qed.

Lemma tally_step_other rid acc e : is_to_room rid e = false → tally_step rid acc e = acc.
Proof. unfold tally_step, is_start, is_event. by intros ->. Qed.

Lemma fold_tally_to_room rid out acc :
  fold_left (tally_step rid) out acc = fold_left (tally_step rid) (to_room rid out) acc.
Proof.
  revert acc. induction out as [|e out IH]; intros acc; [done|].
  unfold to_room. cbn [fold_left List.filter].
  destruct (is_to_room rid e) eqn:E; cbn [fold_left]; [apply IH|].
  rewrite tally_step_other by done. apply IH.
Qed.

Lemma game_tally_app rid out out' :
  game_tally rid (out ++ out')
  = fold_left (tally_step rid) (to_room rid out') (game_tally rid out).
Proof. unfold game_tally. by rewrite fold_left_app, <-fold_tally_to_room. Qed.

(** With no game opened on the way the tally is the plain count. *)
Lemma fold_tally_no_start rid out acc :
  Forall (λ e, is_start rid e = false) out →
  fold_left (tally_step rid) out acc
  = (acc.1 + count_event rid "questionStarted" out, acc.2 ++ payloads rid "gameOver" out).
Proof.
  revert acc. induction out as [|e out IH]; intros [n ps] Hno.
  { cbn. f_equal; [lia|by rewrite app_nil_r]. }
  inversion Hno as [|? ? He Hout]; subst. cbn [fold_left]. rewrite IH by done.
  unfold tally_step. rewrite He. unfold count_event, payloads. cbn [List.filter fst snd].
  destruct (is_event rid "questionStarted" e) eqn:E1.
  - assert (is_event rid "gameOver" e = false) as ->.
    { unfold is_event in E1 |- *. apply andb_true_iff in E1 as [_ ->%String.eqb_eq].
      by rewrite andb_false_r. }
    cbn. f_equal. lia.
  - destruct (is_event rid "gameOver" e) eqn:E2; cbn; [|done].
    by rewrite <-app_assoc.
Qed.

(** So for a game opened once, at [e], the tally counts every
    [questionStarted] and every [gameOver] from [e] on. *)
Lemma game_tally_single_start rid out0 e out :
  is_start rid e = true → Forall (λ e, is_start rid e = false) out →
  game_tally rid (out0 ++ e :: out)
  = (count_event rid "questionStarted" (e :: out), payloads rid "gameOver" (e :: out)).
Proof.
  intros He Hno. unfold game_tally. rewrite fold_left_app. cbn [fold_left].
  unfold tally_step at 2. rewrite He, fold_tally_no_start by done.
  apply is_start_event in He. unfold count_event, payloads. cbn [List.filter].
  rewrite He. unfold is_event in He |- *. apply andb_true_iff in He as [-> Hname].
  apply String.eqb_eq in Hname as ->. done.
Qed.

(** The broadcast of [startGame] opens a tally. *)
Lemma tally_step_start rid acc r t q :
  tally_step rid acc
    (mkEmit (ToRoom rid) "questionStarted"
       (questionStarted_payload W (open_round t (set_questionIndex 0 r)) q))
  = (1, []).
Proof.
  unfold tally_step, is_start, is_event, is_to_room. cbn. by rewrite String.eqb_refl.
Qed.

(** The [questionStarted] of [hostNext] counts one more. *)
Lemma tally_step_next rid acc r qs t q :
  tally_step rid acc
    (mkEmit (ToRoom rid) "questionStarted"
       (questionStarted_payload W
          (open_round t (set_questions qs (set_questionIndex (questionIndex r + 1) r))) q))
  = (S acc.1, acc.2).
Proof.
  unfold tally_step, is_start, is_event, is_to_room. cbn. rewrite String.eqb_refl. cbn.
  rewrite bool_decide_eq_false_2; [done|]. intros [=]. lia.
Qed.

Lemma tally_step_gameOver rid acc t :
  tally_step rid acc (gameOver rid t) = (acc.1, acc.2 ++ [JObj [("totalRounds", t)]]).
Proof. unfold tally_step, is_start, is_event, is_to_room. cbn. by rewrite String.eqb_refl. Qed.

Lemma tally_step_showAnswer rid acc payload :
  tally_step rid acc (mkEmit (ToRoom rid) "showAnswer" payload) = acc.
Proof. unfold tally_step, is_start, is_event, is_to_room. cbn. by rewrite String.eqb_refl. Qed.

Lemma tally_step_errorMessage rid acc payload :
  tally_step rid acc (mkEmit (ToRoom rid) "errorMessage" payload) = acc.
Proof. unfold tally_step, is_start, is_event, is_to_room. cbn. by rewrite String.eqb_refl. Qed.

Lemma Effect_game_inv sock rid ev o o' out acc :
  Effect sock rid ev o o' out →
  (∀ r, o = Some r → room_wf r) →
  game_inv o acc → game_inv o' (fold_left (tally_step rid) out acc).
Proof.
  unfold game_inv.
  inversion 1; subst; intros Hwf Hinv r' Hr' Hfix; simplify_eq; cbn [fold_left];
    rewrite ?tally_step_start, ?tally_step_next, ?tally_step_gameOver,
      ?tally_step_showAnswer, ?tally_step_errorMessage;
    cbn in Hfix |- *; try (by apply Hinv).
  - (* create *) split; [congruence|]. intros [?|?]; congruence.
  - (* start *)
    split; [done|]. intros _. split; [done|]. by eapply lookup_lt_Some.
  - (* done, and reveal *)
    split; [done|]. intros _. apply (Hinv r eq_refl Hfix). by left.
  - (* reveal *)
    split; [done|]. intros _. apply (Hinv r eq_refl Hfix). by left.
  - (* the target is reached *)
    destruct (Hinv r eq_refl Hfix) as [_ Hopen].
    destruct Hopen as [-> Hlt]; [by right|].
    destruct (Hwf r eq_refl) as [_ Htot]. rewrite Hfix in Htot.
    match goal with H : reached _ _ = true |- _ => rename H into Hreach end.
    rewrite Htot in Hreach |- *. cbn in Hreach. apply bool_decide_eq_true in Hreach.
    split; [|intros [?|?]; done]. intros _. cbn. unfold gameOver_payload.
    repeat f_equal; lia.
  - (* exhausted: only without a target *) congruence.
  - (* the next question *)
    destruct (Hinv r eq_refl Hfix) as [_ Hopen].
    destruct Hopen as [-> Hlt]; [by right|].
    match goal with H : _ ∨ _ |- _ => destruct H as [->|[Hunl _]] end; [|congruence].
    split; [done|]. intros _. cbn. split; [f_equal; lia|]. by eapply lookup_lt_Some.
Qed.

Lemma run_game_inv evs sv sv' out0 out :
  (∀ rid r, rooms sv !! rid = Some r → room_wf r) →
  (∀ rid, game_inv (rooms sv !! rid) (game_tally rid out0)) →
  run W QUESTION_BANK evs sv = Some (sv', out) →
  ∀ rid, game_inv (rooms sv' !! rid) (game_tally rid (out0 ++ out)).
Proof.
  revert sv out0 out.
  induction evs as [|[sock ev] evs IH]; intros sv out0 out Hwf Hinv Hrun.
  { cbn in Hrun. simplify_eq. by rewrite app_nil_r. }
  cbn in Hrun.
  destruct (handle W QUESTION_BANK sock ev sv) as [[sv1 out1]|] eqn:Hh; cbn in Hrun; [|done].
  destruct (run W QUESTION_BANK evs sv1) as [[sv2 out2]|] eqn:Hr; cbn in Hrun; [|done].
  simplify_eq. rewrite app_assoc. apply (IH sv1); [| |done].
  - intros rid r Hroom.
    pose proof (handle_Effect W QUESTION_BANK _ _ _ _ _ rid Hh) as He. rewrite Hroom in He.
    eapply Effect_room_wf; [exact He|]. intros r0 Hr0. by apply (Hwf rid).
  - intros rid. rewrite game_tally_app.
    eapply Effect_game_inv;
      [exact (handle_Effect W QUESTION_BANK _ _ _ _ _ rid Hh)| |apply Hinv].
    intros r Hr0. by apply (Hwf rid).
Qed.

End Tally.

(** ** No handler raises on a registry a run has reached *)

Section Progress.

Context (W : World) (QUESTION_BANK : list Question).

Lemma Effect_room_ok sock rid ev o r' out :
  Effect W sock rid ev o (Some r') out → (∀ r, o = Some r → room_ok r) → room_ok r'.
Proof.
  intros He Hinv. split.
  { eapply Effect_room_wf; [exact He|]. intros r Hr. by apply Hinv. }
  unfold cursor_valid.
  inversion He; subst; cbn; try (by apply Hinv); try (intros [?|?]; done).
  - (* create *) intros [?|?]; congruence.
  - (* start *) intros _. by eapply lookup_lt_Some.
  - (* done, and reveal *) intros _. by eapply lookup_lt_Some.
  - (* reveal *) intros _. by eapply lookup_lt_Some.
  - (* the next question *) intros _. by eapply lookup_lt_Some.
Qed.

Lemma run_room_ok evs sv out :
  run W QUESTION_BANK evs init = Some (sv, out) →
  ∀ rid r, rooms sv !! rid = Some r → room_ok r.
Proof.
  intros Hrun. eapply (run_rooms_ind W QUESTION_BANK room_ok); [| |exact Hrun].
  - intros sock rid ev o r' out'. apply Effect_room_ok.
  - intros rid r. cbn. by rewrite lookup_empty.
Qed.

Lemma handle_progress sock ev sv :
  (∀ rid r, rooms sv !! rid = Some r → room_ok r) →
  is_Some (handle W QUESTION_BANK sock ev sv).
Proof.
  intros Hok. destruct ev as [req|rid name|rid|rid answer|rid|rid|]; cbn [handle].
  - unfold createRoom. destruct (createRoomId W (cursor sv)) as [rid k].
    destruct (selectQuestions W QUESTION_BANK _ _ _ _ _ _ k) as [qs k'].
    by destruct (bool_decide (qs = [])).
  - unfold joinRoom. destruct (rooms sv !! rid) as [room|] eqn:Hroom; [|done].
    destruct (String.eqb (hostId room) sock); [done|].
    destruct (Hok rid room Hroom) as [_ Hcur]. unfold getPublicRoomState.
    cbn [state questions questionIndex set_players].
    destruct (bool_decide (state room = in_question) || bool_decide (state room = showing_answer))
      eqn:Hst; [|done].
    destruct (lookup_lt_is_Some_2 (questions room) (questionIndex room)) as [q ->]; [|done].
    apply Hcur. apply orb_true_iff in Hst as [Hst|Hst]; apply bool_decide_eq_true in Hst; tauto.
  - unfold startGame. destruct (rooms sv !! rid) as [room|] eqn:Hroom; [|done].
    destruct (negb _); [done|]. cbn.
    destruct (Hok rid room Hroom) as [[Hne _] _].
    by destruct (questions room).
  - unfold playerDone. destruct (rooms sv !! rid) as [room|] eqn:Hroom; [|done].
    destruct (bool_decide (state room = in_question)) eqn:Hst; [|done].
    apply bool_decide_eq_true in Hst. cbn [negb orb].
    destruct (negb _); [done|]. destruct (bool_decide (sock ∈ done room)); [done|]. cbn.
    destruct (decide (_ <= _)); [|done].
    destruct (Hok rid room Hroom) as [_ Hcur].
    destruct (lookup_lt_is_Some_2 (questions room) (questionIndex room)) as [q ->]; [|done].
    apply Hcur. by left.
  - unfold hostRevealAnswer. destruct (rooms sv !! rid) as [room|] eqn:Hroom; [|done].
    destruct (negb (String.eqb _ _)); [done|].
    destruct (bool_decide (state room = in_question)) eqn:Hst; [|done].
    apply bool_decide_eq_true in Hst. cbn [negb orb].
    destruct (decide (0 < _)); [done|].
    destruct (Hok rid room Hroom) as [_ Hcur].
    destruct (lookup_lt_is_Some_2 (questions room) (questionIndex room)) as [q ->]; [|done].
    apply Hcur. by left.
  - unfold hostNext. destruct (rooms sv !! rid) as [room|] eqn:Hroom; [|done].
    destruct (negb _ || negb _); [done|].
    destruct (Hok rid room Hroom) as [[Hne Htot] _].
    cbn [isUnlimited totalRounds questionIndex questions set_questionIndex filterParams].
    destruct (isUnlimited room) eqn:Hunl; cbn [negb andb].
    + destruct (bool_decide (length (questions room) <= questionIndex room + 1 + 2)) eqn:Hlow.
      * destruct (selectQuestions W QUESTION_BANK _ _ _ _ _ _ (cursor sv)) as [new k].
        cbn -[append_new].
        match goal with
        | |- context [bool_decide (length (append_new ?a ?b ?c) <= ?n)] =>
            destruct (bool_decide (length (append_new a b c) <= n)) eqn:Hex
        end; [by eexists|].
        apply bool_decide_eq_false in Hex.
        destruct (lookup_lt_is_Some_2
                    (append_new (list_to_set (ids (questions room))) (questions room) new)
                    (questionIndex room + 1)) as [q ->]; [lia|by eexists].
      * apply bool_decide_eq_false in Hlow. cbn.
        destruct (lookup_lt_is_Some_2 (questions room) (questionIndex room + 1))
          as [q ->]; [lia|done].
    + rewrite Htot. cbn [reached].
      destruct (bool_decide (length (questions room) <= questionIndex room + 1)) eqn:Hr; [done|].
      apply bool_decide_eq_false in Hr. cbn.
      destruct (lookup_lt_is_Some_2 (questions room) (questionIndex room + 1))
        as [q ->]; [lia|done].
  - done.
Qed.

(** Every sequence of events runs to its end: on a registry reached from
    the empty one the cursor of an open round is in range, so no handler
    reads a question that is not there. *)
Lemma run_never_raises evs : is_Some (run W QUESTION_BANK evs init).
Proof.
  assert (Hgen : ∀ evs0 sv0 out0, run W QUESTION_BANK evs0 init = Some (sv0, out0) →
                                  is_Some (run W QUESTION_BANK evs sv0)).
  { induction evs as [|[sock ev] evs IH]; intros evs0 sv0 out0 Hrun0; [done|]. cbn.
    destruct (handle_progress sock ev sv0 (run_room_ok _ _ _ Hrun0)) as [[sv1 out1] Hh].
    rewrite Hh. cbn.
    assert (Hrun1 : run W QUESTION_BANK (evs0 ++ [(sock, ev)]) init
                    = Some (sv1, out0 ++ out1)).
    { rewrite run_app, Hrun0. cbn. rewrite Hh. cbn. by rewrite app_nil_r. }
    by destruct (IH _ _ _ Hrun1) as [[sv2 out2] ->]. }
  by apply (Hgen [] init []).
Qed.

End Progress.

(** * The claims *)

(** ** The two parts of [hostNext] *)

Section TwoParts.
Context (W : World) (QUESTION_BANK : list Question).



End TwoParts.

(** C1. Every sequence of events, arriving on whatever connections, runs
    from the empty registry to a registry in every room of which the
    connections in [done] are keys of [players]. *)
Theorem done_subset_players W QUESTION_BANK evs :
  ∃ sv out,
    run W QUESTION_BANK evs init = Some (sv, out) ∧
    ∀ rid room, rooms sv !! rid = Some room → done room ⊆ player_ids room.
Proof.
  destruct (run_never_raises W QUESTION_BANK evs) as [[sv out] Hrun].
  exists sv, out. split; [done|].
  intros rid room Hroom c Hc. apply player_ids_spec.
  revert c Hc. change (done_registered room).
  eapply (run_rooms_ind W QUESTION_BANK done_registered); [| |exact Hrun|exact Hroom].
  - apply Effect_done_registered.
  - intros rid' r. cbn. by rewrite lookup_empty.
Qed.

Lemma done_subset_players_witness :
  ∃ room, Scenario.room_after Scenario.first_round = Some room ∧
          done room ⊆ player_ids room.
Proof.
  destruct (done_subset_players Scenario.world Scenario.bank Scenario.first_round)
    as (sv & out & Hrun & Hinv).
  destruct (rooms sv !! Scenario.code) as [room|] eqn:Hroom.
  - exists room. split.
    + unfold Scenario.room_after, Scenario.after. by rewrite Hrun.
    + exact (Hinv _ _ Hroom).
  - exfalso.
    assert (F : (fun p => bool_decide (is_Some (rooms p.1 !! Scenario.code))) <$>
                run Scenario.world Scenario.bank Scenario.first_round init = Some true)
      by (vm_compute; reflexivity).
    rewrite Hrun in F. cbn in F. rewrite Hroom in F.
    rewrite bool_decide_eq_false_2 in F by (by intros [? ?]). discriminate.
Defined.

(** C2. In a room that is [in_question], a [playerDone] from a connection
    that is not a key of [players], or from one already in [done], is
    dropped: the registry, so [done] and every other field of the room, is
    what it was, and nothing is sent. *)
Theorem playerDone_ignored W QUESTION_BANK sock rid answer sv room :
  rooms sv !! rid = Some room → state room = in_question →
  obj_get sock (players room) = None ∨ sock ∈ done room →
  handle W QUESTION_BANK sock (PlayerDone rid answer) sv = Some (sv, []).
Proof.
  intros Hroom Hst Hwho. cbn [handle]. unfold playerDone. rewrite Hroom.
  destruct Hwho as [Hnone|Hdone].
  - rewrite Hnone. rewrite (bool_decide_eq_false_2 (is_Some None)) by (by intros [? ?]).
    by rewrite orb_true_r.
  - destruct (negb _ || negb _); [done|]. by rewrite bool_decide_eq_true_2.
Qed.

Lemma playerDone_ignored_witness :
  ∃ room,
    Scenario.room_after Scenario.lobby = Some room ∧ state room = in_question ∧
    obj_get "host" (players room) = None ∧
    handle Scenario.world Scenario.bank "host" (PlayerDone Scenario.code (JNum 2))
      (Scenario.after Scenario.lobby)
    = Some (Scenario.after Scenario.lobby, []).
Proof.
  destruct (Scenario.room_after Scenario.lobby) as [room|] eqn:Hroom;
    [|vm_compute in Hroom; discriminate].
  assert (Hst : state room = in_question).
  { apply (f_equal (option_map state)) in Hroom. vm_compute in Hroom.
    injection Hroom as Hroom. symmetry. exact Hroom. }
  assert (Hpl : obj_get "host" (players room) = None).
  { apply (f_equal (fun o => o ≫= fun r => obj_get "host" (players r))) in Hroom.
    vm_compute in Hroom. symmetry. exact Hroom. }
  exists room. split; [reflexivity|]. split; [exact Hst|]. split; [exact Hpl|].
  apply (playerDone_ignored _ _ _ _ _ _ room); [exact Hroom|exact Hst|left; exact Hpl].
Defined.

(** What the code keeps of one reveal a round. Every sequence of events
    runs from the empty registry, and after it, for every room: since the
    last [questionStarted] broadcast to the room, [showAnswer] was broadcast
    at most once, not yet while the room is [in_question] and exactly once
    while it is [showing_answer]. The event that broadcasts it next is the
    [playerDone] of a registered player, not yet done, after which [done]
    is as large as [players], or the [hostRevealAnswer] of the host of a
    room without players; it broadcasts it once and leaves the room
    [showing_answer], where no event completes a round. (A [startGame]
    sent again broadcasts a [questionStarted] of its own, from which the
    count starts again.) *)
Theorem showAnswer_once_per_round W QUESTION_BANK evs rid :
  ∃ sv out,
    run W QUESTION_BANK evs init = Some (sv, out) ∧
    reveals_in_round rid out <= 1 ∧
    (∀ room, rooms sv !! rid = Some room →
       (state room = in_question → reveals_in_round rid out = 0) ∧
       (state room = showing_answer → reveals_in_round rid out = 1)) ∧
    (∀ sock ev sv' out',
       handle W QUESTION_BANK sock ev sv = Some (sv', out') →
       count_event rid "showAnswer" out' = (if completes sock rid ev sv then 1 else 0) ∧
       (completes sock rid ev sv = true →
        state <$> rooms sv' !! rid = Some showing_answer ∧
        ∀ sock' ev', completes sock' rid ev' sv' = false)) ∧
    (∀ sock sv' out',
       handle W QUESTION_BANK sock (HostNext rid) sv = Some (sv', out') → out' ≠ [] →
       reveals_in_round rid out = 1).
Proof.
  destruct (run_never_raises W QUESTION_BANK evs) as [[sv out] Hrun].
  exists sv, out. split; [done|].
  assert (Hinv : ∀ rid, round_inv (rooms sv !! rid) (reveals_in_round rid out)).
  { apply (run_round_inv W QUESTION_BANK evs init sv [] out); [|done].
    intros rid'. split; [cbn; lia|]. intros r. cbn. by rewrite lookup_empty. }
  destruct (Hinv rid) as [Hle Hst]. split; [done|]. split; [done|]. split.
  - intros sock ev sv' out' Hh.
    destruct (handle_reveals W QUESTION_BANK _ _ _ _ _ rid Hh) as [Hcount Hafter].
    split; [done|]. intros Hc. specialize (Hafter Hc). split; [done|].
    intros sock' ev'. unfold completes.
    destruct (rooms sv' !! rid) as [room'|]; [|done]. cbn in Hafter.
    injection Hafter as Hafter. by rewrite Hafter.
  - intros sock sv' out' Hh Hout. cbn [handle] in Hh.
    destruct (hostNext_accepted W QUESTION_BANK _ _ _ _ _ Hh Hout) as (room & Hroom & _ & Hs).
    by apply (Hst room Hroom).
Qed.

(** C3 at the input where the code departs from it. The first round of a
    room of two players is open; both players finish and [showAnswer] is
    broadcast; the host sends [startGame] again, which [startGame] obeys
    in any state; both players finish again and [showAnswer] is broadcast
    a second time. No [hostNext] has been sent yet: between the first
    [questionStarted] and the [hostNext] that follows, which is accepted,
    [showAnswer] went out twice. *)
Theorem startGame_again_reveals_twice :
  let evs :=
    Scenario.lobby ++
    [ ("ravi", PlayerDone Scenario.code (JNum 3));
      ("mira", PlayerDone Scenario.code (JNum 1));
      ("host", StartGame Scenario.code);
      ("ravi", PlayerDone Scenario.code (JNum 3));
      ("mira", PlayerDone Scenario.code (JNum 1)) ] in
  Forall (fun e : string * Event => ∀ rid, e.2 ≠ HostNext rid) evs ∧
  (fun r : Server * list Emit => e_event <$> to_room Scenario.code r.2) <$>
    run Scenario.world Scenario.bank evs init
  = Some ["questionStarted"; "showAnswer"; "questionStarted"; "showAnswer"] ∧
  (fun r : Server * list Emit => e_event <$> r.2) <$>
    handle Scenario.world Scenario.bank "host" (HostNext Scenario.code) (Scenario.after evs)
  = Some ["questionStarted"].
Proof.
  cbv zeta. split; [|split; vm_compute; reflexivity].
  unfold Scenario.lobby. repeat constructor; intros rid; discriminate.
Qed.

(** C4 at the input where the code departs from it: the game has started
    and reached its second question, the host sends [startGame] again, and
    [questionIndex] falls from 1 to 0. *)
Theorem startGame_rewinds_questionIndex :
  questionIndex <$> Scenario.room_after Scenario.first_round = Some 1 ∧
  questionIndex <$>
    Scenario.room_after (Scenario.first_round ++ [("host", StartGame Scenario.code)])
  = Some 0.
Proof. split; vm_compute; reflexivity. Qed.

(** C5. Whatever a handler sends, a payload that carries a property named
    [answer], [keywords] or [correctOption] belongs to a [showAnswer]; so the
    [questionStarted] of [startGame] and [hostNext] and the room state in
    [joinedRoom] carry none. Nor do they carry the values under another
    name: the [questionStarted] payload and [getPublicRoomState] are the
    same for a question and for the question with its solution blanked. *)
Theorem solution_only_in_showAnswer W QUESTION_BANK sock ev sv sv' out e :
  handle W QUESTION_BANK sock ev sv = Some (sv', out) → e ∈ out →
  (carries_solution (e_payload e) = true → e_event e = "showAnswer") ∧
  (e_event e = "questionStarted" ∨ e_event e = "joinedRoom" →
   carries_solution (e_payload e) = false) ∧
  (∀ room q, questionStarted_payload W room (redact q) = questionStarted_payload W room q) ∧
  (∀ room, getPublicRoomState W (set_questions (redact <$> questions room) room)
           = getPublicRoomState W room).
Proof.
  intros Hh He.
  assert (Hmain : carries_solution (e_payload e) = true → e_event e = "showAnswer");
    cycle 1.
  { split; [done|]. split; [|split; [apply questionStarted_redact|apply getPublicRoomState_redact]].
    intros Hev. destruct (carries_solution (e_payload e)); [|done].
    specialize (Hmain eq_refl). destruct Hev as [Hev|Hev]; rewrite Hmain in Hev; discriminate. }
  destruct ev; cbn [handle] in Hh.
  - (* createRoom *)
    unfold createRoom in Hh.
    destruct (createRoomId W (cursor sv)) as [rid k].
    destruct (selectQuestions W QUESTION_BANK _ _ _ _ _ _ k) as [qs k'].
    destruct (bool_decide (qs = [])); simplify_eq;
      apply list_elem_of_singleton in He as ->; cbn; [done|].
    unfold joinUrl_of. destruct (w_baseUrl W) as [u|]; [|done].
    by destruct (String.eqb u "").
  - (* joinRoom *)
    unfold joinRoom in Hh.
    destruct (rooms sv !! roomId0) as [room|]; simplify_eq;
      [|by apply list_elem_of_singleton in He as ->].
    destruct (String.eqb (hostId room) sock); simplify_eq;
      [by apply list_elem_of_singleton in He as ->|].
    destruct (getPublicRoomState W _) as [view|] eqn:Hview; simplify_eq/=.
    apply elem_of_cons in He as [->|He].
    { by rewrite carries_solution_playerListUpdate. }
    apply list_elem_of_singleton in He as ->. cbn [e_payload].
    apply (carries_solution_public W) in Hview.
    by rewrite carries_solution_joinedRoom.
  - (* startGame *)
    unfold startGame in Hh.
    destruct (rooms sv !! roomId0) as [room|]; simplify_eq; [|by apply elem_of_nil in He].
    destruct (negb _); simplify_eq; [by apply elem_of_nil in He|]. cbn in Hh.
    destruct (questions room !! 0) as [q|]; simplify_eq/=.
    apply list_elem_of_singleton in He as ->. cbn [e_payload].
    by rewrite carries_solution_questionStarted.
  - (* playerDone *)
    unfold playerDone in Hh.
    destruct (rooms sv !! roomId0) as [room|]; simplify_eq; [|by apply elem_of_nil in He].
    destruct (negb _ || negb _); simplify_eq; [by apply elem_of_nil in He|].
    destruct (bool_decide (sock ∈ done room)); simplify_eq; [by apply elem_of_nil in He|].
    cbn in Hh. destruct (decide (_ <= _)) in Hh; simplify_eq; [|by apply elem_of_nil in He].
    destruct (questions room !! questionIndex room) as [q|]; simplify_eq/=.
    by apply list_elem_of_singleton in He as ->.
  - (* hostRevealAnswer *)
    unfold hostRevealAnswer in Hh.
    destruct (rooms sv !! roomId0) as [room|]; simplify_eq; [|by apply elem_of_nil in He].
    destruct (negb _ || negb _); simplify_eq; [by apply elem_of_nil in He|].
    destruct (decide (0 < _)) in Hh; simplify_eq; [by apply elem_of_nil in He|].
    destruct (questions room !! questionIndex room) as [q|]; simplify_eq/=.
    by apply list_elem_of_singleton in He as ->.
  - (* hostNext *)
    pose proof (hostNext_Effect W QUESTION_BANK _ _ _ _ _ roomId0 Hh) as Heff.
    rewrite (hostNext_broadcasts W QUESTION_BANK _ _ _ _ _ Hh) in Heff. clear Hh.
    inversion Heff; subst; try (by apply elem_of_nil in He);
      apply list_elem_of_singleton in He as ->;
      rewrite ?carries_solution_gameOver, ?carries_solution_rounds; cbn [e_payload];
      rewrite ?carries_solution_questionStarted; done.
  - (* disconnect *)
    unfold disconnect in Hh. simplify_eq.
    apply list_elem_of_In, in_flat_map in He as [[rid room] [_ He]].
    apply list_elem_of_In in He. unfold disconnect_room in He.
    destruct (String.eqb (hostId room) sock); cbn in He.
    { by apply list_elem_of_singleton in He as ->. }
    destruct (bool_decide _); cbn in He; [|by apply elem_of_nil in He].
    destruct (String.eqb _ ""); [by apply elem_of_nil in He|].
    apply list_elem_of_singleton in He as ->.
    by rewrite carries_solution_playerListUpdate.
Qed.

Lemma solution_only_in_showAnswer_witness :
  match handle Scenario.world Scenario.bank "host" (HostNext Scenario.code)
          (Scenario.after (Scenario.lobby ++
             [("ravi", PlayerDone Scenario.code (JNum 3));
              ("mira", PlayerDone Scenario.code (JNum 1))])) with
  | Some (_, e :: _) =>
      e_event e = "questionStarted" ∧ carries_solution (e_payload e) = false
  | _ => False
  end.
Proof.
  destruct (handle _ _ _ _ _) as [[sv' [|e out]]|] eqn:Hh;
    [vm_compute in Hh; discriminate| |vm_compute in Hh; discriminate].
  assert (Hev : e_event e = "questionStarted").
  { apply (f_equal (fun o => (fun p => e_event <$> head p.2) <$> o)) in Hh.
    vm_compute in Hh. injection Hh as Hh. symmetry. exact Hh. }
  split; [exact Hev|].
  apply (solution_only_in_showAnswer _ _ _ _ _ _ _ e Hh); [left|left; exact Hev].
Defined.

(** C6, as the code has it. [selectQuestions] takes no exclusion set from
    its caller: each call starts from an empty one. Over a bank whose ids
    are distinct (the merge of the question packs keeps them so), the
    questions it returns carry distinct ids, whatever the collaborator and
    the random source do; and it always returns, never with nothing. *)
Theorem selectQuestions_distinct_ids W QUESTION_BANK grade subject chapter rounds
    questionType useAi k :
  NoDup (ids QUESTION_BANK) →
  ∃ qs k',
    selectQuestions W QUESTION_BANK grade subject chapter rounds questionType useAi k
    = (qs, k') ∧
    NoDup (ids qs) ∧ qs ≠ [].
Proof.
  intros Hbank.
  pose proof (selectQuestions_NoDup W QUESTION_BANK grade subject chapter rounds
                questionType useAi k Hbank) as Hnd.
  pose proof (selectQuestions_nonempty W QUESTION_BANK grade subject chapter rounds
                questionType useAi k) as Hne.
  destruct (selectQuestions W QUESTION_BANK _ _ _ _ _ _ k) as [qs k'].
  by exists qs, k'.
Qed.

Lemma selectQuestions_distinct_ids_witness :
  NoDup (ids Scenario.bank) ∧
  ∃ qs k',
    selectQuestions Scenario.world Scenario.bank (Some 9%Z) (Some "Mathematics")
      (Some "Number Systems") 5 None false (mkCursor 0 0 0) = (qs, k') ∧
    NoDup (ids qs) ∧ qs ≠ [].
Proof.
  assert (Hbank : NoDup (ids Scenario.bank)).
  { apply (bool_decide_unpack _). by vm_compute. }
  split; [exact Hbank|].
  exact (selectQuestions_distinct_ids Scenario.world Scenario.bank (Some 9%Z)
           (Some "Mathematics") (Some "Number Systems") 5 None false (mkCursor 0 0 0) Hbank).
Defined.

(** C6 as stated fails: a caller that holds the questions of a first call
    and calls again with the same filters, as [hostNext] does, is handed
    an id it already holds. *)
Lemma selectQuestions_repeats_held_ids :
  let first :=
    selectQuestions Scenario.world Scenario.bank (Some 9%Z) (Some "Mathematics")
      (Some "Number Systems") 5 None false (mkCursor 0 0 0) in
  let excludeIds : gset string := list_to_set (ids first.1) in
  let again :=
    selectQuestions Scenario.world Scenario.bank (Some 9%Z) (Some "Mathematics")
      (Some "Number Systems") 5 None false first.2 in
  "g9-m-ns-2" ∈ excludeIds ∧ "g9-m-ns-2" ∈ ids again.1.
Proof. cbv zeta. split; apply (bool_decide_unpack _); by vm_compute. Qed.

(** What the code keeps of a game with a round target. Every sequence of
    events runs from the empty registry, and after it, for every room with
    a round target [T]: if the room is [finished], then since its game was
    last started [questionStarted] was broadcast to it exactly [T] times and
    [gameOver] exactly once, with [totalRounds] equal to [T]; and while a
    round is open or its answer shown, [questionStarted] was broadcast once
    more than the cursor says, the cursor is below [T] and no [gameOver]
    was broadcast. (A [startGame] sent again starts the count again.) *)
Theorem fixed_target_full_run W QUESTION_BANK evs rid :
  ∃ sv out,
    run W QUESTION_BANK evs init = Some (sv, out) ∧
    ∀ room T,
      rooms sv !! rid = Some room → totalRounds room = RoundsNum T →
      (state room = finished →
       game_tally rid out = (T, [JObj [("totalRounds", JNum (Z.of_nat T))]])) ∧
      (state room = in_question ∨ state room = showing_answer →
       game_tally rid out = (questionIndex room + 1, []) ∧ questionIndex room < T).
Proof.
  destruct (run_never_raises W QUESTION_BANK evs) as [[sv out] Hrun].
  exists sv, out. split; [done|]. intros room T Hroom Htot.
  destruct (run_room_wf W QUESTION_BANK _ _ _ Hrun _ _ Hroom) as [Hne Hwf].
  assert (Hunl : isUnlimited room = false).
  { destruct (isUnlimited room); [congruence|done]. }
  rewrite Hunl, Htot in Hwf. injection Hwf as ->.
  assert (Hinv : ∀ rid, game_inv (rooms sv !! rid) (game_tally rid out)).
  { apply (run_game_inv W QUESTION_BANK evs init sv [] out); [| |done].
    - intros rid' r. cbn. by rewrite lookup_empty.
    - intros rid' r. cbn. by rewrite lookup_empty. }
  exact (Hinv rid room Hroom Hunl).
Qed.

(** C7 at the input where the code departs from it. A game of three
    rounds is played alone to its end: three [questionStarted], one
    [gameOver], the room [finished]. The host sends [startGame] again:
    the room is [in_question] again, and played to its end once more, with
    no one leaving, it has been sent six [questionStarted] and two
    [gameOver] for a target of three. *)
Theorem startGame_again_replays_the_game :
  let again :=
    [ ("host", StartGame Scenario.code);
      ("host", HostRevealAnswer Scenario.code); ("host", HostNext Scenario.code);
      ("host", HostRevealAnswer Scenario.code); ("host", HostNext Scenario.code);
      ("host", HostRevealAnswer Scenario.code); ("host", HostNext Scenario.code) ] in
  Forall (fun e : string * Event => e.2 ≠ Disconnect) (Scenario.solo_game ++ again) ∧
  (fun r => (state r, totalRounds r)) <$> Scenario.room_after Scenario.solo_game
  = Some (finished, RoundsNum 3) ∧
  (fun r : Server * list Emit => (count_event Scenario.code "questionStarted" r.2,
             payloads Scenario.code "gameOver" r.2)) <$>
    run Scenario.world Scenario.bank Scenario.solo_game init
  = Some (3, [JObj [("totalRounds", JNum 3)]]) ∧
  state <$> Scenario.room_after (Scenario.solo_game ++ [("host", StartGame Scenario.code)])
  = Some in_question ∧
  (fun r : Server * list Emit => (count_event Scenario.code "questionStarted" r.2,
             payloads Scenario.code "gameOver" r.2)) <$>
    run Scenario.world Scenario.bank (Scenario.solo_game ++ again) init
  = Some (6, [JObj [("totalRounds", JNum 3)]; JObj [("totalRounds", JNum 3)]]) ∧
  (fun r => (state r, totalRounds r)) <$> Scenario.room_after (Scenario.solo_game ++ again)
  = Some (finished, RoundsNum 3).
Proof.
  cbv zeta. split; [|repeat split; vm_compute; reflexivity].
  unfold Scenario.solo_game. repeat constructor; discriminate.
Qed.





(** What the handler of the runs leaves out: an event taken while
    [hostNext] waits. The room is still [showing_answer] with its cursor
    moved, so a second [hostNext] of the host is accepted and moves the
    cursor again, from 2 to 4 here; each of the two handlers, when it goes
    on, broadcasts the question under the cursor, the fifth. *)
Lemma hostNext_taken_again_while_waiting :
  let sv := Scenario.after Scenario.unlimited_game in
  let awaiting (begun : option Begun) : option Server :=
    match begun with Some (Awaiting sv' _) => Some sv' | _ => None end in
  let questionIndex_sent (e : Emit) : string * option JSON :=
    (e_event e,
     match e_payload e with JObj fields => obj_get "questionIndex" fields | _ => None end) in
  (sv1 ← awaiting (hostNext_begin Scenario.world "host" Scenario.code sv);
   sv2 ← awaiting (hostNext_begin Scenario.world "host" Scenario.code sv1);
   room2 ← rooms sv2 !! Scenario.code;
   '(room3, k3, out3) ← hostNext_resume Scenario.world Scenario.code [] room2 (cursor sv2);
   '(room4, k4, out4) ← hostNext_resume Scenario.world Scenario.code [] room3 k3;
   Some (questionIndex <$> rooms sv !! Scenario.code, questionIndex room2, state room2,
         questionIndex_sent <$> out3 ++ out4))
  = Some (Some 2, 4, showing_answer,
          [("questionStarted", Some (JNum 5)); ("questionStarted", Some (JNum 5))]).
Proof. vm_compute. reflexivity. Qed.

(** C9, as the code has it. An event that fails the guard its handler has
    changes nothing, and the handler sends nothing, except [joinRoom], which
    tells the caller alone: "Room not found." for an unknown room id and
    "You are the host." when the caller is the host of the room. The guards
    are those of [guard_fails]: an unknown room id; a caller that is not
    the host ([startGame], [hostRevealAnswer], [hostNext]), not a player or
    already done ([playerDone]); a room that is not [in_question]
    ([playerDone], [hostRevealAnswer]) or not [showing_answer]
    ([hostNext]); players present ([hostRevealAnswer]); a connection that
    is host or player of no room ([disconnect]). A room id that is the name
    of a property of [Object.prototype] ([inherited]), with no room under
    it, is unknown to every handler but [joinRoom], whose guard it passes:
    of [joinRoom] with such an id nothing is said here. *)
Theorem failed_guard_is_dropped W QUESTION_BANK sock ev sv :
  guard_fails sock ev sv = true →
  handle W QUESTION_BANK sock ev sv = Some (sv, refusal sock ev sv) ∧
  (∀ e, e ∈ refusal sock ev sv → e_to e = ToSocket sock ∧ e_event e = "errorMessage") ∧
  ((∀ rid name, ev ≠ JoinRoom rid name) → refusal sock ev sv = []).
Proof.
  intros Hg. split; cycle 1.
  { split; [|by destruct ev; intros Hne; try done; destruct (Hne roomId0 name)].
    destruct ev; cbn [refusal]; try (by intros e []%elem_of_nil).
    by destruct (rooms sv !! roomId0); intros e ->%list_elem_of_singleton. }
  revert Hg.
  destruct ev as [req|rid name|rid|rid answer|rid|rid|]; cbn [guard_fails handle refusal];
    intros Hg; try discriminate.
  - unfold joinRoom. destruct (rooms sv !! rid) as [room|]; [|done]. by rewrite Hg.
  - unfold startGame. destruct (rooms sv !! rid) as [room|]; [|done]. by rewrite Hg.
  - unfold playerDone. destruct (rooms sv !! rid) as [room|]; [|done].
    apply orb_true_iff in Hg as [Hg|Hg]; [by rewrite Hg|].
    rewrite Hg. by destruct (negb _ || negb _).
  - unfold hostRevealAnswer. destruct (rooms sv !! rid) as [room|]; [|done].
    apply orb_true_iff in Hg as [Hg|Hg]; [by rewrite Hg|].
    destruct (negb _ || negb _); [done|].
    apply negb_true_iff, bool_decide_eq_false in Hg.
    destruct (decide (0 < _)) as [|Hn]; [done|]. exfalso. apply Hg.
    unfold obj_keys in Hn. destruct (players room); [done|cbn in Hn; lia].
  - unfold hostNext. destruct (rooms sv !! rid) as [room|]; [|done]. by rewrite Hg.
  - apply bool_decide_eq_true in Hg. unfold disconnect.
    assert (Hrooms : omap (fun room => (disconnect_room sock (roomId room) room).1) (rooms sv)
                     = rooms sv).
    { apply omap_Some_id. intros rid room Hroom.
      destruct (Hg rid room Hroom) as [Hhost Hpl].
      unfold disconnect_room. rewrite (proj2 (String.eqb_neq _ _) Hhost), Hpl.
      by rewrite bool_decide_eq_false_2 by (by intros [? ?]). }
    assert (Hout : flat_map (fun '(roomId, room) => (disconnect_room sock roomId room).2)
                     (map_to_list (rooms sv)) = []).
    { assert (Hall : ∀ p, p ∈ map_to_list (rooms sv) → rooms sv !! p.1 = Some p.2).
      { intros [rid room]. apply elem_of_map_to_list. }
      induction (map_to_list (rooms sv)) as [|[rid room] l IH]; [done|].
      cbn [flat_map]. rewrite IH by (intros p Hp; apply Hall; by right).
      destruct (Hg rid room (Hall (rid, room) ltac:(left))) as [Hhost Hpl].
      unfold disconnect_room. rewrite (proj2 (String.eqb_neq _ _) Hhost), Hpl.
      by rewrite bool_decide_eq_false_2 by (by intros [? ?]). }
    rewrite Hrooms, Hout. by destruct sv.
Qed.

Lemma failed_guard_is_dropped_witness :
  guard_fails "ravi" (JoinRoom "QQQQQ" (Some "Ravi")) (Scenario.after Scenario.lobby) = true ∧
  handle Scenario.world Scenario.bank "ravi" (JoinRoom "QQQQQ" (Some "Ravi"))
    (Scenario.after Scenario.lobby)
  = Some (Scenario.after Scenario.lobby,
          [mkEmit (ToSocket "ravi") "errorMessage" (JStr "Room not found.")]).
Proof.
  assert (Hg : guard_fails "ravi" (JoinRoom "QQQQQ" (Some "Ravi"))
                 (Scenario.after Scenario.lobby) = true) by (vm_compute; reflexivity).
  split; [exact Hg|].
  rewrite (proj1 (failed_guard_is_dropped Scenario.world Scenario.bank "ravi"
                    (JoinRoom "QQQQQ" (Some "Ravi")) (Scenario.after Scenario.lobby) Hg)).
  vm_compute. reflexivity.
Defined.

(** C9 as stated fails in two places. The host of a room who sends
    [joinRoom] for it is refused with a message, though the room is known;
    and [startGame] has no guard on the state of the room: sent by the
    host while the answer of the second round is shown, it is obeyed. *)
Lemma guards_not_all_silent :
  (∃ room, Scenario.room_after Scenario.lobby = Some room ∧
     handle Scenario.world Scenario.bank "host" (JoinRoom Scenario.code (Some "Asha"))
       (Scenario.after Scenario.lobby)
     = Some (Scenario.after Scenario.lobby,
             [mkEmit (ToSocket "host") "errorMessage" (JStr "You are the host.")])) ∧
  (state <$> Scenario.room_after
               (Scenario.first_round ++
                [("ravi", PlayerDone Scenario.code JUndefined);
                 ("mira", PlayerDone Scenario.code JUndefined)])
   = Some showing_answer ∧
   (fun r => (state r, questionIndex r)) <$>
     Scenario.room_after
       (Scenario.first_round ++
        [("ravi", PlayerDone Scenario.code JUndefined);
         ("mira", PlayerDone Scenario.code JUndefined);
         ("host", StartGame Scenario.code)])
   = Some (in_question, 0) ∧
   count_event Scenario.code "questionStarted"
     (default [] (snd <$> handle Scenario.world Scenario.bank "host"
                    (StartGame Scenario.code)
                    (Scenario.after
                       (Scenario.first_round ++
                        [("ravi", PlayerDone Scenario.code JUndefined);
                         ("mira", PlayerDone Scenario.code JUndefined)]))))
   = 1).
Proof.
  split.
  - destruct (Scenario.room_after Scenario.lobby) as [room|] eqn:Hroom;
      [|vm_compute in Hroom; discriminate].
    exists room. split; [reflexivity|].
    assert (Hhost : hostId <$> Scenario.room_after Scenario.lobby = Some "host")
      by (vm_compute; reflexivity).
    rewrite Hroom in Hhost. injection Hhost as Hhost.
    cbn [handle]. unfold joinRoom.
    change (rooms (Scenario.after Scenario.lobby) !! Scenario.code)
      with (Scenario.room_after Scenario.lobby).
    by rewrite Hroom, Hhost.
  - repeat split; vm_compute; reflexivity.
Qed.

(** C10. Whatever the filters, [selectQuestions] returns at least one
    question: when the first two tiers leave nothing, the exclusion set is
    empty and the first attempt of the fallback generator is kept. So
    [createRoom] never takes its "No questions found" branch: it stores a
    room in [waiting] under a fresh code and answers [roomCreated]. *)
Theorem createRoom_always_creates W QUESTION_BANK sock req sv :
  (∀ g s c count k, 0 < count →
     (generateQuestionsFallback W g s c count ∅ k).1.1 ≠ []) ∧
  (∀ grade subject chapter rounds questionType useAi k,
     (selectQuestions W QUESTION_BANK grade subject chapter rounds questionType useAi k).1
     ≠ []) ∧
  ∃ sv' rid room payload,
    createRoom W QUESTION_BANK sock req sv
    = Some (sv', [mkEmit (ToSocket sock) "roomCreated" payload]) ∧
    rooms sv' !! rid = Some room ∧
    hostId room = sock ∧ state room = waiting ∧ questions room ≠ [].
Proof.
  split; [intros; by apply generateQuestionsFallback_nonempty|].
  split; [intros; apply selectQuestions_nonempty|].
  unfold createRoom.
  destruct (createRoomId W (cursor sv)) as [rid k].
  pose proof (selectQuestions_nonempty W QUESTION_BANK (c_grade req) (c_subject req)
    (c_chapter req)
    (if (num_or (c_totalRounds req) 5 =? -1)%Z then 5%Z else num_or (c_totalRounds req) 5)
    None (c_useAi req) k) as Hne.
  destruct (selectQuestions W QUESTION_BANK _ _ _ _ _ _ k) as [qs k']. cbn in Hne.
  rewrite bool_decide_eq_false_2 by done.
  eexists _, rid, _, _. split; [reflexivity|]. cbn [rooms].
  rewrite lookup_insert_eq. split; [reflexivity|].
  by destruct (c_playAsHost req).
Qed.

(** * Further properties of the code *)

(** ** The random helpers *)

Lemma randomBelow_lt W n c : 0 < n → (randomBelow W n c).1 < n.
Proof.
  intros Hn. unfold randomBelow, mbind, Gen_bind, random, mret, Gen_ret. cbn.
  pose proof (N.mod_upper_bound (w_random W (k_rand c)) (N.of_nat n)). lia.
Qed.

Lemma randomBelow_cursor W n c :
  (randomBelow W n c).2 = mkCursor (k_clock c) (S (k_rand c)) (k_ai c).
Proof. done. Qed.

Lemma shuffle_from_cursor {A} W i (arr : list A) c :
  (shuffle_from W i arr c).2 = mkCursor (k_clock c) (k_rand c + i) (k_ai c).
Proof.
  revert arr c. induction i as [|i IH]; intros arr c.
  { destruct c as [kc kr ka]. cbn. by rewrite Nat.add_0_r. }
  cbn [shuffle_from]. unfold mbind, Gen_bind.
  pose proof (randomBelow_cursor W (S i + 1) c) as Hc.
  destruct (randomBelow W (S i + 1) c) as [j c']. cbn in Hc. subst c'.
  rewrite IH. cbn. f_equal. lia.
Qed.

(** X1. [shuffleArray] returns a permutation of its argument, whatever the
    random source answers, and reads the random source once per position
    but the first. *)
Theorem shuffleArray_permutes W {A} (arr : list A) (c : Cursor) :
  (shuffleArray W arr c).1 ≡ₚ arr ∧
  (shuffleArray W arr c).2 = mkCursor (k_clock c) (k_rand c + (length arr - 1)) (k_ai c).
Proof. split; [apply shuffleArray_Permutation|apply shuffle_from_cursor]. Qed.

Lemma randInt_bounds W (min max : Z) (c : Cursor) :
  (min <= max)%Z → (min <= (randInt W min max c).1 <= max)%Z.
Proof.
  intros Hle. unfold randInt, mbind, Gen_bind, mret, Gen_ret.
  pose proof (randomBelow_lt W (Z.to_nat (max - min + 1)) c) as Hlt.
  destruct (randomBelow W _ c) as [r c']. cbn in *. lia.
Qed.

(** X2. [randInt(min, max)] with [min <= max] lies between its bounds,
    both included, and reads the random source once. *)
Theorem randInt_in_range W (min max : Z) (c : Cursor) :
  (min <= max)%Z →
  (min <= (randInt W min max c).1 <= max)%Z ∧
  (randInt W min max c).2 = mkCursor (k_clock c) (S (k_rand c)) (k_ai c).
Proof. intros Hle. split; [by apply randInt_bounds|done]. Qed.

Lemma randInt_in_range_witness :
  (-6 <= (randInt Scenario.world (-6) 9 (mkCursor 0 0 0)).1 <= 9)%Z ∧
  (randInt Scenario.world (-6) 9 (mkCursor 0 0 0)).2 = mkCursor 0 1 0.
Proof. apply (randInt_in_range Scenario.world (-6) 9 (mkCursor 0 0 0)). lia. Defined.

Lemma pickOne_elem W {A} (first : A) (rest : list A) (c : Cursor) :
  (pickOne W first rest c).1 ∈ first :: rest.
Proof.
  unfold pickOne, mbind, Gen_bind, mret, Gen_ret.
  pose proof (randInt_bounds W 0 (Z.of_nat (length rest)) c) as Hr.
  destruct (randInt W 0 _ c) as [i c']. cbn [fst] in *.
  apply list_elem_of_In, nth_In. cbn [length]. lia.
Qed.

(** X3. [pickOne] returns an element of its array, for an array that is
    not empty, and reads the random source once. *)
Theorem pickOne_picks W {A} (first : A) (rest : list A) (c : Cursor) :
  (pickOne W first rest c).1 ∈ first :: rest ∧
  (pickOne W first rest c).2 = mkCursor (k_clock c) (S (k_rand c)) (k_ai c).
Proof. split; [apply pickOne_elem|done]. Qed.

(** ** Room codes and diagram links *)

Lemma createRoomId_from_spec W n c :
  String.length (createRoomId_from W n c).1 = n ∧
  Forall (λ a, a ∈ list_ascii_of_string ROOM_ID_CHARS)
    (list_ascii_of_string (createRoomId_from W n c).1).
Proof.
  revert c. induction n as [|n IH]; intros c; [by split; [|constructor]|].
  cbn [createRoomId_from]. unfold mbind, Gen_bind, mret, Gen_ret.
  pose proof (randomBelow_lt W (String.length ROOM_ID_CHARS) c) as Hlt.
  destruct (randomBelow W _ c) as [i c'].
  specialize (IH c'). destruct (createRoomId_from W n c') as [rest c''].
  cbn [fst] in *. destruct IH as [Hlen Hall]. cbn [String.length list_ascii_of_string].
  split; [by rewrite Hlen|]. constructor; [|done].
  assert (Hi : i < 31) by (apply Hlt; vm_compute; lia). clear Hlt.
  do 31 (destruct i as [|i]; [vm_compute; set_solver|]). lia.
Qed.

(** X4. A room code has five characters, each from the alphabet of
    [createRoomId], which leaves out I, L, O, 0 and 1. *)
Theorem createRoomId_alphabet W (c : Cursor) :
  String.length (createRoomId W c).1 = 5 ∧
  Forall (λ a, a ∈ list_ascii_of_string "ABCDEFGHJKMNPQRSTUVWXYZ23456789")
    (list_ascii_of_string (createRoomId W c).1).
Proof. apply (createRoomId_from_spec W 5 c). Qed.

Lemma filter_safe_chars (l : list ascii) : Forall (λ a, safe_char a = true) (List.filter safe_char l).
Proof. apply Forall_forall. intros a Ha%list_elem_of_In. by apply filter_In in Ha as [_ ?]. Qed.

(** X5. A diagram link is [null] or [/diagrams/<safe>.svg], where [safe]
    is not empty, is made of letters, digits, [_] and [-] only (so it holds
    no [/] and no [.]), and names a file that exists. *)
Theorem getDiagramUrl_sanitised W (diagramId : option string) :
  getDiagramUrl W diagramId = JNull ∨
  ∃ safe,
    getDiagramUrl W diagramId = JStr ("/diagrams/" +:+ safe +:+ ".svg") ∧
    safe ≠ "" ∧
    Forall (λ a, safe_char a = true) (list_ascii_of_string safe) ∧
    ("/"%char ∉ list_ascii_of_string safe) ∧ ("."%char ∉ list_ascii_of_string safe) ∧
    w_diagram_exists W safe = true.
Proof.
  unfold getDiagramUrl. destruct diagramId as [d|]; [|by left].
  destruct (String.eqb d ""); [by left|].
  set (safe := string_of_list_ascii (List.filter safe_char (list_ascii_of_string d))).
  destruct (String.eqb_spec safe "") as [|Hne]; [by left|].
  destruct (w_diagram_exists W safe) eqn:Hex; [|by left].
  right. exists safe. split; [done|]. split; [done|].
  assert (Hall : Forall (λ a, safe_char a = true) (list_ascii_of_string safe)).
  { unfold safe. rewrite list_ascii_of_string_of_list_ascii. apply filter_safe_chars. }
  split; [done|]. rewrite Forall_forall in Hall.
  repeat split; [intros H%Hall|intros H%Hall|done]; by vm_compute in H.
Qed.

(** ** The template generator *)

Lemma string_app_assoc (a b c : string) : (a +:+ b) +:+ c = a +:+ b +:+ c.
Proof.
  induction a as [|x a IH]; [done|].
  change (String x ((a +:+ b) +:+ c) = String x (a +:+ b +:+ c)). by rewrite IH.
Qed.

Lemma prefix_append (a b : string) : String.prefix a (a +:+ b) = true.
Proof.
  induction a as [|x a IH]; [by destruct b|].
  change (String.prefix (String x a) (String x (a +:+ b)) = true). cbn.
  by destruct (ascii_dec x x).
Qed.

Lemma prefix_append_trans (a b s : string) :
  String.prefix (a +:+ b) s = true → String.prefix a s = true.
Proof.
  revert s. induction a as [|x a IH]; intros s; [by destruct s|].
  change (String.prefix (String x (a +:+ b)) s = true → String.prefix (String x a) s = true).
  destruct s as [|y s]; [done|]. cbn. destruct (ascii_dec x y); [apply IH|done].
Qed.

Lemma makeId_prefix W prefix c :
  String.prefix (prefix +:+ "-") (makeId W prefix c).1 = true.
Proof.
  unfold makeId, mbind, Gen_bind, mret, Gen_ret, now, random. cbn [fst].
  rewrite <-(string_app_assoc prefix "-"). apply prefix_append.
Qed.

Lemma makeId_live W g tag c :
  String.prefix ("live-g" +:+ showZ g) (makeId W ("live-g" +:+ showZ g +:+ tag) c).1 = true.
Proof.
  apply (prefix_append_trans _ (tag +:+ "-")).
  rewrite <-(string_app_assoc "live-g" (showZ g)), string_app_assoc, string_app_assoc.
  rewrite <-(string_app_assoc (showZ g) tag "-"), <-(string_app_assoc "live-g").
  apply makeId_prefix.
Qed.

Ltac gen_run :=
  repeat (unfold mbind, Gen_bind, mret, Gen_ret;
          match goal with
          | |- context [let (_, _) := makeId ?W ("live-g" +:+ showZ ?g +:+ ?tag) ?c in _] =>
              pose proof (makeId_live W g tag c);
              destruct (makeId W ("live-g" +:+ showZ g +:+ tag) c) as [? ?]
          | |- context [let (_, _) := makeId ?W ("live-g" +:+ showZ ?g) ?c in _] =>
              pose proof (prefix_append_trans _ _ _ (makeId_prefix W ("live-g" +:+ showZ g) c));
              destruct (makeId W ("live-g" +:+ showZ g) c) as [? ?]
          | |- context [let (_, _) := randInt ?W ?lo ?hi ?c in _] =>
              pose proof (randInt_bounds W lo hi c ltac:(lia));
              destruct (randInt W lo hi c) as [? ?]
          | |- context [let (_, _) := ?m in _] => destruct m as [? ?]
          end).

Lemma NoDup_showZ (l : list Z) : NoDup l → NoDup (showZ <$> l).
Proof. apply (NoDup_fmap_2 showZ). Qed.

Ltac split_ifs :=
  repeat match goal with
         | |- context [if ?b then _ else _] => destruct b
         end.

Ltac distinct_Z :=
  repeat (apply NoDup_cons; split; [rewrite ?elem_of_cons, elem_of_nil; lia|]);
  apply NoDup_nil_2.

Ltac literal_NoDup := apply (bool_decide_unpack _); vm_compute; exact I.

Ltac template_facts :=
  eexists _, _; (split; [reflexivity|]);
  cbn [q_grade q_subject q_chapter q_source q_tags q_diagram q_id q_type q_options
       q_correctOption practice fst] in *;
  repeat match goal with
         | |- _ ∧ _ => split
         | |- _ = _ => first [reflexivity | assumption]
         | |- _ ≠ _ => discriminate
         | |- _ → _ => intros ?
         | |- length _ = _ => reflexivity
         | |- (_ <= _)%Z => lia
         | |- _ ∈ _ => set_solver
         end.

Lemma generateOne_facts W (g : Z) (s c : string) (k : Cursor) :
  ∃ q k', generateOne W g s c k = (q, k') ∧
    q_grade q = g ∧ q_subject q = s ∧ (c ≠ "" → q_chapter q = c) ∧
    q_source q = "practice" ∧ "live" ∈ q_tags q ∧ q_diagram q = None ∧
    String.prefix ("live-g" +:+ showZ g) (q_id q) = true ∧
    q_type q ∈ [QUESTION_TYPES.SHORT; QUESTION_TYPES.MCQ; QUESTION_TYPES.NUMERICAL] ∧
    match q_options q, q_correctOption q with
    | Some options, Some n =>
        q_type q = QUESTION_TYPES.MCQ ∧ length options = 4 ∧ NoDup options ∧ (1 <= n <= 4)%Z
    | None, None => q_type q ≠ QUESTION_TYPES.MCQ
    | _, _ => False
    end.
Proof.
  unfold generateOne.
  destruct (String.eqb_spec s "Mathematics") as [->|_].
  { unfold generateMathQuestion. split_ifs; gen_run; template_facts.
    - apply (NoDup_showZ [_; _; _; _]). distinct_Z.
    - literal_NoDup. }
  destruct (String.eqb_spec s "Science") as [->|_].
  { unfold generateScienceQuestion. split_ifs; gen_run; template_facts. }
  destruct (String.eqb_spec s "Social Science") as [->|_].
  { unfold generateSocialScienceQuestion. split_ifs; gen_run; template_facts.
    literal_NoDup. }
  gen_run. destruct (String.eqb_spec c "") as [->|Hc]; template_facts. done.
Qed.


Lemma generateOne_cursor W g s c k :
  k_clock (generateOne W g s c k).2 = S (k_clock k) ∧ k_ai (generateOne W g s c k).2 = k_ai k.
Proof.
  unfold generateOne, generateMathQuestion, generateScienceQuestion, generateSocialScienceQuestion.
  split_ifs; split; reflexivity.
Qed.

(** X6. A question made by the template generator carries the grade and
    the subject asked for (and the chapter, when one is asked for), the
    source [practice], the tag [live] and no diagram; its id starts with
    [live-g] and the grade; its type is [short], [mcq] or [numerical]; and it
    has options exactly when it is an [mcq], then four distinct ones with
    [correctOption] between 1 and 4. *)
Theorem generateOne_well_formed W (g : Z) (s c : string) (k : Cursor) :
  ∃ q k', generateOne W g s c k = (q, k') ∧
    q_grade q = g ∧ q_subject q = s ∧ (c ≠ "" → q_chapter q = c) ∧
    q_source q = "practice" ∧ "live" ∈ q_tags q ∧ q_diagram q = None ∧
    String.prefix ("live-g" +:+ showZ g) (q_id q) = true ∧
    q_type q ∈ [QUESTION_TYPES.SHORT; QUESTION_TYPES.MCQ; QUESTION_TYPES.NUMERICAL] ∧
    match q_options q, q_correctOption q with
    | Some options, Some n =>
        q_type q = QUESTION_TYPES.MCQ ∧ length options = 4 ∧ NoDup options ∧ (1 <= n <= 4)%Z
    | None, None => q_type q ≠ QUESTION_TYPES.MCQ
    | _, _ => False
    end.
Proof. apply generateOne_facts. Qed.

(** X7. For a chapter on arithmetic progressions the generator asks for
    the n-th term of an AP with first term [a] and common difference [d],
    with [a], [d] and [n] in the ranges of the template, and the option it
    marks as correct, always the first, is [a + (n - 1) d]; no other option
    shows that value. *)
Theorem ap_question_correct_option W (g : Z) (chapter : string) (k : Cursor) :
  includes (toLowerCase chapter) "quadratic" = false →
  includes (toLowerCase chapter) "coordinate" = false →
  includes (toLowerCase chapter) "arithmetic progression"
    || String.eqb chapter "Arithmetic Progressions" = true →
  ∃ a d n q k' options,
    generateMathQuestion W g chapter k = (q, k') ∧
    (-10 <= a <= 15)%Z ∧ (1 <= d <= 9)%Z ∧ (8 <= n <= 18)%Z ∧
    q_question q =
      "In the AP with first term a = " +:+ showZ a +:+ " and common difference d = " +:+
      showZ d +:+ ", find the " +:+ showZ n +:+ "th term." ∧
    q_type q = QUESTION_TYPES.MCQ ∧
    q_correctOption q = Some 1%Z ∧ q_options q = Some options ∧
    ∀ i, options !! i = Some (showZ (a + (n - 1) * d)) ↔ i = 0.
Proof.
  intros Hq Hc Hap. unfold generateMathQuestion. rewrite Hq, Hc, Hap. gen_run.
  cbn [fst] in *.
  match goal with
  | Ha : (-10 <= ?a <= 15)%Z, Hd : (1 <= ?d <= 9)%Z, Hn : (8 <= ?n <= 18)%Z |- _ =>
      exists a, d, n
  end.
  eexists _, _, _. split; [reflexivity|]. cbn [q_question q_type q_correctOption q_options practice].
  do 7 (split; [done|]).
  intros [|[|[|[|i]]]]; cbn; split; try done; intros [= Heq%(inj pretty)]; lia.
Qed.

Lemma ap_question_correct_option_witness :
  ∃ a d n q k' options,
    generateMathQuestion Scenario.world 10 "Arithmetic Progressions" (mkCursor 0 0 0) = (q, k') ∧
    (-10 <= a <= 15)%Z ∧ (1 <= d <= 9)%Z ∧ (8 <= n <= 18)%Z ∧
    q_question q =
      "In the AP with first term a = " +:+ showZ a +:+ " and common difference d = " +:+
      showZ d +:+ ", find the " +:+ showZ n +:+ "th term." ∧
    q_type q = QUESTION_TYPES.MCQ ∧
    q_correctOption q = Some 1%Z ∧ q_options q = Some options ∧
    ∀ i, options !! i = Some (showZ (a + (n - 1) * d)) ↔ i = 0.
Proof.
  apply (ap_question_correct_option Scenario.world 10 "Arithmetic Progressions" (mkCursor 0 0 0));
    vm_compute; reflexivity.
Defined.

(** ** The question bank and the tiers of the selection *)



Lemma fallback_loop_bounded W budget g s c count out excludeIds k :
  ∃ extra excl k',
    fallback_loop W budget g s c count out excludeIds k = (out ++ extra, excl, k') ∧
    (length extra <= count - length out) ∧
    NoDup (ids extra) ∧ (∀ i, i ∈ ids extra → i ∉ excludeIds) ∧
    excl = list_to_set (ids extra) ∪ excludeIds ∧
    Forall (λ q, q_grade q = g ∧ q_subject q = s ∧ q_source q = "practice") extra ∧
    k_clock k' <= k_clock k + budget ∧
    (length (out ++ extra) < count → k_clock k' = k_clock k + budget).
Proof.
  revert out excludeIds k.
  induction budget as [|budget IH]; intros out excludeIds k; cbn [fallback_loop].
  { exists [], excludeIds, k. rewrite app_nil_r.
    repeat split; [cbn; lia|constructor|set_solver|set_solver|constructor|lia|lia]. }
  destruct (decide (length out < count)) as [Hlt|Hge]; cycle 1.
  { exists [], excludeIds, k. rewrite app_nil_r.
    repeat split; [cbn; lia|constructor|set_solver|set_solver|constructor|lia|lia]. }
  unfold mbind, Gen_bind.
  destruct (generateOne_facts W g s c k) as (q & k1 & Hgen & Hg & Hs & _ & Hsrc & _).
  pose proof (generateOne_cursor W g s c k) as [Hclock _].
  rewrite Hgen in Hclock |- *. cbn [snd] in Hclock.
  destruct (decide (q_id q ∈ excludeIds)) as [Hin|Hout].
  - destruct (IH out excludeIds k1) as (extra & excl & k' & -> & Hlen & Hnd & Hfresh & -> & Hall & Hle & Hshort).
    exists extra, (list_to_set (ids extra) ∪ excludeIds), k'.
    repeat split; try done; [lia|]. intros Hl. rewrite (Hshort Hl). lia.
  - destruct (IH (out ++ [q]) ({[q_id q]} ∪ excludeIds) k1)
      as (extra & excl & k' & -> & Hlen & Hnd & Hfresh & -> & Hall & Hle & Hshort).
    exists (q :: extra), (list_to_set (ids (q :: extra)) ∪ excludeIds), k'.
    rewrite <-app_assoc. rewrite length_app in Hlen. cbn in Hlen.
    split; [f_equal; f_equal; cbn; set_solver|].
    split; [cbn; lia|]. split.
    { cbn. apply NoDup_cons. split; [|done]. intros Hq. apply (Hfresh _ Hq). set_solver. }
    split.
    { intros i [->|Hi]%elem_of_cons; [done|]. specialize (Hfresh i Hi). set_solver. }
    split; [done|]. split; [by constructor|]. split; [lia|].
    intros Hl. rewrite <-app_assoc in Hshort. rewrite (Hshort Hl). lia.
Qed.

Lemma generateQuestionsFallback_facts W (g : Z) (s c : string) (count : nat)
    (excludeIds : gset string) (k : Cursor) :
  ∃ out excl k',
    generateQuestionsFallback W g s c count excludeIds k = (out, excl, k') ∧
    (length out <= count) ∧
    NoDup (ids out) ∧ (∀ i, i ∈ ids out → i ∉ excludeIds) ∧
    excl = list_to_set (ids out) ∪ excludeIds ∧
    Forall (λ q, q_grade q = g ∧ q_subject q = s ∧ q_source q = "practice") out ∧
    k_clock k' <= k_clock k + count * 12 ∧
    (length out < count → k_clock k' = k_clock k + count * 12).
Proof.
  unfold generateQuestionsFallback.
  destruct (fallback_loop_bounded W (count * 12) g s c count [] excludeIds k)
    as (extra & excl & k' & Heq & Hlen & H).
  exists extra, excl, k'. cbn in Heq, Hlen, H. split; [done|]. split; [lia|done].
Qed.

(** X9. The fallback generator returns at most [count] questions, with
    ids that are distinct and not in the exclusion set it was given, adds
    those ids to the set, makes every question for the grade and subject
    asked for, and gives up after [12 * count] attempts: it reads the clock
    once per attempt, and when it comes back short it has made them all. *)
Theorem generateQuestionsFallback_bounded W (g : Z) (s c : string) (count : nat)
    (excludeIds : gset string) (k : Cursor) :
  ∃ out excl k',
    generateQuestionsFallback W g s c count excludeIds k = (out, excl, k') ∧
    (length out <= count) ∧
    NoDup (ids out) ∧ (∀ i, i ∈ ids out → i ∉ excludeIds) ∧
    excl = list_to_set (ids out) ∪ excludeIds ∧
    Forall (λ q, q_grade q = g ∧ q_subject q = s ∧ q_source q = "practice") out ∧
    k_clock k' <= k_clock k + count * 12 ∧
    (length out < count → k_clock k' = k_clock k + count * 12).
Proof. apply generateQuestionsFallback_facts. Qed.

Lemma ai_filter_spec generated out excludeIds :
  ∃ extra,
    ai_filter generated out excludeIds = (out ++ extra, list_to_set (ids extra) ∪ excludeIds) ∧
    extra `sublist_of` omap id generated ∧ NoDup (ids extra) ∧
    (∀ q, q ∈ extra → q_id q ≠ "" ∧ q_id q ∉ excludeIds) ∧
    (∀ q, q ∈ omap id generated → q_id q ≠ "" → q_id q ∉ excludeIds → q_id q ∈ ids extra).
Proof.
  revert out excludeIds.
  induction generated as [|[q|] rest IH]; intros out excludeIds; cbn [ai_filter omap list_omap].
  - exists []. rewrite app_nil_r.
    repeat split; [f_equal; set_solver|done|constructor|set_solver|set_solver|set_solver].
  - cbn [id].
    destruct (String.eqb_spec (q_id q) "") as [Hempty|Hid]; cbn [orb].
    { destruct (IH out excludeIds) as (extra & -> & Hsub & Hnd & Hok & Hall).
      exists extra. split; [done|]. split; [by apply sublist_cons|].
      split; [done|]. split; [done|].
      intros q' [->|Hq']%elem_of_cons; [done|by apply Hall]. }
    case_bool_decide as Hin.
    { destruct (IH out excludeIds) as (extra & -> & Hsub & Hnd & Hok & Hall).
      exists extra. split; [done|]. split; [by apply sublist_cons|].
      split; [done|]. split; [done|].
      intros q' [->|Hq']%elem_of_cons; [done|by apply Hall]. }
    destruct (IH (out ++ [q]) ({[q_id q]} ∪ excludeIds)) as (extra & -> & Hsub & Hnd & Hok & Hall).
    exists (q :: extra). rewrite <-app_assoc.
    split; [f_equal; cbn; set_solver|]. split; [by apply sublist_skip|]. split.
    { cbn. apply NoDup_cons. split; [|done].
      intros (q' & Heq & Hq')%list_elem_of_fmap. destruct (Hok q' Hq') as [_ Hq'']. set_solver. }
    split.
    { intros q' [->|Hq']%elem_of_cons; [done|]. destruct (Hok q' Hq'). set_solver. }
    intros q' [->|Hq']%elem_of_cons Hne Hex; [cbn; set_solver|].
    destruct (decide (q_id q' = q_id q)) as [->|Hneq]; [cbn; set_solver|].
    cbn. apply elem_of_cons. right. apply Hall; [done|done|set_solver].
  - apply IH.
Qed.

(** X10. [generateQuestionsAI] returns nothing when the collaborator is
    switched off or fails. Of the candidates the collaborator returns it
    keeps, in order, those that are objects with an id that is not empty,
    not excluded and not seen earlier in the answer; it adds the ids it
    keeps to the exclusion set, and it keeps them all, however many were
    asked for. *)
Theorem generateQuestionsAI_keeps W (excludeIds : gset string) (k : Cursor) :
  ∃ out k',
    generateQuestionsAI W excludeIds k = (out, list_to_set (ids out) ∪ excludeIds, k') ∧
    NoDup (ids out) ∧
    (∀ q, q ∈ out → q_id q ≠ "" ∧ q_id q ∉ excludeIds) ∧
    match w_gemini W (k_ai k) with
    | GeminiReturns generated =>
        out `sublist_of` omap id generated ∧
        ∀ q, q ∈ omap id generated → q_id q ≠ "" → q_id q ∉ excludeIds → q_id q ∈ ids out
    | _ => out = []
    end.
Proof.
  unfold generateQuestionsAI, mbind, Gen_bind, gemini, mret, Gen_ret.
  destruct (w_gemini W (k_ai k)) as [| |generated].
  - eexists [], _. split; [f_equal; f_equal; set_solver|].
    repeat split; [constructor|set_solver|set_solver].
  - eexists [], _. split; [f_equal; f_equal; set_solver|].
    repeat split; [constructor|set_solver|set_solver].
  - destruct (ai_filter_spec generated [] excludeIds) as (extra & Heq & Hsub & Hnd & Hok & Hall).
    rewrite Heq. by eexists extra, _.
Qed.



(** X12. With the collaborator, when its answer holds as many usable
    questions as were requested, [selectQuestions] returns exactly the
    questions [generateQuestionsAI] keeps of that answer: the bank and the
    fallback generator are not used, and the result is not cut down to the
    number requested. *)
Theorem selectQuestions_ai_first W QUESTION_BANK (grade : option Z)
    (subject chapter : option string) (rounds : Z) (questionType : option string)
    (k : Cursor) (generated : list (option Question)) :
  w_gemini W (k_ai k) = GeminiReturns generated →
  requested_of rounds <= length (ai_filter generated [] ∅).1 →
  (selectQuestions W QUESTION_BANK grade subject chapter rounds questionType true k).1
  = (ai_filter generated [] ∅).1.
Proof.
  intros Hai Hlen.
  unfold selectQuestions, tier_ai, generateQuestionsAI, gemini, mbind, Gen_bind, mret, Gen_ret.
  rewrite Hai. destruct (ai_filter generated [] ∅) as [kept excl]. cbn [fst] in Hlen. cbn [app].
  unfold tier_bank. destruct (decide (length kept < requested_of rounds)); [lia|].
  unfold mret, Gen_ret, tier_fallback.
  destruct (decide (length kept < requested_of rounds)); [lia|]. done.
Qed.

Lemma selectQuestions_ai_first_witness :
  requested_of 1 <= length (ai_filter (Some <$> take 2 Scenario.bank) [] ∅).1 ∧
  ids (selectQuestions Examples.ai_world Scenario.bank (Some 9%Z) (Some "Mathematics")
         (Some "Number Systems") 1 None true (mkCursor 0 0 0)).1
  = ["g9-m-ns-1"; "g9-m-ns-2"].
Proof.
  split; [vm_compute; lia|].
  rewrite (selectQuestions_ai_first Examples.ai_world Scenario.bank (Some 9%Z)
             (Some "Mathematics") (Some "Number Systems") 1 None (mkCursor 0 0 0)
             (Some <$> take 2 Scenario.bank)); [reflexivity|reflexivity|vm_compute; lia].
Defined.

(** ** The bookkeeping of the rooms over a run *)

Lemma obj_delete_NoDup {V} k (o : JsObj V) :
  NoDup (obj_keys o) → NoDup (obj_keys (obj_delete k o)).
Proof.
  unfold obj_keys. induction o as [|[k0 v0] o IH]; cbn; [done|].
  intros [Hk0 Hnd]%NoDup_cons. destruct (String.eqb k k0); [by apply IH|].
  cbn. apply NoDup_cons. split; [|by apply IH].
  intros Hin. apply Hk0. clear -Hin. induction o as [|[k1 v1] o IH]; cbn in *; [done|].
  destruct (String.eqb k k1); cbn in *; [right; by apply IH|].
  apply elem_of_cons in Hin as [->|Hin]; [by left|right; by apply IH].
Qed.

Section Bookkeeping.

Context (W : World) (QUESTION_BANK : list Question).

(** The registry after [createRoom]: every key holds what it held, but
    the code drawn, which holds a fresh room. *)
Lemma createRoom_fresh sock req sv sv' out rid :
  createRoom W QUESTION_BANK sock req sv = Some (sv', out) →
  rooms sv' !! rid = rooms sv !! rid ∨
  ∃ r, rooms sv' !! rid = Some r ∧ fresh sock rid r.
Proof.
  unfold createRoom. intros H.
  destruct (createRoomId W (cursor sv)) as [rid' k].
  destruct (selectQuestions W QUESTION_BANK _ _ _ _ _ _ k) as [qs k'].
  destruct (bool_decide (qs = [])) eqn:Hqs; simplify_eq; cbn; [by left|].
  apply bool_decide_eq_false in Hqs.
  destruct (decide (rid' = rid)) as [->|Hne]; [|left; by rewrite lookup_insert_ne].
  right. rewrite lookup_insert_eq. eexists. split; [done|].
  unfold fresh. destruct (c_playAsHost req); cbn.
  all: repeat split; try done.
  all: try by destruct (num_or (c_totalRounds req) 5 =? -1)%Z.
  - right. by eexists.
  - by left.
Qed.

Lemma run_rooms_ind_fresh (P : Room → Prop) :
  (∀ sock rid r, fresh sock rid r → P r) →
  (∀ sock rid ev o r' out,
     (∀ req, ev ≠ CreateRoom req) → Effect W sock rid ev o (Some r') out →
     (∀ r, o = Some r → P r) → P r') →
  ∀ evs sv sv' out,
    (∀ rid r, rooms sv !! rid = Some r → P r) →
    run W QUESTION_BANK evs sv = Some (sv', out) →
    ∀ rid r, rooms sv' !! rid = Some r → P r.
Proof.
  intros Hfresh Hstep evs.
  induction evs as [|[sock ev] evs IH]; intros sv sv' out HP Hrun.
  { cbn in Hrun. by simplify_eq. }
  cbn in Hrun.
  destruct (handle W QUESTION_BANK sock ev sv) as [[sv1 out1]|] eqn:Hh; cbn in Hrun; [|done].
  destruct (run W QUESTION_BANK evs sv1) as [[sv2 out2]|] eqn:Hr; cbn in Hrun; [|done].
  simplify_eq. apply (IH sv1 sv' out2); [|done].
  intros rid r Hr1.
  assert (Hcase : (∃ req, ev = CreateRoom req) ∨ ∀ req, ev ≠ CreateRoom req).
  { destruct ev; [left; by eexists|right; done..]. }
  destruct Hcase as [[req ->]|Hnc].
  - cbn [handle] in Hh.
    destruct (createRoom_fresh _ _ _ _ _ rid Hh) as [Hsame|(r' & Hr' & Hf)].
    + rewrite Hsame in Hr1. by apply (HP rid).
    + rewrite Hr1 in Hr'. simplify_eq. by eapply Hfresh.
  - pose proof (handle_Effect W QUESTION_BANK _ _ _ _ _ rid Hh) as He.
    rewrite Hr1 in He. eapply Hstep; [done|exact He|].
    intros r0 Hr0. by apply (HP rid).
Qed.

Lemma fresh_room_ok sock rid r : fresh sock rid r → room_ok r.
Proof.
  intros (_ & _ & Hst & _ & _ & _ & _ & _ & Hqs & Htot & _). split; [by split|].
  intros [?|?]; congruence.
Qed.

Lemma fresh_room_sound sock rid r : fresh sock rid r → room_sound r.
Proof.
  intros (_ & _ & Hst & Hidx & Hdone & Hft & Hans & Hstart & _ & _ & Hpl).
  unfold room_sound. rewrite Hft, Hans, Hdone, Hidx, Hst.
  split.
  { destruct Hpl as [->|[name ->]]; cbn; [constructor|apply NoDup_singleton]. }
  repeat split; try done; try set_solver; lia.
Qed.

Lemma Effect_room_sound sock rid ev o r' out :
  (∀ req, ev ≠ CreateRoom req) →
  Effect W sock rid ev o (Some r') out →
  (∀ r, o = Some r → room_ok r ∧ room_sound r) → room_sound r'.
Proof.
  intros Hnc He Hinv. unfold room_sound.
  inversion He; subst; try (by apply Hinv); try (by edestruct Hnc).
  all: match goal with
       | H : ∀ r0, Some ?r = Some r0 → _ |- _ =>
           destruct (H r eq_refl) as [[[Hne Htot] Hcur] (Hnd & Hft & Hans & Hwait & Hstart & Hle & Hfin)]
       end.
  all: cbn; repeat split.
  all: try first [ assumption | reflexivity | discriminate | by eexists | by apply Hwait | by apply Hstart | by apply Hfin
                 | congruence | (apply Hstart; congruence) | by apply obj_set_NoDup
                 | by apply obj_delete_NoDup ].
  all: try (intros _; apply Hstart; congruence).
  all: try (rewrite ?dom_insert_L, ?dom_delete_L, ?Hft; reflexivity).
  - lia.
  - case_bool_decide; [|rewrite dom_insert_L]; set_solver.
  - case_bool_decide; [|rewrite dom_insert_L]; set_solver.
  - assert (questionIndex r < length (questions r)) by (apply Hcur; by right). lia.
  - intros _. assert (questionIndex r < length (questions r)) by (apply Hcur; by right).
    match goal with H : isUnlimited r = false |- _ => rewrite H in Htot end.
    match goal with H : reached _ _ = true |- _ => rewrite Htot in H; cbn in H;
      apply bool_decide_eq_true in H end. lia.
  - assert (questionIndex r < length (questions r)) by (apply Hcur; by right).
    rewrite append_new_spec, length_app. lia.
  - intros _. assert (questionIndex r < length (questions r)) by (apply Hcur; by right).
    match goal with H : length (append_new _ _ _) <= _ |- _ => revert H end.
    rewrite append_new_spec, length_app. lia.
  - match goal with H : _ !! _ = Some _ |- _ => apply lookup_lt_Some in H end. lia.
  - rewrite dom_delete_L. set_solver.
  - match goal with H : state r = waiting |- _ => destruct (Hwait H) as (_ & Hd & _) end.
    rewrite Hd. set_solver.
Qed.

Lemma run_room_sound evs sv out :
  run W QUESTION_BANK evs init = Some (sv, out) →
  ∀ rid r, rooms sv !! rid = Some r → room_ok r ∧ room_sound r.
Proof.
  intros Hrun.
  eapply (run_rooms_ind_fresh (λ r, room_ok r ∧ room_sound r)); [| | |exact Hrun].
  - intros sock rid r Hf. split; [by eapply fresh_room_ok|by eapply fresh_room_sound].
  - intros sock rid ev o r' out' Hnc He Hinv. split.
    + eapply Effect_room_ok; [exact He|]. intros r Hr. by apply Hinv.
    + by eapply Effect_room_sound.
  - intros rid r. cbn. by rewrite lookup_empty.
Qed.

End Bookkeeping.

(** X13. After any sequence of events, in every room the connections
    with a finish time recorded are exactly those in [done], and an answer
    is recorded only for a connection in [done]. *)
Theorem finish_times_follow_done W QUESTION_BANK (evs : list (string * Event)) :
  ∃ sv out,
    run W QUESTION_BANK evs init = Some (sv, out) ∧
    ∀ rid room, rooms sv !! rid = Some room →
      dom (finishTimes room) = done room ∧ dom (answers room) ⊆ done room.
Proof.
  destruct (run_never_raises W QUESTION_BANK evs) as [[sv out] Hrun].
  exists sv, out. split; [done|]. intros rid room Hroom.
  destruct (run_room_sound W QUESTION_BANK _ _ _ Hrun _ _ Hroom) as [_ (_ & Hft & Hans & _)].
  done.
Qed.

(** X14. After any sequence of events, a room that is still [waiting]
    has its cursor at 0, nobody in [done] and no start time, and a room in
    any other state has a start time: the finish time [playerDone] records
    is never measured from [null]. *)
Theorem started_rooms_have_start_time W QUESTION_BANK (evs : list (string * Event)) :
  ∃ sv out,
    run W QUESTION_BANK evs init = Some (sv, out) ∧
    ∀ rid room, rooms sv !! rid = Some room →
      (state room = waiting →
       questionIndex room = 0 ∧ done room = ∅ ∧ startTime room = None) ∧
      (state room ≠ waiting → is_Some (startTime room)).
Proof.
  destruct (run_never_raises W QUESTION_BANK evs) as [[sv out] Hrun].
  exists sv, out. split; [done|]. intros rid room Hroom.
  destruct (run_room_sound W QUESTION_BANK _ _ _ Hrun _ _ Hroom)
    as [_ (_ & _ & _ & Hwait & Hstart & _)].
  done.
Qed.

(** X15. After any sequence of events, in every room the queue of
    questions is not empty, and [totalRounds] is its length unless the room
    is unlimited, and ['Unlimited'] when it is. In a room with a round
    target, whose [hostNext] never waits, the cursor is at most the length
    of the queue: below it while a round is open or its answer shown, so
    that the question under the cursor exists, and equal to it once the
    room is [finished]. *)
Theorem cursor_within_queue W QUESTION_BANK (evs : list (string * Event)) :
  ∃ sv out,
    run W QUESTION_BANK evs init = Some (sv, out) ∧
    ∀ rid room, rooms sv !! rid = Some room →
      questions room ≠ [] ∧
      totalRounds room =
        (if isUnlimited room then RoundsUnlimited
         else RoundsNum (length (questions room))) ∧
      (isUnlimited room = false →
       questionIndex room <= length (questions room) ∧
       (state room = in_question ∨ state room = showing_answer →
        is_Some (questions room !! questionIndex room)) ∧
       (state room = finished → questionIndex room = length (questions room))).
Proof.
  destruct (run_never_raises W QUESTION_BANK evs) as [[sv out] Hrun].
  exists sv, out. split; [done|]. intros rid room Hroom.
  destruct (run_room_sound W QUESTION_BANK _ _ _ Hrun _ _ Hroom)
    as [[[Hne Htot] Hcur] (_ & _ & _ & _ & _ & Hle & Hfin)].
  repeat split; try done. intros Hopen. apply lookup_lt_is_Some. by apply Hcur.
Qed.

(** ** What one event can touch *)

Section Frame.
Context (W : World) (QUESTION_BANK : list Question).

Lemma handle_elsewhere sock ev sv sv' out rid0 rid :
  handle W QUESTION_BANK sock ev sv = Some (sv', out) →
  event_room ev = Some rid0 → rid ≠ rid0 →
  rooms sv' !! rid = rooms sv !! rid ∧ to_room rid out = [].
Proof.
  intros Hh Hev Hne.
  pose proof (handle_Effect W QUESTION_BANK _ _ _ _ _ rid Hh) as He.
  inversion He; subst; cbn in Hev; try done; simplify_eq.
Qed.

Lemma handle_static sock ev sv sv' out rid r r' :
  handle W QUESTION_BANK sock ev sv = Some (sv', out) →
  (∀ req, ev ≠ CreateRoom req) →
  rooms sv !! rid = Some r → rooms sv' !! rid = Some r' →
  roomId r' = roomId r ∧ hostId r' = hostId r ∧ hostName r' = hostName r ∧
  totalRounds r' = totalRounds r ∧ isUnlimited r' = isUnlimited r ∧
  filterParams r' = filterParams r ∧
  (isUnlimited r = false → questions r' = questions r).
Proof.
  intros Hh Hnc Hr Hr'.
  pose proof (handle_Effect W QUESTION_BANK _ _ _ _ _ rid Hh) as He.
  rewrite Hr, Hr' in He.
  inversion He; subst; cbn; try done; try (by edestruct Hnc).
  - repeat split; try done. congruence.
  - repeat split; try done. intros Hfix.
    match goal with H : _ ∨ _ |- _ => destruct H as [->|[? _]] end; [done|congruence].
Qed.

Lemma handle_dom sock ev sv sv' out :
  handle W QUESTION_BANK sock ev sv = Some (sv', out) →
  (∀ req, ev ≠ CreateRoom req) → ev ≠ Disconnect →
  dom (rooms sv') = dom (rooms sv).
Proof.
  intros Hh Hnc Hnd. apply set_eq. intros rid. rewrite !elem_of_dom.
  pose proof (handle_Effect W QUESTION_BANK _ _ _ _ _ rid Hh) as He.
  inversion He; subst; try done; try (by edestruct Hnc);
    match goal with H1 : _ = rooms sv !! rid, H2 : _ = rooms sv' !! rid |- _ =>
      rewrite <-H1, <-H2 end; split; by eexists.
Qed.
End Frame.

Section Targets.
Context (W : World) (QUESTION_BANK : list Question).

Lemma disconnect_targets sock (l : list (string * Room)) e :
  e ∈ flat_map (fun '(roomId, room) => snd (disconnect_room sock roomId room)) l →
  ∃ rid r, (rid, r) ∈ l ∧
    (hostId r = sock ∨ is_Some (obj_get sock (players r))) ∧
    (e_to e = ToRoom rid ∨ e_to e = ToSocket (hostId r)).
Proof.
  intros Hin%list_elem_of_In. apply in_flat_map in Hin as ([rid r] & Hl%list_elem_of_In & He%list_elem_of_In).
  exists rid, r. split; [done|]. unfold disconnect_room in He.
  destruct (String.eqb_spec (hostId r) sock) as [Hhost|Hhost]; cbn in He.
  { apply list_elem_of_singleton in He as ->. split; [by left|by left]. }
  case_bool_decide as Hpl; cbn in He; [|by apply elem_of_nil in He].
  split; [by right|]. destruct (String.eqb (hostId r) ""); [by apply elem_of_nil in He|].
  apply list_elem_of_singleton in He as ->. by right.
Qed.

Ltac handler_cases Hh :=
  repeat first
    [ progress (cbn in Hh; simplify_eq)
    | match type of Hh with
      | context [match ?x with _ => _ end] => destruct x eqn:?
      | context [mbind _ ?x] => destruct x eqn:?
      end ].

Lemma handle_targets sock ev sv sv' out e :
  handle W QUESTION_BANK sock ev sv = Some (sv', out) → e ∈ out →
  e_to e = ToSocket sock ∨
  ∃ rid r, rooms sv !! rid = Some r ∧
    (event_room ev = Some rid ∨
     ev = Disconnect ∧ (hostId r = sock ∨ is_Some (obj_get sock (players r)))) ∧
    (e_to e = ToRoom rid ∨ e_to e = ToSocket (hostId r)).
Proof.
  intros Hh He. destruct ev as [req|rid name|rid|rid answer|rid|rid|]; cbn [handle] in Hh.
  - unfold createRoom in Hh. repeat case_match; simplify_eq;
      apply list_elem_of_singleton in He as ->; by left.
  - unfold joinRoom in Hh. destruct (rooms sv !! rid) as [room|] eqn:Hroom; cbn in Hh; simplify_eq.
    2: { apply list_elem_of_singleton in He as ->. by left. }
    destruct (String.eqb (hostId room) sock); cbn in Hh; simplify_eq.
    { apply list_elem_of_singleton in He as ->. by left. }
    destruct (getPublicRoomState W _); simplify_eq/=.
    apply elem_of_cons in He as [->|He].
    + right. exists rid, room. split; [done|]. split; [by left|]. by right.
    + apply list_elem_of_singleton in He as ->. by left.
  - unfold startGame in Hh. destruct (rooms sv !! rid) as [room|] eqn:Hroom; cbn in Hh; simplify_eq.
    2: { by apply elem_of_nil in He. }
    handler_cases Hh; try (by apply elem_of_nil in He).
    all: apply list_elem_of_singleton in He as ->.
    all: right; exists rid, room; (split; [done|]); (split; [by left|]); by left.
  - unfold playerDone in Hh. destruct (rooms sv !! rid) as [room|] eqn:Hroom; cbn in Hh; simplify_eq.
    2: { by apply elem_of_nil in He. }
    handler_cases Hh; try (by apply elem_of_nil in He).
    all: apply list_elem_of_singleton in He as ->.
    all: right; exists rid, room; (split; [done|]); (split; [by left|]); by left.
  - unfold hostRevealAnswer in Hh. destruct (rooms sv !! rid) as [room|] eqn:Hroom; cbn in Hh; simplify_eq.
    2: { by apply elem_of_nil in He. }
    handler_cases Hh; try (by apply elem_of_nil in He).
    all: apply list_elem_of_singleton in He as ->.
    all: right; exists rid, room; (split; [done|]); (split; [by left|]); by left.
  - unfold hostNext in Hh. destruct (rooms sv !! rid) as [room|] eqn:Hroom; cbn in Hh; simplify_eq.
    2: { by apply elem_of_nil in He. }
    assert (Hall : e_to e = ToRoom rid); [|right; exists rid, room; by eauto].
    unfold gameOver in Hh.
    handler_cases Hh; try (by apply elem_of_nil in He);
      by apply list_elem_of_singleton in He as ->.
  - unfold disconnect in Hh. simplify_eq.
    apply disconnect_targets in He as (rid & r & Hin%elem_of_map_to_list & Hwho & Hto).
    right. exists rid, r. split; [done|]. split; [by right|done].
Qed.
End Targets.

(** X16. An event that names a room leaves every other room of the
    registry as it was and broadcasts nothing to it. *)
Theorem events_touch_one_room W QUESTION_BANK (sock : string) (ev : Event)
    (sv sv' : Server) (out : list Emit) (rid0 rid : string) :
  handle W QUESTION_BANK sock ev sv = Some (sv', out) →
  event_room ev = Some rid0 → rid ≠ rid0 →
  rooms sv' !! rid = rooms sv !! rid ∧ to_room rid out = [].
Proof. apply handle_elsewhere. Qed.

Lemma events_touch_one_room_witness :
  ∃ sv' out,
    handle Scenario.world Scenario.bank "ravi" (PlayerDone Scenario.code (JNum 3))
      (Scenario.after Scenario.lobby) = Some (sv', out) ∧
    rooms sv' !! "QQQQQ" = rooms (Scenario.after Scenario.lobby) !! "QQQQQ" ∧
    to_room "QQQQQ" out = [].
Proof.
  assert (F : is_Some (handle Scenario.world Scenario.bank "ravi"
                         (PlayerDone Scenario.code (JNum 3)) (Scenario.after Scenario.lobby)))
    by (vm_compute; eexists; reflexivity).
  destruct F as [[sv' out] F]. exists sv', out. split; [exact F|].
  apply (events_touch_one_room Scenario.world Scenario.bank "ravi"
           (PlayerDone Scenario.code (JNum 3)) (Scenario.after Scenario.lobby) sv' out
           Scenario.code "QQQQQ" F); [reflexivity|discriminate].
Defined.

(** X17. No event other than [createRoom] adds a room, and none but
    [createRoom] and [disconnect] changes which rooms exist. A room that
    stays keeps its id, its host, the host's name, its round target, its
    mode and its filters, and, unless it is unlimited, its queue of
    questions. *)
Theorem rooms_keep_their_setup W QUESTION_BANK (sock : string) (ev : Event)
    (sv sv' : Server) (out : list Emit) :
  handle W QUESTION_BANK sock ev sv = Some (sv', out) →
  (∀ req, ev ≠ CreateRoom req) →
  dom (rooms sv') ⊆ dom (rooms sv) ∧
  (ev ≠ Disconnect → dom (rooms sv') = dom (rooms sv)) ∧
  ∀ rid r r', rooms sv !! rid = Some r → rooms sv' !! rid = Some r' →
    roomId r' = roomId r ∧ hostId r' = hostId r ∧ hostName r' = hostName r ∧
    totalRounds r' = totalRounds r ∧ isUnlimited r' = isUnlimited r ∧
    filterParams r' = filterParams r ∧
    (isUnlimited r = false → questions r' = questions r).
Proof.
  intros Hh Hnc. split; [|split].
  - intros rid. rewrite !elem_of_dom.
    pose proof (handle_Effect W QUESTION_BANK _ _ _ _ _ rid Hh) as He.
    inversion He; subst; try done; try (by edestruct Hnc);
      try match goal with H1 : _ = rooms sv !! rid |- _ => rewrite <-H1 end;
      try (intros _; by eexists).
  - by eapply handle_dom.
  - intros rid r r'. by eapply handle_static.
Qed.

Lemma rooms_keep_their_setup_witness :
  ∃ sv' out,
    handle Scenario.world Scenario.bank "host" (HostNext Scenario.code)
      (Scenario.after (Scenario.lobby ++ [("ravi", PlayerDone Scenario.code (JNum 3));
                                          ("mira", PlayerDone Scenario.code (JNum 1))]))
    = Some (sv', out) ∧
    dom (rooms sv')
    = dom (rooms (Scenario.after
                    (Scenario.lobby ++ [("ravi", PlayerDone Scenario.code (JNum 3));
                                        ("mira", PlayerDone Scenario.code (JNum 1))]))).
Proof.
  assert (F : is_Some (handle Scenario.world Scenario.bank "host" (HostNext Scenario.code)
      (Scenario.after (Scenario.lobby ++ [("ravi", PlayerDone Scenario.code (JNum 3));
                                          ("mira", PlayerDone Scenario.code (JNum 1))]))))
    by (vm_compute; eexists; reflexivity).
  destruct F as [[sv' out] F]. exists sv', out. split; [exact F|].
  apply (rooms_keep_their_setup Scenario.world Scenario.bank "host" (HostNext Scenario.code)
           _ sv' out F); discriminate.
Defined.

(** X18. Whatever a handler sends goes to the connection the event came
    from, or to a room of the registry, the one the event names or, for
    [disconnect], one the connection hosted or played in: to everyone in
    that room or to its host. *)
Theorem emits_stay_in_the_room W QUESTION_BANK (sock : string) (ev : Event)
    (sv sv' : Server) (out : list Emit) (e : Emit) :
  handle W QUESTION_BANK sock ev sv = Some (sv', out) → e ∈ out →
  e_to e = ToSocket sock ∨
  ∃ rid r, rooms sv !! rid = Some r ∧
    (event_room ev = Some rid ∨
     ev = Disconnect ∧ (hostId r = sock ∨ is_Some (obj_get sock (players r)))) ∧
    (e_to e = ToRoom rid ∨ e_to e = ToSocket (hostId r)).
Proof. apply handle_targets. Qed.

Lemma emits_stay_in_the_room_witness :
  ∃ sv' out,
    handle Scenario.world Scenario.bank "ravi" (JoinRoom Scenario.code (Some "Ravi"))
      (Scenario.after [("host", CreateRoom (Scenario.request 3))]) = Some (sv', out) ∧
    ∀ e, e ∈ out →
      e_to e = ToSocket "ravi" ∨
      ∃ rid r, rooms (Scenario.after [("host", CreateRoom (Scenario.request 3))]) !! rid = Some r ∧
        (event_room (JoinRoom Scenario.code (Some "Ravi")) = Some rid ∨
         JoinRoom Scenario.code (Some "Ravi") = Disconnect ∧
         (hostId r = "ravi" ∨ is_Some (obj_get "ravi" (players r)))) ∧
        (e_to e = ToRoom rid ∨ e_to e = ToSocket (hostId r)).
Proof.
  assert (F : is_Some (handle Scenario.world Scenario.bank "ravi"
                         (JoinRoom Scenario.code (Some "Ravi"))
                         (Scenario.after [("host", CreateRoom (Scenario.request 3))])))
    by (vm_compute; eexists; reflexivity).
  destruct F as [[sv' out] F]. exists sv', out. split; [exact F|]. intros e.
  exact (emits_stay_in_the_room Scenario.world Scenario.bank "ravi"
           (JoinRoom Scenario.code (Some "Ravi"))
           (Scenario.after [("host", CreateRoom (Scenario.request 3))]) sv' out e F).
Defined.

(** ** Leaving *)

Section Leaving.
Context (W : World) (QUESTION_BANK : list Question).

Lemma disconnect_lookup sock sv rid :
  rooms (mkServer (omap (fun room => fst (disconnect_room sock (roomId room) room)) (rooms sv))
           (cursor sv)) !! rid
  = rooms sv !! rid ≫= fun room =>
      if String.eqb (hostId room) sock then None
      else if bool_decide (is_Some (obj_get sock (players room)))
           then Some (without_player sock room) else Some room.
Proof.
  cbn [rooms]. rewrite lookup_omap. destruct (rooms sv !! rid) as [room|]; [|done]. cbn.
  unfold disconnect_room. destruct (String.eqb (hostId room) sock); [done|].
  by case_bool_decide.
Qed.

Lemma disconnect_facts sock sv :
  ∃ sv' out,
    handle W QUESTION_BANK sock Disconnect sv = Some (sv', out) ∧
    cursor sv' = cursor sv ∧
    (∀ rid r, rooms sv !! rid = Some r → hostId r = sock → rooms sv' !! rid = None) ∧
    (∀ rid r, rooms sv !! rid = Some r → hostId r ≠ sock →
       rooms sv' !! rid
       = Some (if bool_decide (is_Some (obj_get sock (players r)))
               then without_player sock r else r)) ∧
    (∀ rid r', rooms sv' !! rid = Some r' →
       hostId r' ≠ sock ∧ obj_get sock (players r') = None).
Proof.
  eexists _, _. cbn [handle]. unfold disconnect. split; [reflexivity|]. split; [done|].
  split; [|split].
  - intros rid r Hr Hhost. rewrite disconnect_lookup, Hr. cbn.
    by rewrite (proj2 (String.eqb_eq _ _) Hhost).
  - intros rid r Hr Hhost. rewrite disconnect_lookup, Hr. cbn.
    rewrite (proj2 (String.eqb_neq _ _) Hhost). by case_bool_decide.
  - intros rid r'. rewrite disconnect_lookup.
    destruct (rooms sv !! rid) as [r|]; [|done]. cbn.
    destruct (String.eqb_spec (hostId r) sock) as [|Hhost]; [done|].
    case_bool_decide as Hpl; intros [= <-].
    + split; [done|]. cbn. rewrite obj_get_delete. by rewrite String.eqb_refl.
    + split; [done|]. destruct (obj_get sock (players r)) eqn:E; [|done].
      exfalso. apply Hpl. by eexists.
Qed.

End Leaving.

(** X19. [disconnect] never raises and reads nothing of the world. It
    deletes every room the connection hosts; in every other room where the
    connection is a player it removes it from [players], [done],
    [finishTimes] and [answers] and changes nothing else (state, cursor and
    queue included); a room where it is neither is left as it is. Afterwards
    no room is hosted by the connection or lists it as a player. *)
Theorem disconnect_forgets W QUESTION_BANK (sock : string) (sv : Server) :
  ∃ sv' out,
    handle W QUESTION_BANK sock Disconnect sv = Some (sv', out) ∧
    cursor sv' = cursor sv ∧
    (∀ rid r, rooms sv !! rid = Some r → hostId r = sock → rooms sv' !! rid = None) ∧
    (∀ rid r, rooms sv !! rid = Some r → hostId r ≠ sock →
       rooms sv' !! rid
       = Some (if bool_decide (is_Some (obj_get sock (players r)))
               then set_tracking (done r ∖ {[sock]}) (delete sock (finishTimes r))
                      (delete sock (answers r))
                      (set_players (obj_delete sock (players r)) r)
               else r)) ∧
    (∀ rid r', rooms sv' !! rid = Some r' →
       hostId r' ≠ sock ∧ obj_get sock (players r') = None).
Proof. apply disconnect_facts. Qed.

Section Stall.
Context (W : World) (QUESTION_BANK : list Question).

Lemma obj_get_keys_length {V} c (o : JsObj V) :
  is_Some (obj_get c o) → 0 < length (obj_keys o).
Proof. destruct o; [by intros [? ?]|cbn; lia]. Qed.

Lemma stalled_room_ignores rid sv room sock' ev :
  rooms sv !! rid = Some room → state room = in_question →
  (∀ c, is_Some (obj_get c (players room)) → c ∈ done room) →
  players room ≠ [] →
  ev = HostRevealAnswer rid ∨ ev = HostNext rid ∨ (∃ answer, ev = PlayerDone rid answer) →
  handle W QUESTION_BANK sock' ev sv = Some (sv, []).
Proof.
  intros Hroom Hstate Hall Hpl [->|[->|[answer ->]]]; cbn [handle].
  - unfold hostRevealAnswer. rewrite Hroom.
    destruct (negb (String.eqb (hostId room) sock')
              || negb (bool_decide (state room = in_question))); [done|].
    destruct (decide (0 < length (obj_keys (players room)))) as [|Hn]; [done|].
    destruct (players room); [done|cbn in Hn; lia].
  - unfold hostNext. rewrite Hroom, Hstate. cbn. by rewrite orb_true_r.
  - unfold playerDone. rewrite Hroom.
    destruct (negb (bool_decide (state room = in_question))
              || negb (bool_decide (is_Some (obj_get sock' (players room))))) eqn:E; [done|].
    apply orb_false_iff in E as [_ E]. apply negb_false_iff, bool_decide_eq_true in E.
    by rewrite (bool_decide_eq_true_2 _ (Hall _ E)).
Qed.

End Stall.

(** X20. [disconnect] never reveals an answer. When a player who is not
    done leaves a room with an open round in which every other player is
    done, and some player remains, nothing is broadcast to the room and the
    round stays open; and in the registry as it then is, [playerDone],
    [hostRevealAnswer] and [hostNext] for that room, from whatever
    connections and however many of them, change nothing and send nothing:
    these events cannot complete the round. (Another event can: see
    [stalled_round_is_completed_by_a_newcomer].) *)
Theorem round_stalls_when_pending_player_leaves W QUESTION_BANK (sock rid : string)
    (sv : Server) (room : Room) :
  rooms sv !! rid = Some room → state room = in_question → hostId room ≠ sock →
  is_Some (obj_get sock (players room)) →
  (∀ c, c ≠ sock → is_Some (obj_get c (players room)) → c ∈ done room) →
  (∃ c, c ≠ sock ∧ is_Some (obj_get c (players room))) →
  ∃ sv' out room',
    handle W QUESTION_BANK sock Disconnect sv = Some (sv', out) ∧
    to_room rid out = [] ∧
    rooms sv' !! rid = Some room' ∧ state room' = in_question ∧
    ∀ evs : list (string * Event),
      Forall (λ e, e.2 = HostRevealAnswer rid ∨ e.2 = HostNext rid
                   ∨ ∃ answer, e.2 = PlayerDone rid answer) evs →
      run W QUESTION_BANK evs sv' = Some (sv', []).
Proof.
  intros Hroom Hstate Hhost Hpl Hothers (c0 & Hc0 & Hc0pl).
  destruct (disconnect_facts W QUESTION_BANK sock sv) as (sv' & out & Hh & _ & _ & Hstay & _).
  specialize (Hstay rid room Hroom Hhost). rewrite bool_decide_eq_true_2 in Hstay by done.
  exists sv', out, (without_player sock room). split; [done|]. split.
  { pose proof (handle_Effect W QUESTION_BANK _ _ _ _ _ rid Hh) as He.
    rewrite Hroom, Hstay in He. inversion He; subst; done. }
  split; [done|]. split; [done|]. intros evs Hevs.
  induction Hevs as [|[sock' ev] evs Hev _ IH]; [done|]. cbn [run snd] in Hev |- *.
  rewrite (stalled_room_ignores W QUESTION_BANK rid sv' (without_player sock room) sock' ev);
    [cbn [mbind option_bind]; by rewrite IH|exact Hstay|done| |  |exact Hev].
  - cbn. intros c. rewrite obj_get_delete.
    destruct (String.eqb_spec c sock) as [->|Hne]; [by intros [? ?]|].
    intros Hc. apply elem_of_difference. split; [by apply Hothers|set_solver].
  - cbn. intros Hnil. destruct Hc0pl as [p Hp].
    assert (Hget : obj_get c0 (obj_delete sock (players room)) = Some p).
    { rewrite obj_get_delete. by rewrite (proj2 (String.eqb_neq _ _) Hc0). }
    rewrite Hnil in Hget. done.
Qed.

Lemma round_stalls_when_pending_player_leaves_witness :
  ∃ sv' out room',
    handle Scenario.world Scenario.bank "mira" Disconnect Examples.mid_round_server
    = Some (sv', out) ∧
    to_room "DMU3A" out = [] ∧
    rooms sv' !! "DMU3A" = Some room' ∧ state room' = in_question ∧
    ∀ evs : list (string * Event),
      Forall (λ e, e.2 = HostRevealAnswer "DMU3A" ∨ e.2 = HostNext "DMU3A"
                   ∨ ∃ answer, e.2 = PlayerDone "DMU3A" answer) evs →
      run Scenario.world Scenario.bank evs sv' = Some (sv', []).
Proof.
  apply (round_stalls_when_pending_player_leaves Scenario.world Scenario.bank "mira" "DMU3A"
           Examples.mid_round_server Examples.mid_round).
  - reflexivity.
  - reflexivity.
  - discriminate.
  - by eexists.
  - intros c Hne [p Hp]. cbn in Hp.
    destruct (String.eqb_spec c "ravi") as [->|_]; [set_solver|].
    destruct (String.eqb_spec c "mira") as [->|_]; done.
  - exists "ravi". split; [discriminate|by eexists].
Defined.

(** The stall does not outlast a [joinRoom]: [joinRoom] has no guard on
    the state of the room, and the [playerDone] of the newcomer brings
    [done] to the size of [players]. *)
Lemma stalled_round_is_completed_by_a_newcomer :
  (fun r : Server * list Emit => e_event <$> to_room "DMU3A" r.2) <$>
    run Scenario.world Scenario.bank
      [ ("mira", Disconnect);
        ("ravi", PlayerDone "DMU3A" (JNum 1)); ("host", HostRevealAnswer "DMU3A");
        ("host", HostNext "DMU3A");
        ("tara", JoinRoom "DMU3A" (Some "Tara")); ("tara", PlayerDone "DMU3A" (JNum 3)) ]
      Examples.mid_round_server
  = Some ["showAnswer"].
Proof. vm_compute. reflexivity. Qed.


(** ** What a reveal reports *)

Lemma obj_get_assign n name v (st : JsObj JSON * bool) :
  n ≠ "__proto__" →
  obj_get n (obj_assign name v st).1 = if String.eqb n name then Some v else obj_get n st.1.
Proof.
  intros Hn. unfold obj_assign.
  destruct (String.eqb_spec name "__proto__") as [->|Hname]; cbn [andb].
  - destruct st.2; cbn [fst].
    + by rewrite (proj2 (String.eqb_neq _ _) Hn).
    + apply obj_get_set.
  - apply obj_get_set.
Qed.

Lemma times_fold_untouched (f : string → JSON) (l : list (string * Player)) acc n :
  n ≠ "__proto__" → n ∉ (λ kv, p_name kv.2) <$> l →
  obj_get n (fold_left (λ times '(id, player), obj_assign (p_name player) (f id) times) l acc).1
  = obj_get n acc.1.
Proof.
  intros Hproto. revert acc. induction l as [|[id p] l IH]; intros acc Hn; [done|].
  cbn [fold_left]. cbn in Hn. apply not_elem_of_cons in Hn as [Hne Hn].
  rewrite IH by done. rewrite obj_get_assign by done.
  by rewrite (proj2 (String.eqb_neq _ _) Hne).
Qed.

Lemma times_fold_lookup (f : string → JSON) (l : list (string * Player)) acc id p :
  p_name p ≠ "__proto__" →
  NoDup ((λ kv, p_name kv.2) <$> l) → (id, p) ∈ l →
  obj_get (p_name p)
    (fold_left (λ times '(id, player), obj_assign (p_name player) (f id) times) l acc).1
  = Some (f id).
Proof.
  intros Hproto. revert acc. induction l as [|[id0 p0] l IH]; intros acc Hnd Hin.
  { by apply elem_of_nil in Hin. }
  cbn in Hnd. apply NoDup_cons in Hnd as [Hfirst Hnd]. cbn [fold_left].
  apply elem_of_cons in Hin as [[= -> ->]|Hin]; [|by apply IH].
  rewrite times_fold_untouched by done. rewrite obj_get_assign by done.
  by rewrite String.eqb_refl.
Qed.

Lemma answers_fold_untouched (look : string → option JSON) (g : JSON → JSON)
    (l : list (string * Player)) acc n :
  n ≠ "__proto__" → n ∉ (λ kv, p_name kv.2) <$> l →
  obj_get n (fold_left (λ playerAnswers '(id, player),
                          match look id with
                          | Some a => obj_assign (p_name player) (g a) playerAnswers
                          | None => playerAnswers
                          end) l acc).1
  = obj_get n acc.1.
Proof.
  intros Hproto. revert acc. induction l as [|[id p] l IH]; intros acc Hn; [done|].
  cbn [fold_left]. cbn in Hn. apply not_elem_of_cons in Hn as [Hne Hn].
  rewrite IH by done. destruct (look id); [|done]. rewrite obj_get_assign by done.
  by rewrite (proj2 (String.eqb_neq _ _) Hne).
Qed.

Lemma answers_fold_lookup (look : string → option JSON) (g : JSON → JSON)
    (l : list (string * Player)) acc id p :
  p_name p ≠ "__proto__" →
  NoDup ((λ kv, p_name kv.2) <$> l) → (id, p) ∈ l →
  obj_get (p_name p)
    (fold_left (λ playerAnswers '(id, player),
                  match look id with
                  | Some a => obj_assign (p_name player) (g a) playerAnswers
                  | None => playerAnswers
                  end) l acc).1
  = match look id with Some a => Some (g a) | None => obj_get (p_name p) acc.1 end.
Proof.
  intros Hproto. revert acc. induction l as [|[id0 p0] l IH]; intros acc Hnd Hin.
  { by apply elem_of_nil in Hin. }
  cbn in Hnd. apply NoDup_cons in Hnd as [Hfirst Hnd]. cbn [fold_left].
  apply elem_of_cons in Hin as [[= -> ->]|Hin].
  - rewrite answers_fold_untouched by done.
    destruct (look id0); [|done]. rewrite obj_get_assign by done. by rewrite String.eqb_refl.
  - rewrite IH by done. destruct (look id); [done|].
    destruct (look id0); [|done]. rewrite obj_get_assign by done.
    assert (Hne : p_name p ≠ p_name p0).
    { intros Heq. apply Hfirst. rewrite <-Heq.
      apply list_elem_of_fmap. by exists (id, p). }
    by rewrite (proj2 (String.eqb_neq _ _) Hne).
Qed.

(** Every value [playerDone] files in [playerAnswers] is an object, so
    the object keeps its prototype and never gets an entry of the name
    [__proto__]. *)
Lemma answers_fold_proto (look : string → option JSON) (g : JSON → JSON)
    (l : list (string * Player)) acc :
  (∀ a, g a ≠ JNull) → acc.2 = true → obj_get "__proto__" acc.1 = None →
  obj_get "__proto__"
    (fold_left (λ playerAnswers '(id, player),
                  match look id with
                  | Some a => obj_assign (p_name player) (g a) playerAnswers
                  | None => playerAnswers
                  end) l acc).1
  = None.
Proof.
  intros Hg. revert acc. induction l as [|[id p] l IH]; intros acc Hflag Hacc; [done|].
  cbn [fold_left]. destruct (look id) as [a|]; [|by apply IH].
  unfold obj_assign. rewrite Hflag, andb_true_r.
  destruct (String.eqb_spec (p_name p) "__proto__") as [Heq|Hne].
  - apply IH; [|done]. cbn [snd]. specialize (Hg a). by destruct (g a).
  - apply IH; [done|]. cbn [fst]. rewrite obj_get_set.
    by rewrite (proj2 (String.eqb_neq "__proto__" _)).
Qed.

(** X21. In the payload of [showAnswer] the finish times and the answers
    are keyed by player name. When no two players of the room share a name,
    the entry under the name of a player, for any name but [__proto__], is
    that player's: the finish time recorded for the player's connection, or
    [null] when none is recorded or the time recorded is 0; and the answer
    recorded for it, if any, with [correct] telling, for an [mcq], whether
    the answer is the number [correctOption], and [null] for any other
    type. Under the name [__proto__] no answer is reported, whatever the
    players are called. *)
Theorem showAnswer_reports_by_name (room : Room) (q : Question) (id : string) (p : Player) :
  NoDup ((λ kv, p_name kv.2) <$> players room) → (id, p) ∈ players room →
  p_name p ≠ "__proto__" →
  obj_get (p_name p) (times_of room)
  = Some (match finishTimes room !! id with
          | Some t => if (t =? 0)%Z then JNull else JNum t
          | None => JNull
          end) ∧
  obj_get (p_name p) (playerAnswers_of room q)
  = (λ a, JObj [ ("answer", a);
                 ("correct",
                  if String.eqb (q_type q) QUESTION_TYPES.MCQ
                  then JBool (strict_eq_option a (q_correctOption q))
                  else JNull) ]) <$> answers room !! id ∧
  obj_get "__proto__" (playerAnswers_of room q) = None.
Proof.
  intros Hnd Hin Hproto. split; [|split].
  - unfold times_of.
    apply (times_fold_lookup
             (λ id, match finishTimes room !! id with
                    | Some t => if (t =? 0)%Z then JNull else JNum t
                    | None => JNull
                    end)); done.
  - unfold playerAnswers_of.
    rewrite (answers_fold_lookup (λ id, answers room !! id)
               (λ a, JObj [ ("answer", a);
                            ("correct",
                             if String.eqb (q_type q) QUESTION_TYPES.MCQ
                             then JBool (strict_eq_option a (q_correctOption q))
                             else JNull) ])
               (players room) ([], true) id p Hproto Hnd Hin).
    by destruct (answers room !! id).
  - unfold playerAnswers_of.
    apply (answers_fold_proto (λ id, answers room !! id)
             (λ a, JObj [ ("answer", a);
                          ("correct",
                           if String.eqb (q_type q) QUESTION_TYPES.MCQ
                           then JBool (strict_eq_option a (q_correctOption q))
                           else JNull) ])); done.
Qed.

Lemma showAnswer_reports_by_name_witness :
  ∃ q,
    Scenario.bank !! 0 = Some q ∧
    obj_get "Ravi" (times_of Examples.mid_round) = Some (JNum 4000) ∧
    obj_get "Ravi" (playerAnswers_of Examples.mid_round q)
    = Some (JObj [("answer", JNum 3); ("correct", JBool true)]).
Proof.
  eexists. split; [reflexivity|].
  match goal with
  | |- _ ∧ obj_get _ (playerAnswers_of _ ?q) = _ =>
      destruct (showAnswer_reports_by_name Examples.mid_round q "ravi"
                  (mkPlayer "ravi" "Ravi")) as (Ht & Ha & _)
  end.
  - repeat constructor; cbv; intros Hin; inversion Hin; subst;
      match goal with H' : False |- _ => destruct H' | H' : _ |- _ => inversion H' end.
  - left.
  - discriminate.
  - split; [exact Ht|exact Ha].
Defined.

(** ** The filters of the bank *)

Lemma bank_filter_spec QUESTION_BANK (grade : option Z)
    (subject chapter questionType : option string) (excludeIds : gset string)
    (q : Question) :
  q ∈ bank_filter QUESTION_BANK grade subject chapter questionType excludeIds ↔
  q ∈ QUESTION_BANK ∧
  (∀ g, grade = Some g → g ≠ 0%Z → q_grade q = g) ∧
  (∀ s, subject = Some s → s ≠ "" → q_subject q = s) ∧
  (∀ c, chapter = Some c → c ≠ "" → q_chapter q = c) ∧
  (∀ t, questionType = Some t → t ≠ "" → q_type q = t) ∧
  q_id q ∉ excludeIds.
Proof.
  unfold bank_filter, truthy_num, truthy_str.
  rewrite list_elem_of_filter.
  destruct grade as [g|]; [destruct (Z.eqb_spec g 0) as [->|Hg]|];
    destruct subject as [s|]; try destruct (String.eqb_spec s "") as [->|Hs];
    destruct chapter as [c|]; try destruct (String.eqb_spec c "") as [->|Hc];
    destruct questionType as [t|]; try destruct (String.eqb_spec t "") as [->|Ht];
    cbn [negb default]; rewrite ?list_elem_of_filter; naive_solver.
Qed.

(** X22. A question passes the filters of tier 2 exactly when it is in
    the bank, its id is not excluded, and it agrees with every filter that
    is set: a filter that is absent, the grade 0 and the empty string do
    not filter at all. *)
Theorem bank_filter_matches QUESTION_BANK (grade : option Z)
    (subject chapter questionType : option string) (excludeIds : gset string)
    (q : Question) :
  q ∈ bank_filter QUESTION_BANK grade subject chapter questionType excludeIds ↔
  q ∈ QUESTION_BANK ∧
  (∀ g, grade = Some g → g ≠ 0%Z → q_grade q = g) ∧
  (∀ s, subject = Some s → s ≠ "" → q_subject q = s) ∧
  (∀ c, chapter = Some c → c ≠ "" → q_chapter q = c) ∧
  (∀ t, questionType = Some t → t ≠ "" → q_type q = t) ∧
  q_id q ∉ excludeIds.
Proof. apply bank_filter_spec. Qed.


(** ** Start-up *)

Lemma loadDotEnv_fold (lines : list string) (env : gmap string string) :
  fold_left
    (fun env line =>
       match parse_env_line line with
       | Some (key, value) =>
           match env !! key with
           | None => if inherited key then env else <[key := value]> env
           | Some _ => env
           end
       | None => env
       end) lines env
  = env ∪ list_to_map
            (List.filter (λ kv, negb (inherited kv.1)) (omap parse_env_line lines)).
Proof.
  revert env. induction lines as [|line lines IH]; intros env; cbn [fold_left omap list_omap].
  { cbn. by rewrite (right_id_L ∅ (∪)). }
  rewrite IH. destruct (parse_env_line line) as [[key value]|]; [|done].
  cbn [List.filter fst]. destruct (inherited key); cbn [negb].
  { by destruct (env !! key). }
  cbn [list_to_map foldr uncurry fst snd]. destruct (env !! key) as [w|] eqn:Hkey.
  - apply map_eq. intros i. rewrite !lookup_union.
    destruct (decide (i = key)) as [->|Hne].
    + rewrite Hkey. by rewrite !union_Some_l.
    + by rewrite lookup_insert_ne.
  - rewrite <-insert_union_l. by rewrite insert_union_r.
Qed.

(** X23. [loadDotEnv] sets nothing without a readable [.env]. With one,
    the environment afterwards is the environment before, completed by the
    assignments of the lines of the file: a variable that is already set
    keeps its value, of two lines that assign the same new variable the
    first wins, and a line whose key is the name of a property of
    [Object.prototype] assigns nothing. *)
Theorem loadDotEnv_completes (env : gmap string string) :
  loadDotEnv None env = env ∧
  (∀ raw, loadDotEnv (Some raw) env
          = env ∪ list_to_map
                    (List.filter (λ kv, negb (inherited kv.1))
                       (omap parse_env_line (split_lines raw)))) ∧
  (∀ file, env ⊆ loadDotEnv file env).
Proof.
  split; [done|]. split; [intros raw; apply loadDotEnv_fold|].
  intros [raw|]; [|done]. cbn [loadDotEnv]. rewrite loadDotEnv_fold.
  apply map_union_subseteq_l.
Qed.

Lemma chars_append (a b : string) :
  list_ascii_of_string (a +:+ b) = list_ascii_of_string a ++ list_ascii_of_string b.
Proof.
  induction a as [|x a IH]; [done|].
  change (x :: list_ascii_of_string (a +:+ b) = x :: (list_ascii_of_string a ++ list_ascii_of_string b)).
  by rewrite IH.
Qed.

Lemma string_rev_involutive (s : string) : string_rev (string_rev s) = s.
Proof.
  unfold string_rev. rewrite list_ascii_of_string_of_list_ascii, rev_involutive.
  apply string_of_list_ascii_of_string.
Qed.

Lemma string_length_chars (s : string) : String.length s = length (list_ascii_of_string s).
Proof. induction s as [|a s IH]; [done|]. cbn. by rewrite IH. Qed.

Lemma string_rev_length (s : string) : String.length (string_rev s) = String.length s.
Proof.
  unfold string_rev. rewrite !string_length_chars, list_ascii_of_string_of_list_ascii.
  apply length_rev.
Qed.

Lemma string_of_chars_app (l1 l2 : list ascii) :
  string_of_list_ascii (l1 ++ l2) = string_of_list_ascii l1 +:+ string_of_list_ascii l2.
Proof.
  induction l1 as [|x l1 IH]; [done|].
  change (String x (string_of_list_ascii (l1 ++ l2))
          = String x (string_of_list_ascii l1 +:+ string_of_list_ascii l2)).
  by rewrite IH.
Qed.

Lemma string_rev_append (a : string) (c : ascii) (b : string) :
  string_rev (a +:+ String c b) = string_rev b +:+ String c (string_rev a).
Proof.
  unfold string_rev. rewrite chars_append. cbn [list_ascii_of_string].
  rewrite rev_app_distr. cbn [rev]. rewrite <-app_assoc. cbn [app].
  by rewrite string_of_chars_app.
Qed.

Lemma trim_start_leading (s : string) :
  trim_start s = match leading s with Some s' => trim_start s' | None => s end.
Proof.
  destruct s as [|a [|b [|c s]]]; cbn [trim_start leading]; try done;
    destruct (is_space a); try done; destruct (is_space2 a b); try done;
    by destruct (is_space3 a b c).
Qed.

Lemma trim_end_rev_trailing (s : string) :
  trim_end_rev s = match trailing s with Some s' => trim_end_rev s' | None => s end.
Proof.
  destruct s as [|c [|b [|a s]]]; cbn [trim_end_rev trailing]; try done;
    destruct (is_space c); try done; destruct (is_space2 b c); try done;
    by destruct (is_space3 a b c).
Qed.

Lemma leading_length (s s' : string) :
  leading s = Some s' → String.length s' < String.length s.
Proof.
  destruct s as [|a [|b [|c s]]]; cbn [leading]; try done;
    destruct (is_space a); try (intros [= <-]; cbn; lia); try done;
    destruct (is_space2 a b); try (intros [= <-]; cbn; lia); try done;
    destruct (is_space3 a b c); try (intros [= <-]; cbn; lia); done.
Qed.

Lemma trailing_length (s s' : string) :
  trailing s = Some s' → String.length s' < String.length s.
Proof.
  destruct s as [|c [|b [|a s]]]; cbn [trailing]; try done;
    destruct (is_space c); try (intros [= <-]; cbn; lia); try done;
    destruct (is_space2 b c); try (intros [= <-]; cbn; lia); try done;
    destruct (is_space3 a b c); try (intros [= <-]; cbn; lia); done.
Qed.

Lemma trim_start_length (s : string) : String.length (trim_start s) <= String.length s.
Proof.
  remember (String.length s) as n eqn:Hn. revert s Hn.
  induction (lt_wf n) as [n _ IH]. intros s ->.
  rewrite trim_start_leading. destruct (leading s) as [s'|] eqn:Hl; [|done].
  apply leading_length in Hl. specialize (IH _ Hl s' eq_refl). lia.
Qed.

Lemma trim_end_rev_length (s : string) : String.length (trim_end_rev s) <= String.length s.
Proof.
  remember (String.length s) as n eqn:Hn. revert s Hn.
  induction (lt_wf n) as [n _ IH]. intros s ->.
  rewrite trim_end_rev_trailing. destruct (trailing s) as [s'|] eqn:Hl; [|done].
  apply trailing_length in Hl. specialize (IH _ Hl s' eq_refl). lia.
Qed.

(** [trim] leaves a string as it is exactly when the string neither
    starts nor ends with white space. *)
Lemma trim_fixed (s : string) :
  trim s = s ↔ leading s = None ∧ trailing (string_rev s) = None.
Proof.
  unfold trim. split.
  - intros Heq.
    assert (Hlen : String.length (trim_end_rev (string_rev (trim_start s))) = String.length s).
    { rewrite <-(string_rev_length (trim_end_rev _)). by rewrite Heq. }
    pose proof (trim_end_rev_length (string_rev (trim_start s))) as H1.
    rewrite string_rev_length in H1.
    pose proof (trim_start_length s) as H2.
    assert (Hs : leading s = None).
    { destruct (leading s) as [s'|] eqn:Hl; [|done]. exfalso.
      rewrite trim_start_leading, Hl in H1, Hlen.
      apply leading_length in Hl. pose proof (trim_start_length s'). lia. }
    split; [done|]. rewrite trim_start_leading, Hs in Hlen.
    destruct (trailing (string_rev s)) as [s'|] eqn:Hl; [|done]. exfalso.
    rewrite trim_end_rev_trailing, Hl in Hlen.
    apply trailing_length in Hl. rewrite string_rev_length in Hl.
    pose proof (trim_end_rev_length s'). lia.
  - intros [Hs He]. rewrite trim_start_leading, Hs, trim_end_rev_trailing, He.
    apply string_rev_involutive.
Qed.

Lemma is_space2_high (a b : ascii) :
  is_space2 a b = true → 128 <= nat_of_ascii a ∧ 128 <= nat_of_ascii b.
Proof.
  unfold is_space2. intros [Ha Hb]%andb_true_iff.
  apply Nat.eqb_eq in Ha, Hb. lia.
Qed.

Lemma is_space3_high (a b c : ascii) :
  is_space3 a b c = true →
  128 <= nat_of_ascii a ∧ 128 <= nat_of_ascii b ∧ 128 <= nat_of_ascii c.
Proof.
  unfold is_space3. cbv zeta.
  rewrite !orb_true_iff, !andb_true_iff, !orb_true_iff, !andb_true_iff, !Nat.eqb_eq,
    !Nat.leb_le.
  lia.
Qed.

Lemma is_space2_low_l a b : nat_of_ascii a < 128 → is_space2 a b = false.
Proof.
  intros Ha. destruct (is_space2 a b) eqn:E; [|done].
  apply is_space2_high in E. lia.
Qed.

Lemma is_space2_low_r a b : nat_of_ascii b < 128 → is_space2 a b = false.
Proof.
  intros Ha. destruct (is_space2 a b) eqn:E; [|done].
  apply is_space2_high in E. lia.
Qed.

Lemma is_space3_low a b c :
  nat_of_ascii a < 128 ∨ nat_of_ascii b < 128 ∨ nat_of_ascii c < 128 →
  is_space3 a b c = false.
Proof.
  intros Ha. destruct (is_space3 a b c) eqn:E; [|done].
  apply is_space3_high in E. lia.
Qed.

(** A string that does not start with white space does not when it is
    followed by an ASCII character, and the same at the end. *)
Lemma leading_app_low (key : string) (c : ascii) (rest : string) :
  leading key = None → key ≠ "" → nat_of_ascii c < 128 →
  leading (key +:+ String c rest) = None.
Proof.
  intros Hl Hne Hc. destruct key as [|a [|b [|d key]]]; [done|..].
  - change (leading (String a (String c rest)) = None).
    cbn [leading] in Hl |- *. destruct (is_space a); [done|].
    rewrite is_space2_low_r by done.
    destruct rest as [|e rest]; [done|]. by rewrite is_space3_low by lia.
  - change (leading (String a (String b (String c rest))) = None).
    cbn [leading] in Hl |- *. destruct (is_space a); [done|].
    destruct (is_space2 a b); [done|]. by rewrite is_space3_low by lia.
  - change (leading (String a (String b (String d (key +:+ String c rest)))) = None).
    cbn [leading] in Hl |- *. destruct (is_space a); [done|].
    destruct (is_space2 a b); [done|]. by destruct (is_space3 a b d).
Qed.

Lemma trailing_app_low (value : string) (c : ascii) (rest : string) :
  trailing value = None → is_space c = false → nat_of_ascii c < 128 →
  trailing (value +:+ String c rest) = None.
Proof.
  intros Hl Hs Hc. destruct value as [|a [|b [|d value]]].
  - change (trailing (String c rest) = None). cbn [trailing]. rewrite Hs.
    destruct rest as [|b rest]; [done|]. rewrite is_space2_low_r by done.
    destruct rest as [|e rest]; [done|]. by rewrite is_space3_low by lia.
  - change (trailing (String a (String c rest)) = None).
    cbn [trailing] in Hl |- *. destruct (is_space a); [done|].
    rewrite is_space2_low_l by done.
    destruct rest as [|e rest]; [done|]. by rewrite is_space3_low by lia.
  - change (trailing (String a (String b (String c rest))) = None).
    cbn [trailing] in Hl |- *. destruct (is_space a); [done|].
    destruct (is_space2 b a); [done|]. by rewrite is_space3_low by lia.
  - change (trailing (String a (String b (String d (value +:+ String c rest)))) = None).
    cbn [trailing] in Hl |- *. destruct (is_space a); [done|].
    destruct (is_space2 b a); [done|]. by destruct (is_space3 d b a).
Qed.

(** Between an ASCII character that is not white space and another one,
    nothing is trimmed. *)
Lemma trim_between (p : ascii) (s : string) (q : ascii) :
  is_space p = false → nat_of_ascii p < 128 → is_space q = false → nat_of_ascii q < 128 →
  trim (String p (s +:+ String q "")) = String p (s +:+ String q "").
Proof.
  intros Hp Hpl Hq Hql. apply trim_fixed. split.
  - cbn [leading]. rewrite Hp. destruct (s +:+ String q "") as [|b [|c r]]; [done|..].
    + by rewrite is_space2_low_l.
    + rewrite is_space2_low_l by done. by rewrite is_space3_low by lia.
  - change (String p (s +:+ String q "")) with (String p s +:+ String q "").
    rewrite string_rev_append. change (string_rev "") with "".
    change ("" +:+ String q (string_rev (String p s))) with (String q (string_rev (String p s))).
    cbn [trailing]. rewrite Hq. destruct (string_rev (String p s)) as [|b [|c r]]; [done|..].
    + by rewrite is_space2_low_r.
    + rewrite is_space2_low_r by done. by rewrite is_space3_low by lia.
Qed.

Lemma indexOf_append (c : ascii) (key rest : string) :
  c ∉ list_ascii_of_string key →
  indexOf c (key +:+ String c rest) = Some (String.length key).
Proof.
  induction key as [|x key IH]; intros Hc.
  { change (indexOf c (String c rest) = Some 0). cbn. by rewrite Ascii.eqb_refl. }
  change (indexOf c (String x (key +:+ String c rest)) = Some (S (String.length key))).
  cbn in Hc |- *. apply not_elem_of_cons in Hc as [Hne Hc].
  rewrite (proj2 (Ascii.eqb_neq x c)) by done. by rewrite IH.
Qed.

Lemma slice_to_append (key rest : string) : slice_to (String.length key) (key +:+ rest) = key.
Proof.
  induction key as [|x key IH]; [by destruct rest|].
  change (String x (slice_to (String.length key) (key +:+ rest)) = String x key).
  by rewrite IH.
Qed.

Lemma slice_from_append (key : string) (c : ascii) (rest : string) :
  slice_from (String.length key + 1) (key +:+ String c rest) = rest.
Proof.
  induction key as [|x key IH]; [done|].
  change (slice_from (String.length key + 1) (key +:+ String c rest) = rest). apply IH.
Qed.

Lemma first_char_append (key rest : string) : key ≠ "" → first_char (key +:+ rest) = first_char key.
Proof. by destruct key. Qed.

Lemma slice_inner_wrapped (c : ascii) (value : string) :
  slice_inner (String c (value +:+ String c "")) = value.
Proof.
  unfold slice_inner. cbn [list_ascii_of_string]. rewrite chars_append. cbn [list_ascii_of_string].
  rewrite removelast_last. apply string_of_list_ascii_of_string.
Qed.

Lemma wrapped_in_wrapped (c : ascii) (value : string) :
  wrapped_in c (String c (value +:+ String c "")) = true.
Proof.
  unfold wrapped_in, last_char. cbn [first_char list_ascii_of_string].
  rewrite chars_append. cbn [list_ascii_of_string].
  rewrite bool_decide_eq_true_2 by done. apply bool_decide_eq_true_2.
  change (last ((c :: list_ascii_of_string value) ++ [c]) = Some c). apply last_snoc.
Qed.

Lemma parse_env_line_assignment (key value : string) :
  key ≠ "" → trim key = key → "="%char ∉ list_ascii_of_string key →
  first_char key ≠ Some "#"%char → trim value = value →
  parse_env_line (key +:+ String "="%char value)
  = Some (key, if wrapped_in "034"%char value || wrapped_in "039"%char value
               then slice_inner value else value).
Proof.
  intros Hne Hkey Heq Hhash Hvalue. unfold parse_env_line.
  apply trim_fixed in Hkey as Hk. destruct Hk as [Hk _].
  apply trim_fixed in Hvalue as Hv. destruct Hv as [_ Hv].
  assert (Hline : trim (key +:+ String "="%char value) = key +:+ String "="%char value).
  { apply trim_fixed. split.
    - apply leading_app_low; [done|done|vm_compute; lia].
    - rewrite string_rev_append. apply trailing_app_low; [done|done|vm_compute; lia]. }
  rewrite Hline.
  destruct (String.eqb_spec (key +:+ String "="%char value) "") as [He|_].
  { destruct key; [done|discriminate He]. }
  rewrite first_char_append by done. rewrite bool_decide_eq_false_2 by done. cbn [orb].
  rewrite indexOf_append by done.
  rewrite slice_to_append, slice_from_append, Hkey, Hvalue.
  by rewrite (proj2 (String.eqb_neq key "")).
Qed.

(** X24. A line [KEY=VALUE] of [.env], with a key that is not empty, does
    not start with [#], holds no [=] and neither starts nor ends with white
    space (so that [trim] leaves it as it is), assigns the value to the key
    as it is written, when the value neither starts nor ends with white
    space nor starts and ends with the same quote character, double or
    single; and any value, written between double or between single quotes,
    is assigned without the quotes. *)
Theorem parse_env_line_reads (key value : string) :
  key ≠ "" → trim key = key → "="%char ∉ list_ascii_of_string key →
  first_char key ≠ Some "#"%char →
  (trim value = value →
   wrapped_in "034"%char value || wrapped_in "039"%char value = false →
   parse_env_line (key +:+ "=" +:+ value) = Some (key, value)) ∧
  parse_env_line (key +:+ "=" +:+ String "034"%char (value +:+ String "034"%char ""))
  = Some (key, value) ∧
  parse_env_line (key +:+ "=" +:+ String "039"%char (value +:+ String "039"%char ""))
  = Some (key, value).
Proof.
  intros Hne Hkey Heq Hhash.
  split; [|split].
  - intros Hvalue Hplain. change (key +:+ "=" +:+ value) with (key +:+ String "="%char value).
    rewrite parse_env_line_assignment by done. by rewrite Hplain.
  - change (key +:+ "=" +:+ String "034"%char (value +:+ String "034"%char ""))
      with (key +:+ String "="%char (String "034"%char (value +:+ String "034"%char ""))).
    rewrite parse_env_line_assignment
      by (try done; apply trim_between; try reflexivity; vm_compute; lia).
    by rewrite wrapped_in_wrapped, slice_inner_wrapped.
  - change (key +:+ "=" +:+ String "039"%char (value +:+ String "039"%char ""))
      with (key +:+ String "="%char (String "039"%char (value +:+ String "039"%char ""))).
    rewrite parse_env_line_assignment
      by (try done; apply trim_between; try reflexivity; vm_compute; lia).
    rewrite wrapped_in_wrapped, orb_true_r. by rewrite slice_inner_wrapped.
Qed.

Lemma parse_env_line_reads_witness :
  parse_env_line ("PORT" +:+ "=" +:+ "3000") = Some ("PORT", "3000") ∧
  parse_env_line ("PORT" +:+ "=" +:+ String "034"%char ("3000" +:+ String "034"%char ""))
  = Some ("PORT", "3000") ∧
  parse_env_line ("PORT" +:+ "=" +:+ String "039"%char ("3000" +:+ String "039"%char ""))
  = Some ("PORT", "3000").
Proof.
  destruct (parse_env_line_reads "PORT" "3000") as (Hplain & Hdouble & Hsingle).
  - discriminate.
  - reflexivity.
  - intros Hin. cbn in Hin. rewrite !elem_of_cons in Hin.
    destruct Hin as [Hin|[Hin|[Hin|[Hin|Hin%elem_of_nil]]]]; try discriminate Hin; done.
  - discriminate.
  - split; [apply Hplain; reflexivity|]. split; [exact Hdouble|exact Hsingle].
Defined.

Lemma set_add_NoDup x allowed : NoDup allowed → NoDup (set_add x allowed).
Proof.
  unfold set_add. intros Hnd. case_bool_decide as Hin; [done|].
  apply NoDup_app. split; [done|]. split; [|apply NoDup_singleton].
  intros y Hy ->%list_elem_of_singleton. done.
Qed.

Lemma elem_of_set_add o x allowed : o ∈ set_add x allowed ↔ o = x ∨ o ∈ allowed.
Proof.
  unfold set_add. case_bool_decide as Hin.
  - split; [by right|]. by intros [->|?].
  - rewrite elem_of_app, list_elem_of_singleton. tauto.
Qed.

Lemma add_env_NoDup env name allowed : NoDup allowed → NoDup (add_env env name allowed).
Proof.
  unfold add_env. intros Hnd. destruct (env !! name) as [v|]; [|done].
  destruct (String.eqb v ""); [done|by apply set_add_NoDup].
Qed.

Lemma elem_of_add_env env name allowed o :
  o ∈ add_env env name allowed ↔ o ≠ "" ∧ env !! name = Some o ∨ o ∈ allowed.
Proof.
  unfold add_env. destruct (env !! name) as [v|]; [|naive_solver].
  destruct (String.eqb_spec v "") as [->|Hv]; [naive_solver|].
  rewrite elem_of_set_add. naive_solver.
Qed.

Lemma origins_fold_NoDup (pieces : list string) allowed :
  NoDup allowed →
  NoDup (fold_left
           (fun allowed v =>
              let trimmed := trim v in
              if String.eqb trimmed "" then allowed else set_add trimmed allowed)
           pieces allowed).
Proof.
  revert allowed. induction pieces as [|v pieces IH]; intros allowed Hnd; [done|].
  cbn [fold_left]. apply IH. cbn zeta.
  destruct (String.eqb (trim v) ""); [done|by apply set_add_NoDup].
Qed.

Lemma elem_of_origins_fold (pieces : list string) allowed o :
  o ∈ fold_left
        (fun allowed v =>
           let trimmed := trim v in
           if String.eqb trimmed "" then allowed else set_add trimmed allowed)
        pieces allowed
  ↔ o ∈ allowed ∨ o ≠ "" ∧ ∃ piece, piece ∈ pieces ∧ trim piece = o.
Proof.
  revert allowed. induction pieces as [|v pieces IH]; intros allowed; cbn [fold_left].
  { split; [by left|]. intros [?|(_ & piece & []%elem_of_nil & _)]. done. }
  rewrite IH. cbn zeta. destruct (String.eqb_spec (trim v) "") as [He|Hne].
  - split.
    + intros [?|(? & piece & ? & ?)]; [by left|]. right. split; [done|].
      exists piece. split; [by right|done].
    + intros [?|(Ho & piece & [->|?]%elem_of_cons & Ht)]; [by left|congruence|].
      right. split; [done|]. by exists piece.
  - rewrite elem_of_set_add. split.
    + intros [[->|?]|(? & piece & ? & ?)].
      * right. split; [done|]. exists v. split; [by left|done].
      * by left.
      * right. split; [done|]. exists piece. split; [by right|done].
    + intros [?|(Ho & piece & [->|?]%elem_of_cons & Ht)].
      * left. by right.
      * left. by left.
      * right. split; [done|]. by exists piece.
Qed.

(** X25. The origins [parseAllowedOrigins] returns are distinct and none
    is the empty string. An origin is returned exactly when it is not empty
    and is [PUBLIC_URL], or [RENDER_EXTERNAL_URL], as they are set, or one of
    the pieces of [ALLOWED_ORIGINS] between commas with the white space
    around it removed. *)
Theorem parseAllowedOrigins_lists (env : gmap string string) :
  NoDup (parseAllowedOrigins env) ∧
  ∀ o, o ∈ parseAllowedOrigins env ↔
       o ≠ "" ∧
       (env !! "PUBLIC_URL" = Some o ∨ env !! "RENDER_EXTERNAL_URL" = Some o ∨
        ∃ raw piece,
          env !! "ALLOWED_ORIGINS" = Some raw ∧ piece ∈ split_on ","%char raw ∧
          trim piece = o).
Proof.
  unfold parseAllowedOrigins. split.
  - destruct (env !! "ALLOWED_ORIGINS") as [raw|];
      [destruct (String.eqb raw "")|]; try apply origins_fold_NoDup;
      do 2 apply add_env_NoDup; constructor.
  - intros o. destruct (env !! "ALLOWED_ORIGINS") as [raw|] eqn:Hraw;
      [destruct (String.eqb_spec raw "") as [->|Hne]|];
      rewrite ?elem_of_origins_fold, !elem_of_add_env, elem_of_nil.
    + split; [naive_solver|]. intros (Ho & [?|[?|(raw & piece & [= <-] & Hp & Ht)]]); [naive_solver..|].
      vm_compute in Hp. apply list_elem_of_singleton in Hp as ->. by vm_compute in Ht.
    + naive_solver.
    + naive_solver.
Qed.

(** ** The catalog *)



















(** ** Opening, joining and playing alone *)

(** X28. [createRoom] stores the room under the code it draws without
    looking at the registry: whatever was stored under that code is
    replaced. The room stored is [waiting] at cursor 0 with empty
    bookkeeping, hosted by the caller, with the host as its only player when
    [playAsHost] is set and no player otherwise; its round target is the
    number of questions selected, or ['Unlimited'] when -1 rounds were asked
    for; and the caller alone is told, with the code and that number. *)
Theorem createRoom_takes_the_code_drawn W QUESTION_BANK (sock : string)
    (req : CreateRoomReq) (sv : Server) :
  ∃ room k' joinUrl,
    createRoom W QUESTION_BANK sock req sv
    = Some (mkServer (<[(createRoomId W (cursor sv)).1 := room]> (rooms sv)) k',
            [mkEmit (ToSocket sock) "roomCreated"
               (JObj [ ("roomId", JStr (createRoomId W (cursor sv)).1);
                       ("joinUrl", joinUrl);
                       ("totalRounds", JNum (Z.of_nat (length (questions room))));
                       ("hostName", JStr (hostName room)) ])]) ∧
    fresh sock (createRoomId W (cursor sv)).1 room ∧
    isUnlimited room = bool_decide (num_or (c_totalRounds req) 5 = (-1)%Z) ∧
    hostName room = trimmed_or (c_hostName req) "Host" ∧
    players room
    = (if c_playAsHost req
       then [(sock, mkPlayer sock (trimmed_or (c_hostName req) "Host" +:+ " (Host)"))]
       else []).
Proof.
  unfold createRoom.
  destruct (createRoomId W (cursor sv)) as [rid k]. cbn [fst].
  pose proof (selectQuestions_nonempty W QUESTION_BANK (c_grade req) (c_subject req)
    (c_chapter req)
    (if (num_or (c_totalRounds req) 5 =? -1)%Z then 5%Z else num_or (c_totalRounds req) 5)
    None (c_useAi req) k) as Hne.
  destruct (selectQuestions W QUESTION_BANK _ _ _ _ _ _ k) as [qs k']. cbn [fst] in Hne.
  rewrite bool_decide_eq_false_2 by done.
  assert (Hunl : (num_or (c_totalRounds req) 5 =? -1)%Z
                 = bool_decide (num_or (c_totalRounds req) 5 = (-1)%Z)).
  { destruct (Z.eqb_spec (num_or (c_totalRounds req) 5) (-1)) as [->|?]; [done|].
    by rewrite bool_decide_eq_false_2. }
  unfold fresh. destruct (c_playAsHost req).
  all: eexists (mkRoom rid sock _ _ qs 0 _ _ _ ∅ ∅ ∅ waiting None), _, _.
  all: (split; [reflexivity|]); cbn; rewrite <-?Hunl.
  all: repeat split; try done.
  all: try by destruct (num_or (c_totalRounds req) 5 =? -1)%Z.
  - right. by eexists.
  - by left.
Qed.

Lemma obj_set_length {V} k (v : V) (o : JsObj V) :
  length (obj_set k v o)
  = match obj_get k o with Some _ => length o | None => S (length o) end.
Proof.
  induction o as [|[k0 v0] o IH]; [done|]. cbn.
  destruct (String.eqb k k0); cbn; [done|]. rewrite IH. by destruct (obj_get k o).
Qed.

Lemma getPublicRoomState_Some W room :
  cursor_valid room → is_Some (getPublicRoomState W room).
Proof.
  intros Hcur. unfold getPublicRoomState.
  destruct (bool_decide (state room = in_question) || bool_decide (state room = showing_answer))
    eqn:E; [|by eexists].
  assert (Hlt : questionIndex room < length (questions room)).
  { apply Hcur. apply orb_true_iff in E as [E|E]; apply bool_decide_eq_true in E; auto. }
  apply lookup_lt_is_Some in Hlt as [q ->]. by eexists.
Qed.

Lemma getPublicRoomState_None W room :
  (state room = in_question ∨ state room = showing_answer) →
  length (questions room) <= questionIndex room →
  getPublicRoomState W room = None.
Proof.
  intros Hopen Hout. unfold getPublicRoomState.
  assert (E : bool_decide (state room = in_question)
              || bool_decide (state room = showing_answer) = true).
  { destruct Hopen as [-> | ->]; [done|]. apply orb_true_r. }
  rewrite E. by rewrite (lookup_ge_None_2 _ _ Hout).
Qed.

(** X29. [joinRoom] on a room of the registry, from a connection that is
    not its host, has no guard on the state of the room. It registers the
    caller under its connection id with the name given, trimmed, or
    ['Player'], replacing the entry the connection had if it had one; it
    changes nothing else of the room; it sends the list of players to the
    host and [joinedRoom], with the public view of the room, to the
    caller. It raises, at the public view, exactly when a round is open or
    its answer shown and there is no question under the cursor. *)
Theorem joinRoom_registers W QUESTION_BANK (sv : Server) (sock rid : string)
    (name : option string) (room : Room) :
  rooms sv !! rid = Some room → hostId room ≠ sock →
  let joined :=
    set_players (obj_set sock (mkPlayer sock (trimmed_or name "Player")) (players room))
      room in
  (∀ c, obj_get c (players joined)
        = if String.eqb c sock then Some (mkPlayer sock (trimmed_or name "Player"))
          else obj_get c (players room)) ∧
  length (players joined)
  = match obj_get sock (players room) with
    | Some _ => length (players room)
    | None => S (length (players room))
    end ∧
  if (bool_decide (state room = in_question) || bool_decide (state room = showing_answer))
     && bool_decide (length (questions room) <= questionIndex room)
  then handle W QUESTION_BANK sock (JoinRoom rid name) sv = None
  else
    ∃ view,
      getPublicRoomState W joined = Some view ∧
      handle W QUESTION_BANK sock (JoinRoom rid name) sv
      = Some (mkServer (<[rid := joined]> (rooms sv)) (cursor sv),
              [ mkEmit (ToSocket (hostId room)) "playerListUpdate"
                  (JObj [("players", JArr (map json_player (obj_values (players joined))))]);
                mkEmit (ToSocket sock) "joinedRoom"
                  (JObj [ ("roomId", JStr rid);
                          ("playerName", JStr (trimmed_or name "Player"));
                          ("state", view) ]) ]).
Proof.
  intros Hroom Hhost joined. split; [|split].
  - intros c. apply obj_get_set.
  - apply obj_set_length.
  - destruct ((bool_decide (state room = in_question)
               || bool_decide (state room = showing_answer))
              && bool_decide (length (questions room) <= questionIndex room)) eqn:E.
    + apply andb_true_iff in E as [Hopen Hout].
      apply bool_decide_eq_true in Hout.
      assert (Hopen' : state room = in_question ∨ state room = showing_answer).
      { apply orb_true_iff in Hopen as [H|H]; apply bool_decide_eq_true in H; auto. }
      cbn [handle]. unfold joinRoom. rewrite Hroom.
      rewrite (proj2 (String.eqb_neq _ _) Hhost).
      by rewrite (getPublicRoomState_None W
                    (set_players
                       (obj_set sock (mkPlayer sock (trimmed_or name "Player")) (players room))
                       room) Hopen' Hout).
    + destruct (getPublicRoomState_Some W joined) as [view Hview].
      { intros Hopen. cbn [joined state questionIndex questions set_players] in Hopen |- *.
        subst joined. cbn [state questionIndex questions set_players] in Hopen |- *.
        apply andb_false_iff in E as [E|E].
        - apply orb_false_iff in E as [E1 E2].
          apply bool_decide_eq_false in E1, E2. by destruct Hopen.
        - apply bool_decide_eq_false in E. lia. }
      exists view. split; [done|].
      cbn [handle]. unfold joinRoom. rewrite Hroom.
      rewrite (proj2 (String.eqb_neq _ _) Hhost). subst joined. by rewrite Hview.
Qed.

Lemma joinRoom_registers_witness :
  ∃ view,
    handle Scenario.world Scenario.bank "tara" (JoinRoom Scenario.code (Some padded_name))
      (Scenario.after Scenario.lobby)
    = Some (Scenario.after
              (Scenario.lobby ++ [("tara", JoinRoom Scenario.code (Some padded_name))]),
            [ mkEmit (ToSocket "host") "playerListUpdate"
                (JObj [("players",
                        JArr [ JObj [("id", JStr "ravi"); ("name", JStr "Ravi")];
                               JObj [("id", JStr "mira"); ("name", JStr "Mira")];
                               JObj [("id", JStr "tara"); ("name", JStr "Tara")] ])]);
              mkEmit (ToSocket "tara") "joinedRoom"
                (JObj [ ("roomId", JStr Scenario.code); ("playerName", JStr "Tara");
                        ("state", view) ]) ]).
Proof.
  assert (F : is_Some (Scenario.room_after Scenario.lobby)) by (vm_compute; eexists; reflexivity).
  destruct F as [room F].
  assert (G : (fun r => (hostId r, state r, questionIndex r, length (questions r)))
              <$> Scenario.room_after Scenario.lobby = Some ("host", in_question, 0, 3))
    by (vm_compute; reflexivity).
  rewrite F in G. injection G as Hhost Hstate Hidx Hlen.
  destruct (joinRoom_registers Scenario.world Scenario.bank (Scenario.after Scenario.lobby)
              "tara" Scenario.code (Some padded_name) room F) as (_ & _ & Hh).
  { rewrite Hhost. discriminate. }
  rewrite Hstate, Hidx, Hlen in Hh. cbn [bool_decide decide_rel andb orb] in Hh.
  rewrite bool_decide_eq_true_2, bool_decide_eq_false_2 in Hh by (done || lia).
  cbn [andb orb] in Hh. destruct Hh as (view & _ & Hh).
  exists view. rewrite Hh. clear Hh.
  assert (G : Some room = Scenario.room_after Scenario.lobby) by done.
  revert G. vm_compute. intros [= ->]. reflexivity.
Defined.

(** X30. Playing alone always moves on. After any sequence of events, in
    a room with a round target, an open round and no player, the host's
    [hostRevealAnswer] followed by its [hostNext] are both accepted: the
    answer is shown once and the cursor moves by one, to the next question,
    which is broadcast, or, when the target is reached, to the end of the
    game, which is broadcast with the target. *)
Theorem solo_round_advances W QUESTION_BANK (evs : list (string * Event)) (sv : Server)
    (out : list Emit) (host rid : string) (room : Room) :
  run W QUESTION_BANK evs init = Some (sv, out) →
  rooms sv !! rid = Some room → hostId room = host →
  state room = in_question → players room = [] → isUnlimited room = false →
  ∃ sv' out' room',
    run W QUESTION_BANK [(host, HostRevealAnswer rid); (host, HostNext rid)] sv
    = Some (sv', out') ∧
    rooms sv' !! rid = Some room' ∧
    questionIndex room' = questionIndex room + 1 ∧
    count_event rid "showAnswer" out' = 1 ∧
    (if decide (questionIndex room + 1 < length (questions room))
     then state room' = in_question ∧
          count_event rid "questionStarted" out' = 1 ∧ count_event rid "gameOver" out' = 0
     else state room' = finished ∧
          count_event rid "questionStarted" out' = 0 ∧
          payloads rid "gameOver" out'
          = [JObj [("totalRounds", JNum (Z.of_nat (length (questions room))))]]).
Proof.
  intros Hrun Hroom Hhost Hstate Hsolo Hfix.
  destruct (run_room_ok W QUESTION_BANK _ _ _ Hrun _ _ Hroom) as [[Hne Htot] Hcur].
  rewrite Hfix in Htot.
  assert (Hidx : questionIndex room < length (questions room)) by (apply Hcur; by left).
  destruct (lookup_lt_is_Some_2 _ _ Hidx) as [q Hq].
  cbn [run handle]. unfold hostRevealAnswer. rewrite Hroom, Hhost, String.eqb_refl, Hstate.
  rewrite bool_decide_eq_true_2 by done. cbn [negb orb]. rewrite Hsolo. cbn [obj_keys map length].
  destruct (decide (0 < 0)) as [?|_]; [lia|]. rewrite Hq. cbn [mbind option_bind].
  unfold hostNext. cbn [rooms cursor]. rewrite lookup_insert_eq.
  cbn [hostId set_state state set_questionIndex questionIndex isUnlimited totalRounds].
  rewrite Hhost, String.eqb_refl, Hfix, Htot.
  rewrite bool_decide_eq_true_2 by done. cbn [negb orb andb reached].
  destruct (decide (questionIndex room + 1 < length (questions room))) as [Hlt|Hge].
  - rewrite bool_decide_eq_false_2 by lia.
    destruct (lookup_lt_is_Some_2 _ _ Hlt) as [q' Hq'].
    cbn [now]. cbn [open_round set_startTime set_tracking set_state set_questionIndex questions questionIndex].
    rewrite Hq'. cbn [mbind option_bind].
    eexists _, _, _. split; [reflexivity|]. cbn [rooms].
    rewrite insert_insert_eq, lookup_insert_eq. split; [reflexivity|].
    split; [reflexivity|]. split; [|split; [reflexivity|split]].
    + unfold count_event, is_event, is_to_room. cbn. by rewrite String.eqb_refl.
    + unfold count_event, is_event, is_to_room. cbn. by rewrite String.eqb_refl.
    + unfold count_event, is_event, is_to_room. cbn. by rewrite String.eqb_refl.
  - rewrite bool_decide_eq_true_2 by lia.
    eexists _, _, _. split; [reflexivity|]. cbn [rooms].
    rewrite insert_insert_eq, lookup_insert_eq. split; [reflexivity|].
    split; [reflexivity|]. split; [|split; [reflexivity|split]].
    + unfold count_event, is_event, is_to_room. cbn. by rewrite String.eqb_refl.
    + unfold count_event, is_event, is_to_room. cbn. by rewrite String.eqb_refl.
    + unfold payloads, is_event, is_to_room. cbn. by rewrite String.eqb_refl.
Qed.

Lemma solo_round_advances_witness :
  ∃ sv' out' room',
    run Scenario.world Scenario.bank
      [("host", HostRevealAnswer Scenario.code); ("host", HostNext Scenario.code)]
      (Scenario.after [("host", CreateRoom (Scenario.request 3));
                       ("host", StartGame Scenario.code)])
    = Some (sv', out') ∧
    rooms sv' !! Scenario.code = Some room' ∧
    questionIndex room' = 1 ∧
    count_event Scenario.code "showAnswer" out' = 1.
Proof.
  assert (F : is_Some (Scenario.room_after [("host", CreateRoom (Scenario.request 3));
                                            ("host", StartGame Scenario.code)]))
    by (vm_compute; eexists; reflexivity).
  destruct F as [room F].
  assert (G : (fun r => (hostId r, state r, players r, isUnlimited r, questionIndex r))
              <$> Scenario.room_after [("host", CreateRoom (Scenario.request 3));
                                       ("host", StartGame Scenario.code)]
              = Some ("host", in_question, [], false, 0)) by (vm_compute; reflexivity).
  rewrite F in G. injection G as Hhost Hstate Hsolo Hfix Hidx.
  assert (Hrun : run Scenario.world Scenario.bank
                   [("host", CreateRoom (Scenario.request 3)); ("host", StartGame Scenario.code)]
                   init
                 = Some (Scenario.after [("host", CreateRoom (Scenario.request 3));
                                         ("host", StartGame Scenario.code)],
                         default [] (snd <$> run Scenario.world Scenario.bank
                                       [("host", CreateRoom (Scenario.request 3));
                                        ("host", StartGame Scenario.code)] init)))
    by (vm_compute; reflexivity).
  destruct (solo_round_advances Scenario.world Scenario.bank _ _ _ "host" Scenario.code room
              Hrun F Hhost Hstate Hsolo Hfix)
    as (sv' & out' & room' & Hr & Hl & Hi & Hc & _).
  exists sv', out', room'. rewrite Hidx in Hi. split; [exact Hr|]. split; [exact Hl|].
  split; [exact Hi|exact Hc].
Defined.
